(** * DailyYoutubeDigest: the processing pipeline, embedded and verified

    A shallow embedding of the Python sources

      - [src/utils/config.py]            (configuration fallback chain)
      - [src/utils/db.py]                (processed-video tracker)
      - [src/services/youtube_service.py] (discovery, transcripts)
      - [src/services/openai_service.py]  (summary and tweet generation)
      - [src/services/twitter_service.py] (microblog sink)
      - [src/main.py]                     (orchestration)

    Python values coming out of [json.loads] are modelled by [pyval];
    dictionaries are [gmap string pyval].  Functions that only compute are
    plain Rocq functions into [outcome] (a value or a raised exception);
    functions that talk to the outside world live in the monad [M], which
    threads an abstract world state through the external calls and collects
    the list of calls that were made. *)

From Stdlib Require Import ZArith String Ascii PrimFloat Bool List Lia.
From stdpp Require Import gmap strings list fin_maps pretty.

#[local] Set Warnings "-register-all,-inexact-float,-abstract-large-number".
#[local] Open Scope Z_scope.

(** ** Python values and exceptions *)

Module Py.

(** The exception classes the sources raise, catch or let escape. *)
Inductive exn :=
| KeyError
| TypeError
| AttributeError
| OverflowError
| JSONDecodeError
| UnicodeDecodeError
| OSError
| ClientError (code : string)
| HttpError
| TranscriptsDisabled
| NoTranscriptFound
| TweepyException
| OtherException.

(** The result of evaluating an expression: a value, or a raised exception. *)
Inductive outcome (A : Type) :=
| Ok (a : A)
| Raise (e : exn).
Arguments Ok {A} a.
Arguments Raise {A} e.

#[export] Instance outcome_ret : MRet outcome := fun A a => Ok a.

#[export] Instance outcome_bind : MBind outcome := fun A B f m =>
  match m with
  | Ok a => f a
  | Raise e => Raise e
  end.

(** What [json.loads] can produce: [None], [bool], [int], [float], [str],
    [list] and [dict] with string keys. *)
Inductive pyval :=
| PNone
| PBool (b : bool)
| PInt (z : Z)
| PFloat (f : float)
| PStr (s : string)
| PList (l : list pyval)
| PDict (d : gmap string pyval).

(** Python truthiness, the test behind [if x] and [not x]. *)
Definition truthy (v : pyval) : bool :=
  match v with
  | PNone => false
  | PBool b => b
  | PInt z => negb (z =? 0)
  | PFloat f => negb (PrimFloat.eqb f 0%float)
  | PStr s => negb (String.eqb s "")
  | PList l => match l with [] => false | _ :: _ => true end
  | PDict d => negb (bool_decide (d = ∅))
  end.

(** Truthiness of a [str], and of an [os.getenv] result that may be [None]. *)
Definition str_truthy (s : string) : bool := negb (String.eqb s "").

Definition opt_truthy (o : option string) : bool :=
  match o with
  | None => false
  | Some s => str_truthy s
  end.

(** [needle in haystack] on two [str]s: substring search. *)
Fixpoint is_substring (needle haystack : string) : bool :=
  String.prefix needle haystack
  || match haystack with
     | EmptyString => false
     | String _ rest => is_substring needle rest
     end.

(** [x == key] for a [str] [key]: only an equal [str] compares equal. *)
Definition eq_str (key : string) (x : pyval) : bool :=
  match x with
  | PStr s => String.eqb s key
  | _ => false
  end.

(** [key in c] for a [str] [key]. *)
Definition py_contains (key : string) (c : pyval) : outcome bool :=
  match c with
  | PDict d => Ok (bool_decide (is_Some (d !! key)))
  | PList l => Ok (existsb (eq_str key) l)
  | PStr s => Ok (is_substring key s)
  | PNone | PBool _ | PInt _ | PFloat _ => Raise TypeError
  end.

(** [c[key]] for a [str] [key]. *)
Definition py_getitem (c : pyval) (key : string) : outcome pyval :=
  match c with
  | PDict d =>
      match d !! key with
      | Some v => Ok v
      | None => Raise KeyError
      end
  | _ => Raise TypeError
  end.

(** The attribute lookup [c.get]: only [dict] has the method. *)
Definition get_method (c : pyval) : outcome (gmap string pyval) :=
  match c with
  | PDict d => Ok d
  | _ => Raise AttributeError
  end.

(** [c.get(key, default)]. *)
Definition py_get (c : pyval) (key : string) (default : pyval) : outcome pyval :=
  d ← get_method c;
  match d !! key with
  | Some v => Ok v
  | None => Ok default
  end.

Fixpoint chars (s : string) : list pyval :=
  match s with
  | EmptyString => []
  | String a rest => PStr (String a EmptyString) :: chars rest
  end.

(** [for x in c]: the elements of a list, the characters of a [str], the
    keys of a [dict] (in the map's enumeration order). *)
Definition py_iter (c : pyval) : outcome (list pyval) :=
  match c with
  | PList l => Ok l
  | PStr s => Ok (chars s)
  | PDict d => Ok (PStr <$> (map_to_list d).*1)
  | PNone | PBool _ | PInt _ | PFloat _ => Raise TypeError
  end.

(** [s[:n]]: a negative bound counts from the end. *)
Definition slice_to (n : Z) (s : string) : string :=
  if 0 <=? n
  then String.substring 0 (Z.to_nat n) s
  else String.substring 0 (Z.to_nat (Z.of_nat (String.length s) + n)) s.

Definition len (s : string) : Z := Z.of_nat (String.length s).

(** Code points [str.strip()] removes, among the first 256. *)
Definition is_space (a : ascii) : bool :=
  let n := nat_of_ascii a in
  ((9 <=? n) && (n <=? 13))%nat || ((28 <=? n) && (n <=? 32))%nat
  || (n =? 133)%nat || (n =? 160)%nat.

Fixpoint lstrip (s : string) : string :=
  match s with
  | EmptyString => EmptyString
  | String a rest => if is_space a then lstrip rest else s
  end.

Fixpoint rstrip (s : string) : string :=
  match s with
  | EmptyString => EmptyString
  | String a rest =>
      match rstrip rest with
      | EmptyString => if is_space a then EmptyString else String a EmptyString
      | r => String a r
      end
  end.

Definition strip (s : string) : string := rstrip (lstrip s).

(** [sep.join(parts)]. *)
Fixpoint join (sep : string) (parts : list string) : string :=
  match parts with
  | [] => ""
  | [p] => p
  | p :: rest => p +:+ sep +:+ join sep rest
  end.

Definition dict (kvs : list (string * pyval)) : pyval :=
  PDict (list_to_map kvs).

End Py.
Export Py.

(** ** Module-level settings

    Every source file reads its credentials and locations from the process
    environment once, at import time ([os.getenv]); a variable that is not
    set is [None]. *)

Record env_vars := {
  OPENAI_API_KEY : option string;
  YOUTUBE_API_KEY : option string;
  TWITTER_API_KEY : option string;
  TWITTER_API_SECRET : option string;
  TWITTER_ACCESS_TOKEN : option string;
  TWITTER_ACCESS_TOKEN_SECRET : option string;
  S3_CONFIG_BUCKET : option string;
  S3_CONFIG_KEY : string;
  DYNAMODB_TABLE : string;
}.

(** ** src/utils/config.py *)

Module Config.

(** What the two configuration stores answer.  [s3_object] is the outcome
    of [get_object], [read().decode("utf-8")] and [json.loads] taken
    together; [file_json] is the outcome of [open] and [json.load]. *)
Record sources := {
  s3_object : outcome pyval;
  file_exists : outcome bool;
  file_json : outcome pyval;
}.

(** [load_config_from_file]: [None] (here [PNone]) on any failure. *)
Definition load_config_from_file (src : sources) : pyval :=
  match file_exists src with
  | Ok true =>
      match file_json src with
      | Ok config => config
      | Raise _ => PNone
      end
  | Ok false => PNone
  | Raise _ => PNone
  end.

(** [load_config_from_s3]. *)
Definition load_config_from_s3 (st : env_vars) (src : sources) : pyval :=
  if negb (opt_truthy (S3_CONFIG_BUCKET st)) || negb (str_truthy (S3_CONFIG_KEY st))
  then PNone
  else
    match s3_object src with
    | Ok config => config
    | Raise _ => PNone
    end.

Definition required_keys : list string := ["channels"; "global_settings"].

Definition required_global_settings : list string :=
  ["default_summary_style"; "default_summary_length"; "default_include_timestamps"].

(** [for key in required_keys: if key not in config: return False]. *)
Fixpoint has_required_keys (keys : list string) (config : pyval) : outcome bool :=
  match keys with
  | [] => Ok true
  | key :: rest =>
      (present ← py_contains key config;
       if negb present then Ok false else has_required_keys rest config)
  end.

(** The loop over [enumerate(config["channels"])]. *)
Fixpoint channels_have_fields (channels : list pyval) : bool :=
  match channels with
  | [] => true
  | channel :: rest =>
      match channel with
      | PDict d =>
          if negb (bool_decide (is_Some (d !! "channel_id")))
             || negb (bool_decide (is_Some (d !! "name")))
          then false
          else channels_have_fields rest
      | _ => false
      end
  end.

(** [for key in required_global_settings:
       if key not in config["global_settings"]: return False]. *)
Fixpoint has_global_settings (keys : list string) (config : pyval) : outcome bool :=
  match keys with
  | [] => Ok true
  | key :: rest =>
      (gs ← py_getitem config "global_settings";
       present ← py_contains key gs;
       if negb present then Ok false else has_global_settings rest config)
  end.

(** [validate_config]. *)
Definition validate_config (config : pyval) : outcome bool :=
  if negb (truthy config) then Ok false
  else
    (present ← has_required_keys required_keys config;
     if negb present then Ok false
     else
       channels ← py_getitem config "channels";
       match channels with
       | PList l =>
           if negb (truthy channels) then Ok false
           else if negb (channels_have_fields l) then Ok false
           else has_global_settings required_global_settings config
       | _ => Ok false
       end).

(** The built-in configuration at the end of [load_config]. *)
Definition default_config : pyval :=
  dict
    [("channels",
      PList
        [dict
           [("name", PStr "Example Channel");
            ("channel_id", PStr "UC_x5XG1OV2P6uZZ5FSM9Ttw");
            ("summary_style", PStr "concise");
            ("summary_length", PInt 500);
            ("include_timestamps", PBool true);
            ("post_to_twitter", PBool false);
            ("post_to_blog", PBool false)]]);
     ("global_settings",
      dict
        [("default_summary_style", PStr "concise");
         ("default_summary_length", PInt 500);
         ("default_include_timestamps", PBool true);
         ("max_videos_per_channel", PInt 3);
         ("days_to_look_back", PInt 1);
         ("openai_model", PStr "gpt-4-turbo")])].

(** [load_config]. *)
Definition load_config (st : env_vars) (src : sources) : outcome pyval :=
  let config := load_config_from_s3 st src in
  let config := if negb (truthy config) then load_config_from_file src else config in
  if truthy config
  then
    (valid ← validate_config config;
     if valid : bool then Ok config else Ok default_config)
  else Ok default_config.

End Config.

(** ** The outside world

    Items returned by the YouTube search API ([video["id"]["videoId"]],
    [video["snippet"]["title"]], [video["snippet"]["channelTitle"]]). *)

Record video := {
  videoId : string;
  title : string;
  channelTitle : string;
}.

(** The arguments of [client.chat.completions.create]. *)
Record chat_request := {
  model : string;
  system_content : string;
  user_content : string;
  temperature : float;
  max_tokens : Z;
}.

(** The item [mark_video_as_processed] stores. *)
Record processed_item := {
  item_video_id : string;
  item_channel_name : string;
  item_summary : string;
  item_processed_at : string;
}.

(** What a run leaves behind: the requests sent to the generative service,
    the posts and the store writes, and the calls [main.py] makes to the
    services, each with what it returned. *)
Inductive event :=
| IO_ChatCompletion (req : chat_request)
| IO_CreateTweet (text : string)
| IO_PutItem (table : string) (item : processed_item)
| GetProcessedVideos (ret : gset string)
| GetChannelVideos (channel_id max_results : pyval) (published_after : string)
    (ret : option (list video))
| GetVideoTranscript (video_id : string) (ret : option string)
| GenerateSummary (transcript : string) (style max_length include_timestamps : pyval)
    (video_title channel_name : string) (ret : option string)
| PostToTwitter (summary video_id video_title channel_name : string) (ret : bool)
| WouldPostToBlog (video_id : string)
| MarkVideoAsProcessed (video_id channel_name summary : string) (ret : bool).

(** Computations over a world of type [W]: the result (or the exception
    that escaped), the world afterwards, and the events emitted. *)
Definition M (W A : Type) : Type := W -> outcome A * W * list event.

#[export] Instance M_ret {W} : MRet (M W) := fun A a w => (Ok a, w, []).

#[export] Instance M_bind {W} : MBind (M W) := fun A B f m w =>
  match m w with
  | (Ok a, w1, l1) => let '(o, w2, l2) := f a w1 in (o, w2, l1 ++ l2)
  | (Raise e, w1, l1) => (Raise e, w1, l1)
  end.

(** A pure evaluation inside [M]. *)
Definition lift {W A} (o : outcome A) : M W A := fun w => (o, w, []).

(** An external call: the world answers and moves on. *)
Definition io {W A} (call : W -> outcome A * W) : M W A :=
  fun w => let '(o, w1) := call w in (o, w1, []).

Definition emit {W} (e : event) : M W unit := fun w => (Ok tt, w, [e]).

(** [try: body except Exception as e: handler e]. *)
Definition try_except {W A} (body : M W A) (handler : exn -> M W A) : M W A :=
  fun w =>
    match body w with
    | (Ok a, w1, l1) => (Ok a, w1, l1)
    | (Raise e, w1, l1) => let '(o, w2, l2) := handler e w1 in (o, w2, l1 ++ l2)
    end.

(** A [for] loop whose body returns nothing. *)
Fixpoint for_each {W A} (xs : list A) (body : A -> M W unit) : M W unit :=
  match xs with
  | [] => mret tt
  | x :: rest => body x;; for_each rest body
  end.

(** Objects of [youtube_transcript_api]: a transcript can be translated and
    fetched, a transcript list can be searched by language codes. *)
Inductive transcript (W : Type) :=
| Transcript
    (translate : string -> W -> outcome (transcript W) * W)
    (fetch : W -> outcome (list pyval) * W).
Arguments Transcript {W} translate fetch.

Definition translate {W} (t : transcript W) :=
  match t with Transcript tr _ => tr end.

Definition fetch {W} (t : transcript W) :=
  match t with Transcript _ f => f end.

Record transcript_list (W : Type) := {
  find_transcript : list string -> W -> outcome (transcript W) * W;
}.
Arguments find_transcript {W} t language_codes w.

(** The pages a DynamoDB scan delivers: the last one carries no
    [LastEvaluatedKey]; any request may fail. *)
Inductive scan_pages :=
| ScanFails (e : exn)
| LastPage (video_ids : list string)
| MorePages (video_ids : list string) (next : scan_pages).

(** The external services, as the sources call them. *)
Record externals (W : Type) := {
  (* googleapiclient *)
  youtube_build : W -> outcome unit * W;
  youtube_search : pyval -> pyval -> option string -> W -> outcome (list video) * W;
  (* youtube_transcript_api *)
  list_transcripts : string -> W -> outcome (transcript_list W) * W;
  (* openai: [response.choices[0].message.content] *)
  chat_completions_create : chat_request -> W -> outcome string * W;
  (* tweepy: the client, and whether the response carries [data["id"]] *)
  tweepy_client : W -> outcome unit * W;
  create_tweet : string -> W -> outcome bool * W;
  (* boto3 *)
  dynamodb_resource : W -> outcome unit * W;
  dynamodb_list_tables : W -> outcome (list string) * W;
  dynamodb_create_table : string -> W -> outcome unit * W;
  dynamodb_scan : string -> W -> scan_pages * W;
  dynamodb_put_item : string -> processed_item -> W -> outcome unit * W;
  (* the clock: [datetime.utcnow().isoformat()] and
     [(datetime.utcnow() - timedelta(days=d)).isoformat() + "Z"] *)
  utcnow_isoformat : W -> string * W;
  published_after_of : pyval -> W -> outcome string * W;
  (* the run-time's [str()] behind f-string fields *)
  py_str : pyval -> string;
}.
Arguments youtube_build {W} e w.
Arguments youtube_search {W} e channel_id max_results published_after w.
Arguments list_transcripts {W} e video_id w.
Arguments chat_completions_create {W} e req w.
Arguments tweepy_client {W} e w.
Arguments create_tweet {W} e text w.
Arguments dynamodb_resource {W} e w.
Arguments dynamodb_list_tables {W} e w.
Arguments dynamodb_create_table {W} e table w.
Arguments dynamodb_scan {W} e table w.
Arguments dynamodb_put_item {W} e table item w.
Arguments utcnow_isoformat {W} e w.
Arguments published_after_of {W} e days w.
Arguments py_str {W} e v.

Section Pipeline.

Context {W : Type} (X : externals W) (env : env_vars).

(** ** src/services/youtube_service.py *)

(** [get_youtube_client]: [None] without a key or when [build] raises. *)
Definition get_youtube_client : M W (option unit) :=
  if negb (opt_truthy (YOUTUBE_API_KEY env)) then mret None
  else
    try_except
      (youtube ← io (youtube_build X); mret (Some youtube))
      (fun _ => mret None).

(** [get_channel_videos]. *)
Definition get_channel_videos (channel_id max_results : pyval)
    (published_after : option string) : M W (option (list video)) :=
  youtube ← get_youtube_client;
  match youtube with
  | None => mret None
  | Some _ =>
      try_except
        (let search_params :=
           if opt_truthy published_after then published_after else None in
         items ← io (youtube_search X channel_id max_results search_params);
         mret (Some items))
        (fun _ => mret None)
  end.

(** [entry["text"]] for each entry, each of which [" ".join] needs to be a
    [str]. *)
Definition entry_text (entry : pyval) : outcome string :=
  text ← py_getitem entry "text";
  match text with
  | PStr s => Ok s
  | _ => Raise TypeError
  end.

Fixpoint entry_texts (transcript_data : list pyval) : outcome (list string) :=
  match transcript_data with
  | [] => Ok []
  | entry :: rest =>
      s ← entry_text entry;
      ss ← entry_texts rest;
      Ok (s :: ss)
  end.

(** The inner [try] of [get_video_transcript]: the transcript to fetch, or
    [None] when the function has already returned [None]. *)
Definition select_transcript (transcripts : transcript_list W)
    (language_code : string) : M W (option (transcript W)) :=
  try_except
    (t ← io (find_transcript transcripts [language_code]); mret (Some t))
    (fun e =>
       match e with
       | NoTranscriptFound =>
           try_except
             (t ← io (find_transcript transcripts []);
              t ← io (translate t language_code);
              mret (Some t))
             (fun _ => mret None)
       | _ => lift (Raise e)
       end).

(** [get_video_transcript]. *)
Definition get_video_transcript (video_id language_code : string)
    : M W (option string) :=
  try_except
    (transcripts ← io (list_transcripts X video_id);
     selected ← select_transcript transcripts language_code;
     match selected with
     | None => mret None
     | Some t =>
         transcript_data ← io (fetch t);
         texts ← lift (entry_texts transcript_data);
         mret (Some (join " " texts))
     end)
    (fun _ => mret None).

(** What fetching transcript [t] gives [get_video_transcript] once [t] is
    selected: the segment texts joined by single spaces, or [None] when
    the fetch fails or a segment has no text. *)
Definition fetched_text (t : transcript W) (w : W) : option string * W :=
  match fetch t w with
  | (Ok transcript_data, w1) =>
      match entry_texts transcript_data with
      | Ok texts => (Some (join " " texts), w1)
      | Raise _ => (None, w1)
      end
  | (Raise _, w1) => (None, w1)
  end.

(** ** src/services/openai_service.py *)

Definition nl : string := String (ascii_of_nat 10) EmptyString.

Definition max_prompt_length : Z := 16000.

Definition truncation_marker : string := "... [transcript truncated due to length]".

(** The f-string that composes the summarization prompt. *)
Definition summary_prompt (transcript : string) (style max_length include_timestamps : pyval)
    (video_title channel_name : option string) : string :=
  let timestamps_instruction :=
    if truthy include_timestamps
    then "Include key timestamps for important points."
    else "Do not include timestamps." in
  let context :=
    match video_title, channel_name with
    | Some t, Some c =>
        if str_truthy t && str_truthy c
        then "The video is titled '" +:+ t +:+ "' from the channel '" +:+ c +:+ "'. "
        else ""
    | _, _ => ""
    end in
  context +:+ "Summarize the following YouTube video transcript in a "
    +:+ py_str X style +:+ " style with a maximum of " +:+ py_str X max_length
    +:+ " words. " +:+ timestamps_instruction
    +:+ nl +:+ nl +:+ "TRANSCRIPT:" +:+ nl +:+ transcript.

(** The prompt after the length check. *)
Definition dispatched_prompt (prompt : string) : string :=
  if len prompt >? max_prompt_length
  then slice_to max_prompt_length prompt +:+ truncation_marker
  else prompt.

(** The arguments of the completion call in [generate_summary]. *)
Definition summary_request (model prompt : string) : chat_request :=
  {| model := model;
     system_content :=
       "You are a helpful assistant that summarizes YouTube videos accurately and concisely.";
     user_content := prompt;
     temperature := 0.5%float;
     max_tokens := 1000 |}.

(** [generate_summary]. *)
Definition generate_summary (transcript : string)
    (style max_length include_timestamps : pyval)
    (video_title channel_name : option string) (model : string)
    : M W (option string) :=
  if negb (opt_truthy (OPENAI_API_KEY env)) then mret None
  else if negb (str_truthy transcript) then mret None
  else
    try_except
      (let prompt :=
         summary_prompt transcript style max_length include_timestamps
           video_title channel_name in
       let prompt := dispatched_prompt prompt in
       let req := summary_request model prompt in
       emit (IO_ChatCompletion req);;
       content ← io (chat_completions_create X req);
       mret (Some (strip content)))
      (fun _ => mret None).

Definition video_url (video_id : string) : string := "https://youtu.be/" +:+ video_id.

Definition attribution (channel_name : string) : string := " - " +:+ channel_name.

(** [available_length = max_length - len(video_url) - len(attribution) - 3]. *)
Definition available_length (video_id channel_name : string) (max_length : Z) : Z :=
  max_length - len (video_url video_id) - len (attribution channel_name) - 3.

Definition indent : string := "        ".

(** The triple-quoted f-string of [generate_tweet]. *)
Definition tweet_prompt (summary video_title channel_name : string) (available : Z)
    : string :=
  nl +:+ indent
    +:+ "Create a concise and engaging tweet about this YouTube video that will make people want to watch it."
    +:+ nl +:+ indent +:+ "Video title: " +:+ video_title
    +:+ nl +:+ indent +:+ "Channel: " +:+ channel_name
    +:+ nl +:+ indent +:+ "Summary: " +:+ summary
    +:+ nl +:+ indent
    +:+ nl +:+ indent +:+ "The tweet must be no longer than " +:+ py_str X (PInt available)
    +:+ " characters as I will add the video URL and attribution separately."
    +:+ nl +:+ indent
    +:+ "Do not include hashtags, the URL, or the channel name in your response."
    +:+ nl +:+ indent.

(** The length check on the generated tweet text. *)
Definition fit_tweet (available : Z) (tweet_content : string) : string :=
  if len tweet_content >? available
  then slice_to (available - 3) tweet_content +:+ "..."
  else tweet_content.

(** The arguments of the completion call in [generate_tweet]. *)
Definition tweet_request (prompt : string) : chat_request :=
  {| model := "gpt-3.5-turbo";
     system_content := "You are a social media expert who creates engaging tweets.";
     user_content := prompt;
     temperature := 0.7%float;
     max_tokens := 100 |}.

(** [generate_tweet]. *)
Definition generate_tweet (summary video_title video_id channel_name : string)
    (max_length : Z) : M W (option string) :=
  if negb (opt_truthy (OPENAI_API_KEY env)) then mret None
  else
    try_except
      (let available := available_length video_id channel_name max_length in
       if available <=? 50 then mret None
       else
         let prompt := tweet_prompt summary video_title channel_name available in
         let req := tweet_request prompt in
         emit (IO_ChatCompletion req);;
         content ← io (chat_completions_create X req);
         let tweet_content := fit_tweet available (strip content) in
         mret (Some (tweet_content +:+ " " +:+ video_url video_id
                       +:+ attribution channel_name)))
      (fun _ => mret None).

(** ** src/services/twitter_service.py *)

(** [get_twitter_client]: [None] unless all four credentials are set and
    [tweepy.Client] can be built. *)
Definition get_twitter_client : M W (option unit) :=
  if negb (opt_truthy (TWITTER_API_KEY env) && opt_truthy (TWITTER_API_SECRET env)
           && opt_truthy (TWITTER_ACCESS_TOKEN env)
           && opt_truthy (TWITTER_ACCESS_TOKEN_SECRET env))
  then mret None
  else
    try_except
      (client ← io (tweepy_client X); mret (Some client))
      (fun _ => mret None).

(** [post_to_twitter]; [generate_tweet] is called with its default
    [max_length=280]. *)
Definition post_to_twitter (summary video_id video_title channel_name : string)
    : M W bool :=
  client ← get_twitter_client;
  match client with
  | None => mret false
  | Some _ =>
      try_except
        (tweet_content ← generate_tweet summary video_title video_id channel_name 280;
         match tweet_content with
         | None => mret false
         | Some text =>
             if negb (str_truthy text) then mret false
             else
               emit (IO_CreateTweet text);;
               has_id ← io (create_tweet X text);
               if has_id : bool then mret true else mret false
         end)
        (fun _ => mret false)
  end.

(** ** src/utils/db.py *)

(** [get_dynamodb_client]. *)
Definition get_dynamodb_client : M W (option unit) :=
  try_except
    (dynamodb ← io (dynamodb_resource X); mret (Some dynamodb))
    (fun _ => mret None).

(** [ensure_table_exists]. *)
Definition ensure_table_exists : M W bool :=
  dynamodb ← get_dynamodb_client;
  match dynamodb with
  | None => mret false
  | Some _ =>
      try_except
        (existing_tables ← io (dynamodb_list_tables X);
         if bool_decide (DYNAMODB_TABLE env ∈ existing_tables) then mret true
         else
           io (dynamodb_create_table X (DYNAMODB_TABLE env));;
           mret true)
        (fun _ => mret false)
  end.

(** The scan and its pagination loop: the ids of all pages, or the
    exception of the request that failed. *)
Fixpoint scan_all (pages : scan_pages) (video_ids : gset string)
    : outcome (gset string) :=
  match pages with
  | ScanFails e => Raise e
  | LastPage items => Ok (video_ids ∪ list_to_set items)
  | MorePages items next => scan_all next (video_ids ∪ list_to_set items)
  end.

(** [dynamodb.Table(...)] on what [get_dynamodb_client] returned. *)
Definition dynamodb_table (dynamodb : option unit) : outcome unit :=
  match dynamodb with
  | Some _ => Ok tt
  | None => Raise AttributeError
  end.

(** [get_processed_videos]. *)
Definition get_processed_videos : M W (gset string) :=
  exists_ ← ensure_table_exists;
  if negb exists_ then mret ∅
  else
    try_except
      (dynamodb ← get_dynamodb_client;
       lift (dynamodb_table dynamodb);;
       pages ← io (fun w => let '(p, w1) := dynamodb_scan X (DYNAMODB_TABLE env) w in
                             (Ok p, w1));
       lift (scan_all pages ∅))
      (fun _ => mret ∅).

(** [mark_video_as_processed]. *)
Definition mark_video_as_processed (video_id channel_name summary : string)
    : M W bool :=
  exists_ ← ensure_table_exists;
  if negb exists_ then mret false
  else
    try_except
      (dynamodb ← get_dynamodb_client;
       lift (dynamodb_table dynamodb);;
       timestamp ← io (fun w => let '(t, w1) := utcnow_isoformat X w in (Ok t, w1));
       let item :=
         {| item_video_id := video_id;
            item_channel_name := channel_name;
            item_summary := summary;
            item_processed_at := timestamp |} in
       emit (IO_PutItem (DYNAMODB_TABLE env) item);;
       io (dynamodb_put_item X (DYNAMODB_TABLE env) item);;
       mret true)
      (fun _ => mret false).

(** ** src/main.py *)

(** [channel_config.get(key, config["global_settings"][default_key])]: the
    method is looked up first, then the default is evaluated. *)
Definition channel_setting (config channel_config : pyval) (key default_key : string)
    : outcome pyval :=
  get_method channel_config;;
  global_settings ← py_getitem config "global_settings";
  default ← py_getitem global_settings default_key;
  py_get channel_config key default.

(** [process_video]; [config] is the module-level global set by [main]. *)
Definition process_video (config : pyval) (v : video) (channel_config : pyval)
    : M W bool :=
  let video_id := videoId v in
  let video_title := title v in
  let channel_name := channelTitle v in
  transcript ← get_video_transcript video_id "en";
  emit (GetVideoTranscript video_id transcript);;
  match transcript with
  | None => mret false
  | Some transcript =>
      if negb (str_truthy transcript) then mret false
      else
        summary_style ←
          lift (channel_setting config channel_config
                  "summary_style" "default_summary_style");
        summary_length ←
          lift (channel_setting config channel_config
                  "summary_length" "default_summary_length");
        include_timestamps ←
          lift (channel_setting config channel_config
                  "include_timestamps" "default_include_timestamps");
        summary ←
          generate_summary transcript summary_style summary_length include_timestamps
            (Some video_title) (Some channel_name) "gpt-4-turbo";
        emit (GenerateSummary transcript summary_style summary_length
                include_timestamps video_title channel_name summary);;
        match summary with
        | None => mret false
        | Some summary =>
            if negb (str_truthy summary) then mret false
            else
              to_twitter ← lift (py_get channel_config "post_to_twitter" (PBool false));
              (if truthy to_twitter
               then
                 twitter_success ←
                   post_to_twitter summary video_id video_title channel_name;
                 emit (PostToTwitter summary video_id video_title channel_name
                         twitter_success)
               else mret tt);;
              to_blog ← lift (py_get channel_config "post_to_blog" (PBool false));
              (if truthy to_blog then emit (WouldPostToBlog video_id) else mret tt);;
              marked ← mark_video_as_processed video_id channel_name summary;
              emit (MarkVideoAsProcessed video_id channel_name summary marked);;
              mret true
        end
  end.

(** The body of the loop over the videos of one channel. *)
Definition process_if_new (config : pyval) (processed_videos : gset string)
    (channel : pyval) (v : video) : M W unit :=
  if bool_decide (videoId v ∈ processed_videos) then mret tt
  else process_video config v channel;; mret tt.

(** [config["global_settings"].get(key, default)]. *)
Definition global_setting (config : pyval) (key : string) (default : pyval)
    : outcome pyval :=
  global_settings ← py_getitem config "global_settings";
  py_get global_settings key default.

(** The body of the loop over [config["channels"]]. *)
Definition process_channel (config : pyval) (processed_videos : gset string)
    (published_after : string) (channel : pyval) : M W unit :=
  channel_id ← lift (py_getitem channel "channel_id");
  channel_name ← lift (py_getitem channel "name");
  max_results ← lift (global_setting config "max_videos_per_channel" (PInt 3));
  videos ← get_channel_videos channel_id max_results (Some published_after);
  emit (GetChannelVideos channel_id max_results published_after videos);;
  match videos with
  | None => mret tt
  | Some [] => mret tt
  | Some videos => for_each videos (process_if_new config processed_videos channel)
  end.

(** [main]; [src] is what the configuration stores hold. *)
Definition main (src : Config.sources) : M W unit :=
  config ← lift (Config.load_config env src);
  processed_videos ← get_processed_videos;
  emit (GetProcessedVideos processed_videos);;
  days_to_look_back ← lift (global_setting config "days_to_look_back" (PInt 1));
  published_after ← io (published_after_of X days_to_look_back);
  channels ← lift (channels ← py_getitem config "channels"; py_iter channels);
  for_each channels (process_channel config processed_videos published_after).

End Pipeline.

(** ** The resolver as spec.md words it (section 3 and section 4.1)

    These definitions follow the specification's sentences, to be compared
    with [Config.load_config]. *)

Module SpecReading.

Import Config.

(** "a remote shared configuration object (if its storage is reachable and
    holds a key)" that "parses as valid JSON". *)
Definition remote_candidate (st : env_vars) (src : sources) : option pyval :=
  if opt_truthy (S3_CONFIG_BUCKET st) && str_truthy (S3_CONFIG_KEY st)
  then match s3_object src with Ok v => Some v | Raise _ => None end
  else None.

(** "a local configuration file" that "parses as valid JSON". *)
Definition local_candidate (src : sources) : option pyval :=
  match file_exists src, file_json src with
  | Ok true, Ok v => Some v
  | _, _ => None
  end.

Definition passes_validation (v : pyval) : bool :=
  match validate_config v with
  | Ok true => true
  | _ => false
  end.

(** "The first candidate that parses as valid JSON and passes validation is
    returned; otherwise the chain continues." *)
Definition first_valid_candidate (st : env_vars) (src : sources) : pyval :=
  match remote_candidate st src with
  | Some v => if passes_validation v then v else
      match local_candidate src with
      | Some v' => if passes_validation v' then v' else default_config
      | None => default_config
      end
  | None =>
      match local_candidate src with
      | Some v' => if passes_validation v' then v' else default_config
      | None => default_config
      end
  end.

Definition nonempty_text (d : gmap string pyval) (key : string) : bool :=
  match d !! key with
  | Some (PStr s) => str_truthy s
  | _ => false
  end.

Definition source_named (channel : pyval) : bool :=
  match channel with
  | PDict d => nonempty_text d "channel_id" && nonempty_text d "name"
  | _ => false
  end.

Definition has_field (d : gmap string pyval) (key : string) : bool :=
  bool_decide (is_Some (d !! key)).

(** "Invariant: non-empty source list; every source has a non-empty
    identifier and name; every required global field present." *)
Definition resolved_config_invariant (config : pyval) : bool :=
  match config with
  | PDict d =>
      match d !! "channels", d !! "global_settings" with
      | Some (PList (c :: cs)), Some (PDict gs) =>
          forallb source_named (c :: cs)
          && forallb (has_field gs) required_global_settings
      | _, _ => false
      end
  | _ => false
  end.

End SpecReading.

(** ** What [validate_config] establishes *)

Definition channel_has_fields (channel : pyval) : Prop :=
  ∃ d, channel = PDict d ∧ is_Some (d !! "channel_id") ∧ is_Some (d !! "name").

(** A dictionary with a non-empty list of channels, each a dictionary holding
    the keys [channel_id] and [name], and a [global_settings] value in which
    the three required names are found by [in]. *)
Definition validated_shape (config : pyval) : Prop :=
  ∃ d channels gs,
    config = PDict d
    ∧ d !! "channels" = Some (PList channels)
    ∧ channels ≠ []
    ∧ Forall channel_has_fields channels
    ∧ d !! "global_settings" = Some gs
    ∧ Forall (fun key => py_contains key gs = Ok true) Config.required_global_settings.

(** ** Reading traces *)

Definition is_chat (e : event) : bool :=
  match e with IO_ChatCompletion _ => true | _ => false end.

Definition is_tweet (e : event) : bool :=
  match e with IO_CreateTweet _ => true | _ => false end.

Definition is_put (e : event) : bool :=
  match e with IO_PutItem _ _ => true | _ => false end.

Definition is_mark (e : event) : bool :=
  match e with MarkVideoAsProcessed _ _ _ _ => true | _ => false end.

Definition is_summarize (e : event) : bool :=
  match e with GenerateSummary _ _ _ _ _ _ _ => true | _ => false end.

Definition is_twitter (e : event) : bool :=
  match e with PostToTwitter _ _ _ _ _ | IO_CreateTweet _ => true | _ => false end.

Definition is_blog (e : event) : bool :=
  match e with WouldPostToBlog _ => true | _ => false end.

Definition not_twitter (e : event) : bool := negb (is_twitter e).

Definition not_blog (e : event) : bool := negb (is_blog e).

(** The events of a run that only reads: the processed-id scan and the
    discovery calls. *)
Definition is_read (e : event) : bool :=
  match e with
  | GetProcessedVideos _ | GetChannelVideos _ _ _ _ => true
  | _ => false
  end.

Definition count (p : event -> bool) (l : list event) : nat :=
  length (List.filter p l).

(** Every item a discovery call of the run returned is in [processed]. *)
Definition all_discovered_in (processed : gset string) (l : list event) : Prop :=
  ∀ channel_id max_results published_after videos v,
    GetChannelVideos channel_id max_results published_after (Some videos) ∈ l →
    v ∈ videos → videoId v ∈ processed.

(** ** Concrete worlds

    Small deterministic worlds (the world state is [unit]) on which the
    functions above can be evaluated. *)

Module Example.

(** [str()] on the scalars the examples format. *)
Definition str_of_scalar (v : pyval) : string :=
  match v with
  | PStr s => s
  | PInt z => pretty z
  | PBool true => "True"
  | PBool false => "False"
  | _ => "None"
  end.

Definition env : env_vars :=
  {| OPENAI_API_KEY := Some "sk-test";
     YOUTUBE_API_KEY := Some "yt-test";
     TWITTER_API_KEY := Some "k";
     TWITTER_API_SECRET := Some "s";
     TWITTER_ACCESS_TOKEN := Some "t";
     TWITTER_ACCESS_TOKEN_SECRET := Some "ts";
     S3_CONFIG_BUCKET := Some "digest-config";
     S3_CONFIG_KEY := "channels.json";
     DYNAMODB_TABLE := "daily-youtube-digest-videos" |}.

(** What varies between the examples. *)
Record scenario := {
  discovered : list video;
  find : list string -> outcome (transcript unit);
  completion : chat_request -> outcome string;
  tweet : outcome bool;
  put : outcome unit;
  stored : list string;
}.

Definition world (sc : scenario) : externals unit :=
  {| youtube_build := fun w => (Ok tt, w);
     youtube_search := fun _ _ _ w => (Ok (discovered sc), w);
     list_transcripts := fun _ w =>
       (Ok {| find_transcript := fun codes w => (find sc codes, w) |}, w);
     chat_completions_create := fun req w => (completion sc req, w);
     tweepy_client := fun w => (Ok tt, w);
     create_tweet := fun _ w => (tweet sc, w);
     dynamodb_resource := fun w => (Ok tt, w);
     dynamodb_list_tables := fun w => (Ok ["daily-youtube-digest-videos"], w);
     dynamodb_create_table := fun _ w => (Ok tt, w);
     dynamodb_scan := fun _ w => (LastPage (stored sc), w);
     dynamodb_put_item := fun _ _ w => (put sc, w);
     utcnow_isoformat := fun w => ("2024-05-01T06:00:00", w);
     published_after_of := fun _ w => (Ok "2024-04-30T06:00:00Z", w);
     py_str := str_of_scalar |}.

(** A transcript of two segments, as [fetch] returns it. *)
Definition segments : list pyval :=
  [dict [("text", PStr "Hello and welcome."); ("start", PInt 0)];
   dict [("text", PStr "Today we talk about proofs."); ("start", PInt 4)]].

Definition fetched (data : list pyval) : transcript unit :=
  Transcript (fun _ w => (Raise OtherException, w)) (fun w => (Ok data, w)).

(** A transcript in another language that translates into [segments]. *)
Definition translatable : transcript unit :=
  Transcript (fun _ w => (Ok (fetched segments), w))
             (fun w => (Ok [dict [("text", PStr "Hallo und willkommen.")]], w)).

Definition english (codes : list string) : outcome (transcript unit) :=
  if bool_decide (codes = ["en"]) then Ok (fetched segments) else Raise NoTranscriptFound.

(** [TranscriptList.find_transcript] as youtube_transcript_api answers it:
    the transcript listed for the first of the requested codes that has
    one, [NoTranscriptFound] when none has, so on every empty request. *)
Fixpoint find_listed (listed : list (string * transcript unit)) (codes : list string)
    : outcome (transcript unit) :=
  match codes with
  | [] => Raise NoTranscriptFound
  | code :: rest =>
      match List.find (fun entry => String.eqb entry.1 code) listed with
      | Some entry => Ok entry.2
      | None => find_listed listed rest
      end
  end.

(** Only a German transcript is listed. *)
Definition german_only (codes : list string) : outcome (transcript unit) :=
  find_listed [("de", translatable)] codes.

Definition video1 : video :=
  {| videoId := "dQw4w9WgXcQ"; title := "Proofs for everyone"; channelTitle := "Rocq Weekly" |}.

Definition video2 : video :=
  {| videoId := "9bZkp7q19f0"; title := "Monads in ten minutes"; channelTitle := "Rocq Weekly" |}.

(** A channel entry with the microblog sink switched on. *)
Definition channel_posting : pyval :=
  dict [("channel_id", PStr "UC123"); ("name", PStr "Rocq Weekly");
        ("post_to_twitter", PBool true)].

(** A channel entry that names no sink. *)
Definition channel_plain : pyval :=
  dict [("channel_id", PStr "UC123"); ("name", PStr "Rocq Weekly")].

Definition global_settings : pyval :=
  dict [("default_summary_style", PStr "concise");
        ("default_summary_length", PInt 500);
        ("default_include_timestamps", PBool true)].

Definition config_of (channel : pyval) : pyval :=
  dict [("channels", PList [channel]); ("global_settings", global_settings)].

(** A complete local configuration. *)
Definition local_config : pyval := config_of channel_plain.

(** A remote object that is JSON but lacks [global_settings]. *)
Definition remote_incomplete : pyval :=
  dict [("channels", PList [channel_plain])].

(** A remote object whose [global_settings] is [null]. *)
Definition remote_null_settings : pyval :=
  dict [("channels", PList [channel_plain]); ("global_settings", PNone)].

(** A configuration whose only channel has an empty id and name. *)
Definition config_blank_names : pyval :=
  config_of (dict [("channel_id", PStr ""); ("name", PStr "")]).

Definition stores (remote local : outcome pyval) : Config.sources :=
  {| Config.s3_object := remote;
     Config.file_exists := Ok true;
     Config.file_json := local |}.

(** The summarizer answers [summary]; everything else succeeds. *)
Definition summarizing (summary : string) : scenario :=
  {| discovered := [video1];
     find := english;
     completion := fun _ => Ok summary;
     tweet := Ok true;
     put := Ok tt;
     stored := [] |}.

(** The summarizer works; the sink rejects the post. *)
Definition sink_down : scenario :=
  {| discovered := [video1];
     find := english;
     completion := fun _ => Ok "A short summary.";
     tweet := Raise TweepyException;
     put := Ok tt;
     stored := [] |}.

(** The summarizer works; the store rejects the write. *)
Definition store_down : scenario :=
  {| discovered := [video1];
     find := english;
     completion := fun _ => Ok "A short summary.";
     tweet := Ok true;
     put := Raise (ClientError "ProvisionedThroughputExceededException");
     stored := [] |}.

(** Both discovered videos are already in the store. *)
Definition all_known : scenario :=
  {| discovered := [video1; video2];
     find := english;
     completion := fun _ => Ok "A short summary.";
     tweet := Ok true;
     put := Ok tt;
     stored := ["9bZkp7q19f0"; "dQw4w9WgXcQ"] |}.

(** Only a German transcript is listed. *)
Definition needs_translation : scenario :=
  {| discovered := [video1];
     find := german_only;
     completion := fun _ => Ok "A short summary.";
     tweet := Ok true;
     put := Ok tt;
     stored := [] |}.

Definition letters (n : nat) : string := string_of_list_ascii (repeat "a"%char n).

(** The generative service ignores the requested length. *)
Definition verbose (n : nat) : scenario :=
  {| discovered := [video1];
     find := english;
     completion := fun _ => Ok (letters n);
     tweet := Ok true;
     put := Ok tt;
     stored := [] |}.

End Example.

(** ** Judgements on runs *)

Section Judgements.

Context {W : Type}.

(** [wp m w Q]: the run of [m] from world [w] ends with a result, a world
    and a trace that satisfy [Q]. *)
Definition wp {A} (m : M W A) (w : W) (Q : outcome A -> W -> list event -> Prop) : Prop :=
  match m w with (o, w', l) => Q o w' l end.

(** [emits P m]: whatever happens, [m] leaves only events accepted by [P]. *)
Definition emits {A} (P : event -> bool) (m : M W A) : Prop :=
  ∀ w, wp m w (fun _ _ l => forallb P l = true).

(** [safe P m]: moreover no exception escapes [m]. *)
Definition safe {A} (P : event -> bool) (m : M W A) : Prop :=
  ∀ w, wp m w (fun o _ l => (∃ a, o = Ok a) ∧ forallb P l = true).

Definition no_event (e : event) : bool := false.

End Judgements.

(** ** The runs of [process_video] *)

Definition is_sink_io (e : event) : bool := is_chat e || is_tweet e.

(** What the microblog step leaves: nothing when the flag is missing or
    falsy, otherwise the sink's own traffic and the call with its result. *)
Definition twitter_events (channel_config : pyval) (summary : string) (v : video)
    (l : list event) : Prop :=
  ∃ flag,
    py_get channel_config "post_to_twitter" (PBool false) = Ok flag
    ∧ if truthy flag
      then ∃ traffic posted,
             forallb is_sink_io traffic = true
             ∧ l = traffic ++ [PostToTwitter summary (videoId v) (title v) (channelTitle v) posted]
      else l = [].

Definition blog_events (channel_config : pyval) (v : video) (l : list event) : Prop :=
  ∃ flag,
    py_get channel_config "post_to_blog" (PBool false) = Ok flag
    ∧ l = if truthy flag then [WouldPostToBlog (videoId v)] else [].

(** The three settings [process_video] reads before it summarizes. *)
Definition summary_settings (config channel_config : pyval) : outcome (pyval * pyval * pyval) :=
  style ← channel_setting config channel_config "summary_style" "default_summary_style";
  length ← channel_setting config channel_config "summary_length" "default_summary_length";
  stamps ← channel_setting config channel_config
             "include_timestamps" "default_include_timestamps";
  Ok (style, length, stamps).

(** Every run of [process_video] has one of four shapes. *)
Inductive process_video_run (config : pyval) (v : video) (channel_config : pyval)
    : outcome bool -> list event -> Prop :=
| pv_no_transcript r :
    opt_truthy r = false →
    process_video_run config v channel_config (Ok false)
      [GetVideoTranscript (videoId v) r]
| pv_settings_raise t e :
    str_truthy t = true →
    summary_settings config channel_config = Raise e →
    process_video_run config v channel_config (Raise e)
      [GetVideoTranscript (videoId v) (Some t)]
| pv_no_summary t style length stamps traffic r :
    str_truthy t = true →
    summary_settings config channel_config = Ok (style, length, stamps) →
    forallb is_chat traffic = true →
    opt_truthy r = false →
    process_video_run config v channel_config (Ok false)
      (GetVideoTranscript (videoId v) (Some t)
         :: traffic
         ++ [GenerateSummary t style length stamps (title v) (channelTitle v) r])
| pv_recorded t style length stamps traffic s posts blog writes marked :
    str_truthy t = true →
    summary_settings config channel_config = Ok (style, length, stamps) →
    forallb is_chat traffic = true →
    str_truthy s = true →
    twitter_events channel_config s v posts →
    blog_events channel_config v blog →
    forallb is_put writes = true →
    process_video_run config v channel_config (Ok true)
      (GetVideoTranscript (videoId v) (Some t)
         :: traffic
         ++ GenerateSummary t style length stamps (title v) (channelTitle v) (Some s)
         :: posts ++ blog ++ writes
         ++ [MarkVideoAsProcessed (videoId v) (channelTitle v) s marked]).

(** ** The rest of the services and of the entry point

    The calls the functions below make besides those of [externals]. *)

Record more_externals (W : Type) := {
  (* boto3: [table.get_item(Key=...)], with the response's [Item] if any *)
  dynamodb_get_item : string -> string -> W -> outcome (option processed_item) * W;
  (* googleapiclient: [youtube.videos().list(...).execute().get("items")] *)
  youtube_videos_list : string -> W -> outcome (option (list pyval)) * W;
  (* [json.dumps] on a dictionary of strings, and [str(e)] *)
  json_dumps : pyval -> string;
  exn_str : exn -> string;
}.
Arguments dynamodb_get_item {W} m table video_id w.
Arguments youtube_videos_list {W} m video_id w.
Arguments json_dumps {W} m v.
Arguments exn_str {W} m e.

Section MorePipeline.

Context {W : Type} (X : externals W) (Y : more_externals W) (env : env_vars).

(** ** src/utils/db.py, continued *)

(** [get_video_summary]. *)
Definition get_video_summary (video_id : string) : M W (option processed_item) :=
  exists_ ← ensure_table_exists X env;
  if negb exists_ then mret None
  else
    try_except
      (dynamodb ← get_dynamodb_client X;
       lift (dynamodb_table dynamodb);;
       response ← io (dynamodb_get_item Y (DYNAMODB_TABLE env) video_id);
       match response with
       | None => mret None
       | Some item => mret (Some item)
       end)
      (fun _ => mret None).

(** ** src/services/youtube_service.py, continued *)

(** [get_video_details]. *)
Definition get_video_details (video_id : string) : M W (option pyval) :=
  youtube ← get_youtube_client X env;
  match youtube with
  | None => mret None
  | Some _ =>
      try_except
        (items ← io (youtube_videos_list Y video_id);
         match items with
         | None => mret None
         | Some [] => mret None
         | Some (item :: _) => mret (Some item)
         end)
        (fun _ => mret None)
  end.

(** ** src/main.py, continued *)

Definition response (status : Z) (message : string) : pyval :=
  dict [("statusCode", PInt status);
        ("body", PStr (json_dumps Y (dict [("message", PStr message)])))].

(** [lambda_handler]; the event and the context are not used. *)
Definition lambda_handler (src : Config.sources) : M W pyval :=
  try_except
    (main X env src;;
     mret (response 200 "Processing completed successfully"))
    (fun e => mret (response 500 ("Error: " +:+ exn_str Y e))).

End MorePipeline.

(** ** More ways to read traces and stores *)

(** The ids a complete scan delivers, page after page; [None] when a request
    fails. *)
Fixpoint scanned_ids (pages : scan_pages) : option (list string) :=
  match pages with
  | ScanFails _ => None
  | LastPage ids => Some ids
  | MorePages ids next => app ids <$> scanned_ids next
  end.

(** The ids of the videos whose transcript was asked for, in order. *)
Fixpoint fetched_ids (l : list event) : list string :=
  match l with
  | [] => []
  | GetVideoTranscript video_id _ :: rest => video_id :: fetched_ids rest
  | _ :: rest => fetched_ids rest
  end.

(** The discovered videos that are not yet processed, in discovery order. *)
Definition new_videos (processed : gset string) (videos : list video) : list string :=
  videoId <$> List.filter (fun v => negb (bool_decide (videoId v ∈ processed))) videos.

(** The video an event is about, when it is about one. *)
Definition event_video (e : event) : option string :=
  match e with
  | IO_PutItem _ item => Some (item_video_id item)
  | GetVideoTranscript video_id _ => Some video_id
  | PostToTwitter _ video_id _ _ _ => Some video_id
  | WouldPostToBlog video_id => Some video_id
  | MarkVideoAsProcessed video_id _ _ _ => Some video_id
  | _ => None
  end.

(** No event about a video whose id is in [processed]. *)
Definition only_new (processed : gset string) (e : event) : bool :=
  match event_video e with
  | Some video_id => negb (bool_decide (video_id ∈ processed))
  | None => true
  end.

(** Posts of at most [limit] characters. *)
Definition tweet_within (limit : Z) (e : event) : bool :=
  match e with
  | IO_CreateTweet text => (len text <=? limit) && str_truthy text
  | _ => true
  end.

(** The write of one given record into one given table. *)
Definition is_put_of (table video_id channel_name summary : string) (e : event) : bool :=
  match e with
  | IO_PutItem t item =>
      String.eqb t table && String.eqb (item_video_id item) video_id
      && String.eqb (item_channel_name item) channel_name
      && String.eqb (item_summary item) summary
  | _ => false
  end.

(** Events about the video [video_id], or about no video in particular. *)
Definition about (video_id : string) (e : event) : bool :=
  match event_video e with
  | Some id => String.eqb id video_id
  | None => true
  end.

(** The videos of a discovery result; none when the call failed. *)
Definition videos_of (ret : option (list video)) : list video :=
  match ret with
  | Some videos => videos
  | None => []
  end.

(** ** A store that works

    DynamoDB as a map from table names to tables, a table a map from video
    ids to items.  [with_store X0] answers every store call from such a map
    and passes every other call on to [X0], whose world it leaves the map
    out of. *)

#[local] Set Warnings "-notation-for-abbreviation".

Notation tables := (gmap string (gmap string processed_item)).

(** Table [name] of the store, empty when there is none. *)
Definition table_of (name : string) (store : tables) : gmap string processed_item :=
  default ∅ (store !! name).

(** The ids recorded in table [name]. *)
Definition recorded (name : string) (store : tables) : gset string :=
  dom (table_of name store).

(** The store once table [name] is sure to exist. *)
Definition ensured (name : string) (store : tables) : tables :=
  match store !! name with
  | Some _ => store
  | None => <[name := ∅]> store
  end.

Definition on_world {W0 A} (call : W0 -> outcome A * W0)
    : W0 * tables -> outcome A * (W0 * tables) :=
  fun ws => let '(o, w1) := call ws.1 in (o, (w1, ws.2)).

Fixpoint lift_transcript {W0} (t : transcript W0) : transcript (W0 * tables) :=
  match t with
  | Transcript tr f =>
      Transcript
        (fun language_code ws =>
           match tr language_code ws.1 with
           | (Ok t1, w1) => (Ok (lift_transcript t1), (w1, ws.2))
           | (Raise e, w1) => (Raise e, (w1, ws.2))
           end)
        (on_world f)
  end.

Definition lift_transcripts {W0} (transcripts : transcript_list W0)
    : transcript_list (W0 * tables) :=
  {| find_transcript := fun language_codes ws =>
       match find_transcript transcripts language_codes ws.1 with
       | (Ok t, w1) => (Ok (lift_transcript t), (w1, ws.2))
       | (Raise e, w1) => (Raise e, (w1, ws.2))
       end |}.

Definition no_such_table : exn := ClientError "ResourceNotFoundException".

Definition with_store {W0} (X0 : externals W0) : externals (W0 * tables) :=
  {| youtube_build := on_world (youtube_build X0);
     youtube_search := fun channel_id max_results published_after =>
       on_world (youtube_search X0 channel_id max_results published_after);
     list_transcripts := fun video_id ws =>
       match list_transcripts X0 video_id ws.1 with
       | (Ok transcripts, w1) => (Ok (lift_transcripts transcripts), (w1, ws.2))
       | (Raise e, w1) => (Raise e, (w1, ws.2))
       end;
     chat_completions_create := fun req => on_world (chat_completions_create X0 req);
     tweepy_client := on_world (tweepy_client X0);
     create_tweet := fun text => on_world (create_tweet X0 text);
     dynamodb_resource := fun ws => (Ok tt, ws);
     dynamodb_list_tables := fun ws => (Ok (elements (dom ws.2)), ws);
     dynamodb_create_table := fun name ws =>
       match ws.2 !! name with
       | Some _ => (Raise (ClientError "ResourceInUseException"), ws)
       | None => (Ok tt, (ws.1, <[name := ∅]> ws.2))
       end;
     dynamodb_scan := fun name ws =>
       (match ws.2 !! name with
        | Some table => LastPage (elements (dom table))
        | None => ScanFails no_such_table
        end, ws);
     dynamodb_put_item := fun name item ws =>
       match ws.2 !! name with
       | Some table => (Ok tt, (ws.1, <[name := <[item_video_id item := item]> table]> ws.2))
       | None => (Raise no_such_table, ws)
       end;
     utcnow_isoformat := fun ws =>
       let '(now, w1) := utcnow_isoformat X0 ws.1 in (now, (w1, ws.2));
     published_after_of := fun days => on_world (published_after_of X0 days);
     py_str := py_str X0 |}.

Definition with_store_more {W0} (Y0 : more_externals W0) : more_externals (W0 * tables) :=
  {| dynamodb_get_item := fun name video_id ws =>
       match ws.2 !! name with
       | Some table => (Ok (table !! video_id), ws)
       | None => (Raise no_such_table, ws)
       end;
     youtube_videos_list := fun video_id => on_world (youtube_videos_list Y0 video_id);
     json_dumps := json_dumps Y0;
     exn_str := exn_str Y0 |}.

Definition not_mark (e : event) : bool := negb (is_mark e).

Section StoreJudgements.

Context {W0 : Type} (name : string).

(** [steady m]: [m] loses no recorded id and reports no record call. *)
Definition steady {A} (m : M (W0 * tables) A) : Prop :=
  ∀ ws, wp m ws (fun _ ws1 l =>
                   recorded name ws.2 ⊆ recorded name ws1.2
                   ∧ forallb not_mark l = true).

(** [grows m]: [m] loses no recorded id, and every record call it reports
    as successful is for an id that is recorded afterwards. *)
Definition grows {A} (m : M (W0 * tables) A) : Prop :=
  ∀ ws, wp m ws (fun _ ws1 l =>
                   recorded name ws.2 ⊆ recorded name ws1.2
                   ∧ ∀ video_id channel_name summary,
                       MarkVideoAsProcessed video_id channel_name summary true ∈ l →
                       video_id ∈ recorded name ws1.2).

End StoreJudgements.

(** ** More concrete worlds *)

Module Cases.

Import Example.

Definition quote : string := String (ascii_of_nat 34) EmptyString.

(** [json.dumps] on the one-field objects [lambda_handler] builds. *)
Definition dumps (v : pyval) : string :=
  match v with
  | PDict d =>
      match d !! "message" with
      | Some (PStr message) =>
          "{" +:+ quote +:+ "message" +:+ quote +:+ ": " +:+ quote +:+ message +:+ quote +:+ "}"
      | _ => "{}"
      end
  | _ => "null"
  end.

(** [str(e)] for the exceptions the examples meet. *)
Definition str_of_exn (e : exn) : string :=
  match e with
  | AttributeError => "'list' object has no attribute 'get'"
  | KeyError => "'global_settings'"
  | _ => "error"
  end.

Definition more : more_externals unit :=
  {| dynamodb_get_item := fun _ _ w => (Ok None, w);
     youtube_videos_list := fun _ w => (Ok (Some []), w);
     json_dumps := dumps;
     exn_str := str_of_exn |}.

(** The environment of a local run: no bucket is named. *)
Definition env_local : env_vars :=
  {| OPENAI_API_KEY := Some "sk-test";
     YOUTUBE_API_KEY := Some "yt-test";
     TWITTER_API_KEY := Some "k";
     TWITTER_API_SECRET := Some "s";
     TWITTER_ACCESS_TOKEN := Some "t";
     TWITTER_ACCESS_TOKEN_SECRET := Some "ts";
     S3_CONFIG_BUCKET := None;
     S3_CONFIG_KEY := "channels.json";
     DYNAMODB_TABLE := "daily-youtube-digest-videos" |}.

(** Captions are switched off for the video. *)
Definition no_captions : scenario :=
  {| discovered := [video1];
     find := fun _ => Raise TranscriptsDisabled;
     completion := fun _ => Ok "A short summary.";
     tweet := Ok true;
     put := Ok tt;
     stored := [] |}.

(** Two videos are discovered; the second is in the store. *)
Definition one_known : scenario :=
  {| discovered := [video1; video2];
     find := english;
     completion := fun _ => Ok "A short summary.";
     tweet := Ok true;
     put := Ok tt;
     stored := ["9bZkp7q19f0"] |}.

(** A configuration whose [global_settings] is an array of the three
    required names. *)
Definition settings_as_list : pyval :=
  dict [("channels", PList [channel_plain]);
        ("global_settings",
         PList [PStr "default_summary_style"; PStr "default_summary_length";
                PStr "default_include_timestamps"])].

(** Only the local file is read. *)
Definition local_only (config : pyval) : Config.sources :=
  stores (Raise JSONDecodeError) (Ok config).

(** No credential is set. *)
Definition env_bare : env_vars :=
  {| OPENAI_API_KEY := None;
     YOUTUBE_API_KEY := Some "";
     TWITTER_API_KEY := Some "k";
     TWITTER_API_SECRET := None;
     TWITTER_ACCESS_TOKEN := Some "t";
     TWITTER_ACCESS_TOKEN_SECRET := Some "ts";
     S3_CONFIG_BUCKET := None;
     S3_CONFIG_KEY := "channels.json";
     DYNAMODB_TABLE := "daily-youtube-digest-videos" |}.

(** The scan answers one page of two ids and fails on the second page. *)
Definition second_page_fails : externals unit :=
  {| youtube_build := fun w => (Ok tt, w);
     youtube_search := fun _ _ _ w => (Ok [video1; video2], w);
     list_transcripts := fun _ w =>
       (Ok {| find_transcript := fun codes w => (english codes, w) |}, w);
     chat_completions_create := fun _ w => (Ok "A short summary.", w);
     tweepy_client := fun w => (Ok tt, w);
     create_tweet := fun _ w => (Ok true, w);
     dynamodb_resource := fun w => (Ok tt, w);
     dynamodb_list_tables := fun w => (Ok ["daily-youtube-digest-videos"], w);
     dynamodb_create_table := fun _ w => (Ok tt, w);
     dynamodb_scan := fun _ w =>
       (MorePages ["9bZkp7q19f0"; "dQw4w9WgXcQ"]
          (ScanFails (ClientError "ProvisionedThroughputExceededException")), w);
     dynamodb_put_item := fun _ _ w => (Ok tt, w);
     utcnow_isoformat := fun w => ("2024-05-01T06:00:00", w);
     published_after_of := fun _ w => (Ok "2024-04-30T06:00:00Z", w);
     py_str := str_of_scalar |}.

(** A store without any table, beside the world of the examples. *)
Definition empty_store : unit * tables := (tt, ∅).

End Cases.

(** * Reasoning about runs *)

Section Runs.

Context {W : Type}.

Lemma wp_run {A} (m : M W A) w o w' l Q :
  m w = (o, w', l) → wp m w Q → Q o w' l.
Proof. unfold wp. by intros ->. Qed.

Lemma wp_mono {A} (m : M W A) w (Q Q' : outcome A -> W -> list event -> Prop) :
  wp m w Q → (∀ o w' l, Q o w' l → Q' o w' l) → wp m w Q'.
Proof. unfold wp. destruct (m w) as [[o w'] l]. auto. Qed.

Lemma wp_ret {A} (a : A) w (Q : outcome A -> W -> list event -> Prop) :
  Q (Ok a) w [] → wp (mret a) w Q.
Proof. done. Qed.

Lemma wp_lift {A} (o : outcome A) w (Q : outcome A -> W -> list event -> Prop) :
  Q o w [] → wp (lift o) w Q.
Proof. done. Qed.

Lemma wp_emit e w (Q : outcome unit -> W -> list event -> Prop) :
  Q (Ok tt) w [e] → wp (emit e) w Q.
Proof. done. Qed.

Lemma wp_io {A} (call : W -> outcome A * W) w (Q : outcome A -> W -> list event -> Prop) :
  (∀ o w', call w = (o, w') → Q o w' []) → wp (io call) w Q.
Proof. unfold wp, io. destruct (call w) as [o w']. auto. Qed.

Lemma wp_bind {A B} (m : M W A) (f : A -> M W B) w
    (Q : outcome B -> W -> list event -> Prop) :
  wp m w (fun o w1 l1 =>
            match o with
            | Ok a => wp (f a) w1 (fun o2 w2 l2 => Q o2 w2 (l1 ++ l2))
            | Raise e => Q (Raise e) w1 l1
            end) →
  wp (m ≫= f) w Q.
Proof.
  unfold wp, mbind, M_bind. destruct (m w) as [[[a|e] w1] l1]; [|done].
  by destruct (f a w1) as [[o2 w2] l2].
Qed.

Lemma wp_try {A} (body : M W A) (handler : exn -> M W A) w
    (Q : outcome A -> W -> list event -> Prop) :
  wp body w (fun o w1 l1 =>
               match o with
               | Ok a => Q (Ok a) w1 l1
               | Raise e => wp (handler e) w1 (fun o2 w2 l2 => Q o2 w2 (l1 ++ l2))
               end) →
  wp (try_except body handler) w Q.
Proof.
  unfold wp, try_except. destruct (body w) as [[[a|e] w1] l1]; [done|].
  by destruct (handler e w1) as [[o2 w2] l2].
Qed.

Lemma safe_emits {A} P (m : M W A) : safe P m → emits P m.
Proof. intros H w. eapply wp_mono; [apply H|]. by intros ? ? ? [_ ?]. Qed.

Lemma emits_ret {A} P (a : A) : emits P (mret a : M W A).
Proof. done. Qed.

Lemma emits_lift {A} P (o : outcome A) : emits P (lift o : M W A).
Proof. done. Qed.

Lemma emits_io {A} P (call : W -> outcome A * W) : emits P (io call).
Proof. intros w. by apply wp_io. Qed.

Lemma emits_emit P e : P e = true → emits P (emit e : M W unit).
Proof. intros H w. apply wp_emit. simpl. by rewrite H. Qed.

Lemma emits_bind {A B} P (m : M W A) (f : A -> M W B) :
  emits P m → (∀ a, emits P (f a)) → emits P (m ≫= f).
Proof.
  intros Hm Hf w. apply wp_bind. eapply wp_mono; [apply Hm|].
  intros [a|e] w1 l1 Hl1; simpl; [|done].
  eapply wp_mono; [apply Hf|]. intros o2 w2 l2 Hl2. simpl in *.
  rewrite forallb_app. by rewrite Hl1, Hl2.
Qed.

Lemma emits_try {A} P (body : M W A) handler :
  emits P body → (∀ e, emits P (handler e)) → emits P (try_except body handler).
Proof.
  intros Hm Hh w. apply wp_try. eapply wp_mono; [apply Hm|].
  intros [a|e] w1 l1 Hl1; simpl; [done|].
  eapply wp_mono; [apply Hh|]. intros o2 w2 l2 Hl2. simpl in *.
  rewrite forallb_app. by rewrite Hl1, Hl2.
Qed.

Lemma safe_ret {A} P (a : A) : safe P (mret a : M W A).
Proof. intros w. apply wp_ret. eauto. Qed.

Lemma safe_bind {A B} P (m : M W A) (f : A -> M W B) :
  safe P m → (∀ a, safe P (f a)) → safe P (m ≫= f).
Proof.
  intros Hm Hf w. apply wp_bind. eapply wp_mono; [apply Hm|].
  intros o w1 l1 [[a ->] Hl1]. eapply wp_mono; [apply Hf|].
  intros o2 w2 l2 [Hok Hl2]. simpl in *. split; [done|].
  rewrite forallb_app. by rewrite Hl1, Hl2.
Qed.

(** A [try] whose handlers all return is safe, whatever its body raises. *)
Lemma safe_try {A} P (body : M W A) handler :
  emits P body → (∀ e, safe P (handler e)) → safe P (try_except body handler).
Proof.
  intros Hm Hh w. apply wp_try. eapply wp_mono; [apply Hm|].
  intros [a|e] w1 l1 Hl1; simpl; [eauto|].
  eapply wp_mono; [apply Hh|]. intros o2 w2 l2 [Hok Hl2]. simpl in *.
  split; [done|]. rewrite forallb_app. by rewrite Hl1, Hl2.
Qed.

Lemma emits_weaken {A} (P P' : event -> bool) (m : M W A) :
  (∀ e, P e = true → P' e = true) → emits P m → emits P' m.
Proof.
  intros HP Hm w. eapply wp_mono; [apply Hm|]. intros ? ? l Hl. simpl in *.
  apply forallb_forall. intros e He. apply HP.
  by apply (proj1 (forallb_forall P l) Hl).
Qed.

Lemma safe_weaken {A} (P P' : event -> bool) (m : M W A) :
  (∀ e, P e = true → P' e = true) → safe P m → safe P' m.
Proof.
  intros HP Hm w. eapply wp_mono; [apply Hm|]. intros o ? l [Hok Hl]. simpl in *.
  split; [done|]. apply forallb_forall. intros e He. apply HP.
  by apply (proj1 (forallb_forall P l) Hl).
Qed.

(** A loop keeps any property of traces that holds of the empty trace, of
    every iteration, and of concatenations. *)
Lemma wp_for_each {A} (R : list event -> Prop) (xs : list A) (body : A -> M W unit) :
  R [] →
  (∀ l1 l2, R l1 → R l2 → R (l1 ++ l2)) →
  (∀ x w, x ∈ xs → wp (body x) w (fun _ _ l => R l)) →
  ∀ w, wp (for_each xs body) w (fun _ _ l => R l).
Proof.
  intros Hnil Happ. induction xs as [|x xs IH]; intros Hbody w; simpl.
  - by apply wp_ret.
  - apply wp_bind. eapply wp_mono; [apply Hbody; left|].
    intros [[]|e] w1 l1 Hl1; simpl; [|done].
    eapply wp_mono; [apply IH|]; [|by auto].
    intros x' w' Hx'. apply Hbody. by right.
Qed.

Lemma silent_nil (l : list event) : forallb no_event l = true → l = [].
Proof. by destruct l. Qed.

End Runs.

(** Structural proof steps for [emits] and [safe] goals. *)
Ltac emits_step :=
  first
    [ apply emits_ret
    | apply emits_lift
    | apply emits_io
    | apply emits_emit; reflexivity
    | apply emits_bind; [|intros ?]
    | apply emits_try; [|intros ?]
    | match goal with
      | |- emits _ (if ?b then _ else _) => destruct b
      | |- emits _ (match ?x with _ => _ end) => destruct x
      end ].

Ltac safe_step :=
  first
    [ apply safe_ret
    | apply safe_bind; [|intros ?]
    | apply safe_try; [repeat emits_step|intros ?]
    | match goal with
      | |- safe _ (if ?b then _ else _) => destruct b
      | |- safe _ (match ?x with _ => _ end) => destruct x
      end ].

(** * The services never raise, and what they leave in the trace *)

Section ServiceFacts.

Context {W : Type} (X : externals W) (env : env_vars).

Lemma get_youtube_client_safe : safe no_event (get_youtube_client X env).
Proof. unfold get_youtube_client. repeat safe_step. Qed.

Lemma get_channel_videos_safe channel_id max_results published_after :
  safe no_event (get_channel_videos X env channel_id max_results published_after).
Proof.
  unfold get_channel_videos. apply safe_bind; [apply get_youtube_client_safe|].
  intros ?. repeat safe_step.
Qed.

Lemma select_transcript_emits transcripts language_code :
  emits no_event (select_transcript (W:=W) transcripts language_code).
Proof. unfold select_transcript. repeat emits_step. Qed.

Lemma get_video_transcript_safe video_id language_code :
  safe no_event (get_video_transcript X video_id language_code).
Proof.
  unfold get_video_transcript. apply safe_try; [|intros ?; apply safe_ret].
  apply emits_bind; [apply emits_io|]. intros ?.
  apply emits_bind; [apply select_transcript_emits|]. intros ?.
  repeat emits_step.
Qed.

Lemma generate_summary_safe transcript style max_length include_timestamps
    video_title channel_name model :
  safe is_chat
    (generate_summary X env transcript style max_length include_timestamps
       video_title channel_name model).
Proof. unfold generate_summary. repeat safe_step. Qed.

Lemma generate_tweet_safe summary video_title video_id channel_name max_length :
  safe is_chat (generate_tweet X env summary video_title video_id channel_name max_length).
Proof. unfold generate_tweet. repeat safe_step. Qed.

Lemma get_twitter_client_safe : safe no_event (get_twitter_client X env).
Proof. unfold get_twitter_client. repeat safe_step. Qed.

Lemma post_to_twitter_safe summary video_id video_title channel_name :
  safe is_sink_io (post_to_twitter X env summary video_id video_title channel_name).
Proof.
  unfold post_to_twitter. apply safe_bind.
  { eapply safe_weaken; [|apply get_twitter_client_safe]. done. }
  intros [c|]; [|apply safe_ret].
  apply safe_try; [|intros ?; apply safe_ret].
  apply emits_bind.
  { eapply emits_weaken; [|apply safe_emits, generate_tweet_safe].
    intros e He. unfold is_sink_io. by rewrite He. }
  intros ?. repeat emits_step.
Qed.

Lemma get_dynamodb_client_safe : safe no_event (get_dynamodb_client X).
Proof. unfold get_dynamodb_client. repeat safe_step. Qed.

Lemma ensure_table_exists_safe : safe no_event (ensure_table_exists X env).
Proof.
  unfold ensure_table_exists. apply safe_bind; [apply get_dynamodb_client_safe|].
  intros ?. repeat safe_step.
Qed.

Lemma get_processed_videos_safe : safe no_event (get_processed_videos X env).
Proof.
  unfold get_processed_videos. apply safe_bind; [apply ensure_table_exists_safe|].
  intros []; simpl; [|apply safe_ret].
  apply safe_try; [|intros ?; apply safe_ret].
  apply emits_bind; [apply safe_emits, get_dynamodb_client_safe|]. intros ?.
  repeat emits_step.
Qed.

Lemma mark_video_as_processed_safe video_id channel_name summary :
  safe is_put (mark_video_as_processed X env video_id channel_name summary).
Proof.
  unfold mark_video_as_processed. apply safe_bind.
  { eapply safe_weaken; [|apply ensure_table_exists_safe]. done. }
  intros []; simpl; [|apply safe_ret].
  apply safe_try; [|intros ?; apply safe_ret].
  apply emits_bind.
  { eapply emits_weaken; [|apply safe_emits, get_dynamodb_client_safe]. done. }
  intros ?. repeat emits_step.
Qed.

End ServiceFacts.

(** * The orchestrator *)

Section ProcessVideo.

Context {W : Type} (X : externals W) (env : env_vars).

Lemma channel_setting_dict config channel_config key default_key r :
  channel_setting config channel_config key default_key = Ok r →
  ∃ d, channel_config = PDict d.
Proof. destruct channel_config; try done. eauto. Qed.

Lemma py_get_dict d key default :
  ∃ flag, py_get (PDict d) key default = Ok flag.
Proof. unfold py_get; simpl. destruct (d !! key); eauto. Qed.

(** Every run of [process_video] is one of the four shapes. *)
Lemma process_video_shape config v channel_config w :
  wp (process_video X env config v channel_config) w
     (fun o _ l => process_video_run config v channel_config o l).
Proof.
  unfold process_video. apply wp_bind.
  eapply wp_mono; [apply get_video_transcript_safe|].
  intros o w1 l1 [[r ->] Hl1]. apply silent_nil in Hl1 as ->.
  apply wp_bind, wp_emit. simpl.
  destruct r as [t|]; [|by apply wp_ret, pv_no_transcript].
  destruct (str_truthy t) eqn:Ht; simpl;
    [|apply wp_ret, pv_no_transcript; simpl; by rewrite Ht].
  apply wp_bind, wp_lift.
  destruct (channel_setting config channel_config "summary_style" _)
    as [style|e] eqn:Hstyle;
    [|apply pv_settings_raise; [done|]; unfold summary_settings; by rewrite Hstyle].
  apply wp_bind, wp_lift.
  destruct (channel_setting config channel_config "summary_length" _)
    as [length|e] eqn:Hlength;
    [|apply pv_settings_raise; [done|]; unfold summary_settings;
      by rewrite Hstyle; simpl; rewrite Hlength].
  apply wp_bind, wp_lift.
  destruct (channel_setting config channel_config "include_timestamps" _)
    as [stamps|e] eqn:Hstamps;
    [|apply pv_settings_raise; [done|]; unfold summary_settings;
      by rewrite Hstyle; simpl; rewrite Hlength; simpl; rewrite Hstamps].
  assert (summary_settings config channel_config = Ok (style, length, stamps)) as Hset.
  { unfold summary_settings.
    by rewrite Hstyle; simpl; rewrite Hlength; simpl; rewrite Hstamps. }
  destruct (channel_setting_dict _ _ _ _ _ Hstyle) as [d ->].
  apply wp_bind. eapply wp_mono; [apply generate_summary_safe|].
  intros o w2 traffic [[r ->] Htraffic].
  apply wp_bind, wp_emit. simpl.
  destruct r as [s|]; [|apply wp_ret; by eapply pv_no_summary].
  destruct (str_truthy s) eqn:Hs; simpl;
    [|apply wp_ret; eapply pv_no_summary; try done; simpl; by rewrite Hs].
  apply wp_bind, wp_lift.
  destruct (py_get_dict d "post_to_twitter" (PBool false)) as [to_twitter Htw].
  rewrite Htw. apply wp_bind.
  apply (wp_mono _ _ (fun o _ l => o = Ok tt ∧ twitter_events (PDict d) s v l)).
  { destruct (truthy to_twitter) eqn:Hflag.
    - apply wp_bind. eapply wp_mono; [apply post_to_twitter_safe|].
      intros o w3 l3 [[posted ->] Hl3]. apply wp_emit. split; [done|].
      exists to_twitter. split; [done|]. rewrite Hflag. eauto.
    - apply wp_ret. split; [done|]. exists to_twitter. by rewrite Hflag. }
  intros o w3 posts [-> Hposts].
  apply wp_bind, wp_lift.
  destruct (py_get_dict d "post_to_blog" (PBool false)) as [to_blog Hbl].
  rewrite Hbl. apply wp_bind.
  apply (wp_mono _ _ (fun o _ l => o = Ok tt ∧ blog_events (PDict d) v l)).
  { destruct (truthy to_blog) eqn:Hflag; [apply wp_emit|apply wp_ret];
      (split; [done|]); exists to_blog; by rewrite Hflag. }
  intros o w4 blog [-> Hblog].
  apply wp_bind. eapply wp_mono; [apply mark_video_as_processed_safe|].
  intros o w5 writes [[marked ->] Hwrites].
  apply wp_bind, wp_emit, wp_ret. simpl.
  by eapply pv_recorded.
Qed.


Lemma forallb_elem (p : event -> bool) l e : forallb p l = true → e ∈ l → p e = true.
Proof.
  intros Hl He. apply (proj1 (forallb_forall p l) Hl). by apply list_elem_of_In.
Qed.

Lemma forallb_impl (p q : event -> bool) l :
  (∀ e, p e = true → q e = true) → forallb p l = true → forallb q l = true.
Proof.
  intros Hpq Hl. apply forallb_forall. intros e He. apply Hpq.
  by apply (proj1 (forallb_forall p l) Hl).
Qed.

Lemma count_app p l1 l2 : count p (l1 ++ l2) = (count p l1 + count p l2)%nat.
Proof. unfold count. by rewrite List.filter_app, length_app. Qed.

Lemma count_none (p q : event -> bool) l :
  (∀ e, q e = true → p e = false) → forallb q l = true → count p l = 0%nat.
Proof.
  intros Hqp. unfold count. induction l as [|e l IH]; simpl; [done|].
  intros [He Hl]%andb_prop. rewrite (Hqp e He). auto.
Qed.

Lemma twitter_events_kinds channel_config s v l :
  twitter_events channel_config s v l →
  forallb (fun e => is_chat e || is_twitter e) l = true.
Proof.
  intros (flag & _ & H). destruct (truthy flag); [|by subst].
  destruct H as (traffic & posted & Htraffic & ->).
  rewrite forallb_app. simpl. rewrite andb_true_r.
  eapply forallb_impl; [|exact Htraffic].
  intros [] ; simpl; try done.
Qed.

Lemma blog_events_kinds channel_config v l :
  blog_events channel_config v l → forallb is_blog l = true.
Proof. intros (flag & _ & ->). by destruct (truthy flag). Qed.

Lemma str_truthy_nonempty s : str_truthy s = true ↔ s ≠ "".
Proof.
  unfold str_truthy. destruct (String.eqb_spec s ""); simpl; split; try done.
Qed.

End ProcessVideo.

(** * Recording and the per-item result *)

Section Recording.

Context {W : Type} (X : externals W) (env : env_vars).

(** A summary call in the trace of [process_video] that returned a
    non-empty text puts the run in its fourth shape. *)
Lemma summarized_run_recorded config v channel_config o l
    t style length stamps video_title channel_name s :
  process_video_run config v channel_config o l →
  GenerateSummary t style length stamps video_title channel_name (Some s) ∈ l →
  s ≠ "" →
  o = Ok true
  ∧ ∃ before marked,
      l = before ++ [MarkVideoAsProcessed (videoId v) (channelTitle v) s marked]
      ∧ count is_mark before = 0%nat
      ∧ GetVideoTranscript (videoId v) (Some t) ∈ before.
Proof.
  intros Hrun Hin Hs. apply str_truthy_nonempty in Hs.
  destruct Hrun as [r Hr|t' e Ht' He|t' st' ln' sp' traffic r Ht' Hset Htraffic Hr
                   |t' st' ln' sp' traffic s' posts blog writes marked
                      Ht' Hset Htraffic Hs' Hposts Hblog Hwrites].
  - apply list_elem_of_singleton in Hin. done.
  - apply list_elem_of_singleton in Hin. done.
  - apply elem_of_cons in Hin as [Hin|Hin]; [done|].
    apply elem_of_app in Hin as [Hin|Hin].
    + by apply (forallb_elem _ _ _ Htraffic) in Hin.
    + apply list_elem_of_singleton in Hin. injection Hin as <- <- <- <- _ _ <-.
      simpl in Hr. congruence.
  - apply twitter_events_kinds in Hposts. apply blog_events_kinds in Hblog.
    assert (s' = s ∧ t' = t) as [-> ->].
    { apply elem_of_cons in Hin as [Hin|Hin]; [done|].
      apply elem_of_app in Hin as [Hin|Hin];
        [by apply (forallb_elem _ _ _ Htraffic) in Hin|].
      apply elem_of_cons in Hin as [Hin|Hin]; [by injection Hin|].
      apply elem_of_app in Hin as [Hin|Hin];
        [by apply (forallb_elem _ _ _ Hposts) in Hin|].
      apply elem_of_app in Hin as [Hin|Hin];
        [by apply (forallb_elem _ _ _ Hblog) in Hin|].
      apply elem_of_app in Hin as [Hin|Hin];
        [by apply (forallb_elem _ _ _ Hwrites) in Hin|].
      by apply list_elem_of_singleton in Hin. }
    split; [done|].
    exists (GetVideoTranscript (videoId v) (Some t)
              :: traffic
              ++ GenerateSummary t st' ln' sp' (title v) (channelTitle v) (Some s)
              :: posts ++ blog ++ writes), marked.
    split; [|split; [|by left]].
    + simpl. f_equal. rewrite <- !app_assoc. simpl. by rewrite <- !app_assoc.
    + change (GetVideoTranscript (videoId v) (Some t) :: ?l)
        with ([GetVideoTranscript (videoId v) (Some t)] ++ l).
      rewrite !count_app.
      change (GenerateSummary t st' ln' sp' (title v) (channelTitle v) (Some s) :: ?l)
        with ([GenerateSummary t st' ln' sp' (title v) (channelTitle v) (Some s)] ++ l).
      rewrite !count_app.
      rewrite (count_none is_mark is_chat _ ltac:(by intros []) Htraffic).
      rewrite (count_none is_mark (fun e => is_chat e || is_twitter e) _
                 ltac:(by intros []) Hposts).
      rewrite (count_none is_mark is_blog _ ltac:(by intros []) Hblog).
      rewrite (count_none is_mark is_put _ ltac:(by intros []) Hwrites).
      done.
Qed.

(** C3 (amended): when the summary call of an item returned a non-empty
    text, the run of [process_video] ends with the one and only
    [mark_video_as_processed] call for that item, after any publish
    attempt and whatever that attempt returned. *)
Theorem summarized_item_recorded_once config v channel_config w o w' l
    t style length stamps video_title channel_name s :
  process_video X env config v channel_config w = (o, w', l) →
  GenerateSummary t style length stamps video_title channel_name (Some s) ∈ l →
  s ≠ "" →
  ∃ before marked,
    l = before ++ [MarkVideoAsProcessed (videoId v) (channelTitle v) s marked]
    ∧ count is_mark before = 0%nat.
Proof.
  intros Hrun Hin Hs.
  pose proof (wp_run _ _ _ _ _ _ Hrun (process_video_shape X env config v channel_config w))
    as Hshape.
  destruct (summarized_run_recorded _ _ _ _ _ _ _ _ _ _ _ _ Hshape Hin Hs)
    as (_ & before & marked & -> & Hcount & _).
  eauto.
Qed.

(** C9 (amended): when the transcript and the summary of a video are both
    non-empty texts, [process_video] returns [True]; the value returned by
    [mark_video_as_processed] plays no part. *)
Theorem process_video_true_whatever_store config v channel_config w o w' l
    t style length stamps video_title channel_name s marked :
  process_video X env config v channel_config w = (o, w', l) →
  GetVideoTranscript (videoId v) (Some t) ∈ l →
  t ≠ "" →
  GenerateSummary t style length stamps video_title channel_name (Some s) ∈ l →
  s ≠ "" →
  MarkVideoAsProcessed (videoId v) (channelTitle v) s marked ∈ l →
  o = Ok true.
Proof.
  intros Hrun _ _ Hin Hs _.
  pose proof (wp_run _ _ _ _ _ _ Hrun (process_video_shape X env config v channel_config w))
    as Hshape.
  by destruct (summarized_run_recorded _ _ _ _ _ _ _ _ _ _ _ _ Hshape Hin Hs).
Qed.

End Recording.

(** * Sinks that are not switched on *)

Section Sinks.

Context {W : Type} (X : externals W) (env : env_vars).

Lemma twitter_events_absent d s v l :
  d !! "post_to_twitter" = None → twitter_events (PDict d) s v l → l = [].
Proof.
  intros Hd (flag & Hflag & H). unfold py_get in Hflag. simpl in Hflag.
  rewrite Hd in Hflag. by injection Hflag as <-.
Qed.

Lemma blog_events_absent d v l :
  d !! "post_to_blog" = None → blog_events (PDict d) v l → l = [].
Proof.
  intros Hd (flag & Hflag & H). unfold py_get in Hflag. simpl in Hflag.
  rewrite Hd in Hflag. by injection Hflag as <-.
Qed.

Lemma run_without_twitter config v d o l :
  d !! "post_to_twitter" = None →
  process_video_run config v (PDict d) o l →
  forallb not_twitter l = true.
Proof.
  intros Hd [r Hr|t e Ht He|t st ln sp traffic r Ht Hset Htraffic Hr
            |t st ln sp traffic s posts blog writes marked
               Ht Hset Htraffic Hs Hposts Hblog Hwrites]; try done.
  - simpl. rewrite forallb_app. simpl.
    by rewrite (forallb_impl is_chat not_twitter _ ltac:(by intros []) Htraffic).
  - apply (twitter_events_absent _ _ _ _ Hd) in Hposts as ->.
    apply blog_events_kinds in Hblog.
    simpl. rewrite forallb_app. simpl. rewrite !forallb_app. simpl.
    rewrite (forallb_impl is_chat not_twitter _ ltac:(by intros []) Htraffic).
    rewrite (forallb_impl is_blog not_twitter _ ltac:(by intros []) Hblog).
    by rewrite (forallb_impl is_put not_twitter _ ltac:(by intros []) Hwrites).
Qed.

Lemma run_without_blog config v d o l :
  d !! "post_to_blog" = None →
  process_video_run config v (PDict d) o l →
  forallb not_blog l = true.
Proof.
  intros Hd [r Hr|t e Ht He|t st ln sp traffic r Ht Hset Htraffic Hr
            |t st ln sp traffic s posts blog writes marked
               Ht Hset Htraffic Hs Hposts Hblog Hwrites]; try done.
  - simpl. rewrite forallb_app. simpl.
    by rewrite (forallb_impl is_chat not_blog _ ltac:(by intros []) Htraffic).
  - apply (blog_events_absent _ _ _ Hd) in Hblog as ->.
    apply twitter_events_kinds in Hposts.
    simpl. rewrite forallb_app. simpl. rewrite !forallb_app. simpl.
    rewrite (forallb_impl is_chat not_blog _ ltac:(by intros []) Htraffic).
    rewrite (forallb_impl (fun e => is_chat e || is_twitter e) not_blog _
               ltac:(by intros []) Hposts).
    by rewrite (forallb_impl is_put not_blog _ ltac:(by intros []) Hwrites).
Qed.

(** A property of the traces of [process_video] on a channel carries over
    to the whole of [process_channel], provided discovery events have it. *)
Lemma process_channel_emits (P : event -> bool) config processed published_after channel :
  (∀ c m p r, P (GetChannelVideos c m p r) = true) →
  (∀ v w, wp (process_video X env config v channel) w
            (fun _ _ l => forallb P l = true)) →
  emits P (process_channel X env config processed published_after channel).
Proof.
  intros Hdisc Hvideo. unfold process_channel.
  apply emits_bind; [apply emits_lift|]. intros channel_id.
  apply emits_bind; [apply emits_lift|]. intros channel_name.
  apply emits_bind; [apply emits_lift|]. intros max_results.
  apply emits_bind.
  { eapply emits_weaken; [|apply safe_emits, get_channel_videos_safe]. done. }
  intros videos. apply emits_bind; [by apply emits_emit|]. intros _.
  assert (∀ vs : list video,
            emits P (for_each vs (process_if_new X env config processed channel)))
    as Hloop.
  { intros vs w.
    apply (wp_for_each (fun l => forallb P l = true)); [done| |].
    - intros l1 l2 H1 H2. rewrite forallb_app. by rewrite H1, H2.
    - intros v w0 _. unfold process_if_new. case_bool_decide; [by apply wp_ret|].
      apply wp_bind. eapply wp_mono; [apply Hvideo|].
      intros [b|e] w1 l1 Hl1; simpl; [|done]. apply wp_ret. by rewrite app_nil_r. }
  destruct videos as [[|v vs]|]; [apply emits_ret|apply Hloop|apply emits_ret].
Qed.

(** C10: a channel entry without [post_to_twitter] gets no publish attempt
    on the microblog for any of its items, and one without [post_to_blog]
    never reaches the blog placeholder. *)
Theorem absent_flag_disables_sink config processed published_after d w o w' l :
  process_channel X env config processed published_after (PDict d) w = (o, w', l) →
  (d !! "post_to_twitter" = None → ∀ e, e ∈ l → is_twitter e = false)
  ∧ (d !! "post_to_blog" = None → ∀ e, e ∈ l → is_blog e = false).
Proof.
  intros Hrun. split; intros Hd e He.
  - assert (forallb not_twitter l = true) as Hl.
    { apply (wp_run _ _ _ _ _ (fun _ _ l => forallb not_twitter l = true) Hrun).
      apply process_channel_emits; [done|]. intros v w0.
      eapply wp_mono; [apply process_video_shape|].
      intros ? ? ?. by apply run_without_twitter. }
    apply (forallb_elem _ _ _ Hl) in He. by apply negb_true_iff in He.
  - assert (forallb not_blog l = true) as Hl.
    { apply (wp_run _ _ _ _ _ (fun _ _ l => forallb not_blog l = true) Hrun).
      apply process_channel_emits; [done|]. intros v w0.
      eapply wp_mono; [apply process_video_shape|].
      intros ? ? ?. by apply run_without_blog. }
    apply (forallb_elem _ _ _ Hl) in He. by apply negb_true_iff in He.
Qed.

End Sinks.

(** * Runs that find nothing new *)

Section Idempotence.

Context {W : Type} (X : externals W) (env : env_vars).

Lemma all_discovered_in_app processed l1 l2 :
  all_discovered_in processed (l1 ++ l2) →
  all_discovered_in processed l1 ∧ all_discovered_in processed l2.
Proof.
  intros H. split; intros c m p vs v Hev Hv;
    (apply (H c m p vs v); [apply elem_of_app; auto|done]).
Qed.

(** Videos whose ids are all in the processed set are skipped one by one:
    the loop over them does nothing at all. *)
Lemma known_videos_skipped config processed channel (videos : list video) w :
  (∀ v, v ∈ videos → videoId v ∈ processed) →
  for_each videos (process_if_new X env config processed channel) w = (Ok tt, w, []).
Proof.
  induction videos as [|v vs IH]; intros Hknown; [done|].
  simpl. unfold mbind, M_bind, process_if_new at 1.
  rewrite bool_decide_eq_true_2 by (apply Hknown; left).
  simpl. rewrite IH; [done|]. intros v' Hv'. apply Hknown. by right.
Qed.

(** One channel of such a run: the discovery call and nothing else. *)
Lemma known_channel_only_read config processed published_after channel w :
  wp (process_channel X env config processed published_after channel) w
     (fun _ _ l => all_discovered_in processed l → forallb is_read l = true).
Proof.
  unfold process_channel.
  apply wp_bind, wp_lift. destruct (py_getitem channel "channel_id") as [cid|]; [|done].
  apply wp_bind, wp_lift. destruct (py_getitem channel "name") as [name|]; [|done].
  apply wp_bind, wp_lift.
  destruct (global_setting config "max_videos_per_channel" (PInt 3)) as [mr|]; [|done].
  apply wp_bind. eapply wp_mono; [apply get_channel_videos_safe|].
  intros o w1 l1 [[videos ->] Hl1]. apply silent_nil in Hl1 as ->.
  apply wp_bind, wp_emit. simpl.
  destruct videos as [[|v vs]|]; [by apply wp_ret| |by apply wp_ret].
  unfold wp.
  destruct (for_each (v :: vs) _ w1) as [[o2 w2] l2] eqn:Hloop.
  intros Hall. rewrite known_videos_skipped in Hloop.
  - by injection Hloop as <- <- <-.
  - intros v' Hv'. eapply Hall; [by left|done].
Qed.

(** C2: in a run whose discovery calls return only items whose ids are in
    the processed set read at the start, every call made is that read or a
    discovery call: no transcript is fetched, nothing is summarized,
    published or recorded. *)
Theorem known_items_are_skipped src w o w' l :
  main X env src w = (o, w', l) →
  (∀ processed, GetProcessedVideos processed ∈ l → all_discovered_in processed l) →
  (∀ e, e ∈ l → is_read e = true)
  ∧ count is_summarize l = 0%nat
  ∧ count is_mark l = 0%nat
  ∧ count is_put l = 0%nat.
Proof.
  intros Hrun Hknown.
  assert (forallb is_read l = true) as Hl.
  { revert Hknown.
    apply (wp_run _ _ _ _ _
             (fun _ _ l =>
                (∀ processed, GetProcessedVideos processed ∈ l →
                              all_discovered_in processed l) →
                forallb is_read l = true) Hrun).
    unfold main. apply wp_bind, wp_lift.
    destruct (Config.load_config env src) as [config|]; [|done].
    apply wp_bind. eapply wp_mono; [apply get_processed_videos_safe|].
    intros o1 w1 l1 [[processed ->] Hl1]. apply silent_nil in Hl1 as ->.
    apply wp_bind, wp_emit. simpl.
    apply wp_bind, wp_lift.
    destruct (global_setting config "days_to_look_back" (PInt 1)) as [days|]; [|done].
    apply wp_bind, wp_io. intros [published_after|] w2 _; [|done].
    apply wp_bind, wp_lift.
    destruct (_ ≫= _) as [channels|]; [|done].
    eapply wp_mono.
    { apply (wp_for_each (fun l => all_discovered_in processed l →
                                   forallb is_read l = true)); [done| |].
      - intros l1 l2 H1 H2 [Ha Hb]%all_discovered_in_app.
        rewrite forallb_app. by rewrite H1, H2.
      - intros channel w3 _. apply known_channel_only_read. }
    intros o3 w3 l3 Hl3 Hall. simpl in *. apply Hl3.
    specialize (Hall processed ltac:(by left)).
    change (GetProcessedVideos processed :: l3)
      with ([GetProcessedVideos processed] ++ l3) in Hall.
    by apply all_discovered_in_app in Hall as [_ ?]. }
  split; [intros e He; by apply (forallb_elem _ _ _ Hl)|].
  split; [|split]; by apply (count_none _ is_read); [intros []|].
Qed.

End Idempotence.

(** * Prompts and payloads *)

Section Strings.

Lemma len_append s1 s2 : len (s1 +:+ s2) = len s1 + len s2.
Proof.
  unfold len. induction s1 as [|a s1 IH]; simpl; [done|].
  rewrite !Nat2Z.inj_succ. lia.
Qed.

Lemma length_substring_0 n s :
  String.length (String.substring 0 n s) = Nat.min n (String.length s).
Proof.
  revert s. induction n as [|n IH]; intros [|a s]; simpl; try done.
  by rewrite IH.
Qed.

Lemma slice_to_nonneg n s :
  0 <= n → slice_to n s = String.substring 0 (Z.to_nat n) s.
Proof. intros Hn. unfold slice_to. by rewrite (proj2 (Z.leb_le 0 n) Hn). Qed.

(** A slice of a longer string has exactly the requested length. *)
Lemma len_slice_to n s : 0 <= n → n <= len s → len (slice_to n s) = n.
Proof.
  intros Hn Hs. rewrite slice_to_nonneg by done. unfold len in *.
  rewrite length_substring_0. lia.
Qed.

(** The length check leaves at most [available] characters. *)
Lemma len_fit_tweet available tweet_content :
  3 <= available → len (fit_tweet available tweet_content) <= available.
Proof.
  intros Ha. unfold fit_tweet. destruct (Z.gtb_spec (len tweet_content) available).
  - rewrite len_append, len_slice_to by lia. change (len "...") with 3. lia.
  - lia.
Qed.

End Strings.

Section OpenAI.

Context {W : Type} (X : externals W) (env : env_vars).

(** What a successful [generate_tweet] went through. *)
Lemma generate_tweet_some summary video_title video_id channel_name max_length
    w w' l payload :
  generate_tweet X env summary video_title video_id channel_name max_length w
    = (Ok (Some payload), w', l) →
  let available := available_length video_id channel_name max_length in
  let req := tweet_request (tweet_prompt X summary video_title channel_name available) in
  50 < available
  ∧ l = [IO_ChatCompletion req]
  ∧ ∃ content,
      chat_completions_create X req w = (Ok content, w')
      ∧ payload = fit_tweet available (strip content) +:+ " "
                    +:+ video_url video_id +:+ attribution channel_name.
Proof.
  unfold generate_tweet. destruct (negb _); [done|].
  unfold try_except.
  destruct (Z.leb_spec (available_length video_id channel_name max_length) 50);
    [done|].
  unfold mbind, M_bind, emit, io. simpl.
  destruct (chat_completions_create X _ w) as [[content|e] w1] eqn:Hcall; simpl; [|done].
  intros [= <- <- <-]. eauto.
Qed.

(** C5: the room left for the generated text is
    [max_length - len(video_url) - len(attribution) - 3]; when that is at
    most 50 the function returns [None] at once, the generative service
    untouched. *)
Theorem tweet_budget_floor summary video_title video_id channel_name max_length w :
  max_length - len ("https://youtu.be/" +:+ video_id) - len (" - " +:+ channel_name) - 3
    <= 50 →
  generate_tweet X env summary video_title video_id channel_name max_length w
    = (Ok None, w, []).
Proof.
  intros Hfloor. unfold generate_tweet. destruct (negb _); [done|].
  unfold try_except, available_length, video_url, attribution.
  by rewrite (proj2 (Z.leb_le _ 50) Hfloor).
Qed.

(** C4: a payload returned for a budget of 280 is the generated text (cut
    to [available - 3] characters and an ellipsis when longer than
    [available]), a space, the URL and the attribution, and is at most 280
    characters long. *)
Theorem tweet_within_budget summary video_title video_id channel_name w w' l payload :
  generate_tweet X env summary video_title video_id channel_name 280 w
    = (Ok (Some payload), w', l) →
  let available := available_length video_id channel_name 280 in
  len payload <= 280
  ∧ ∃ content,
      let body := strip content in
      chat_completions_create X
        (tweet_request (tweet_prompt X summary video_title channel_name available)) w
        = (Ok content, w')
      ∧ payload
        = (if len body >? available
           then String.substring 0 (Z.to_nat (available - 3)) body +:+ "..."
           else body)
          +:+ " " +:+ video_url video_id +:+ attribution channel_name.
Proof.
  intros Hrun available.
  apply generate_tweet_some in Hrun as (Havail & _ & content & Hcall & ->).
  fold available in Havail.
  split.
  - pose proof (len_fit_tweet available (strip content) ltac:(lia)) as Hfit.
    rewrite !len_append. change (len " ") with 1.
    unfold available, available_length in *. lia.
  - exists content. split; [done|]. unfold fit_tweet.
    by rewrite slice_to_nonneg by lia.
Qed.

(** What a run of [generate_summary] leaves in the trace. *)
Lemma generate_summary_trace transcript style max_length include_timestamps
    video_title channel_name model w :
  let composed :=
    summary_prompt X transcript style max_length include_timestamps
      video_title channel_name in
  (generate_summary X env transcript style max_length include_timestamps
     video_title channel_name model w).2
  = if opt_truthy (OPENAI_API_KEY env) && str_truthy transcript
    then [IO_ChatCompletion (summary_request model (dispatched_prompt composed))]
    else [].
Proof.
  unfold generate_summary.
  destruct (opt_truthy _); simpl; [|done].
  destruct (str_truthy _); simpl; [|done].
  unfold try_except, mbind, M_bind, emit, io. simpl.
  by destruct (chat_completions_create X _ w) as [[content|e] w1].
Qed.

(** C6: [generate_summary] dispatches nothing without a key or on an empty
    transcript; otherwise it makes one call of [chat_completions_create],
    and the prompt that call carries is the composed prompt when that has
    at most 16000 characters, and otherwise its first 16000 characters
    (exactly 16000) followed by the truncation marker.  The result is the
    stripped answer to that very request, or [None] when the call fails;
    the trace holds that request and nothing else. *)
Theorem prompt_truncated_to_budget transcript style max_length include_timestamps
    video_title channel_name model w :
  let composed :=
    summary_prompt X transcript style max_length include_timestamps
      video_title channel_name in
  let dispatched :=
    if len composed >? 16000
    then String.substring 0 (Z.to_nat 16000) composed
           +:+ "... [transcript truncated due to length]"
    else composed in
  let req := summary_request model dispatched in
  user_content req = dispatched
  ∧ (16000 < len composed →
     len (String.substring 0 (Z.to_nat 16000) composed) = 16000)
  ∧ generate_summary X env transcript style max_length include_timestamps
      video_title channel_name model w
    = if opt_truthy (OPENAI_API_KEY env) && str_truthy transcript
      then
        match chat_completions_create X req w with
        | (Ok content, w1) => (Ok (Some (strip content)), w1, [IO_ChatCompletion req])
        | (Raise _, w1) => (Ok None, w1, [IO_ChatCompletion req])
        end
      else (Ok None, w, []).
Proof.
  intros composed dispatched req. split; [done|]. split.
  - intros Hlong. unfold len in *. rewrite length_substring_0. lia.
  - unfold generate_summary.
    destruct (opt_truthy _); simpl; [|done].
    destruct (str_truthy _); simpl; [|done].
    unfold try_except, mbind, M_bind, emit, io. simpl.
    change (summary_request model
              (dispatched_prompt
                 (summary_prompt X transcript style max_length include_timestamps
                    video_title channel_name))) with req.
    by destruct (chat_completions_create X req w) as [[content|e] w1].
Qed.

End OpenAI.

(** * Transcripts *)

Section Transcripts.

Context {W : Type} (X : externals W).

Lemma fetched_text_run (t : transcript W) w :
  (transcript_data ← io (fetch t);
   texts ← lift (entry_texts transcript_data);
   mret (Some (join " " texts))) w
  = match fetched_text t w with
    | (Some text, w1) => (Ok (Some text), w1, [])
    | (None, w1) =>
        match fetch t w with
        | (Raise e, _) => (Raise e, w1, [])
        | (Ok transcript_data, _) =>
            match entry_texts transcript_data with
            | Raise e => (Raise e, w1, [])
            | Ok texts => (Ok (Some (join " " texts)), w1, [])
            end
        end
    end.
Proof.
  unfold fetched_text, mbind, M_bind, io, lift.
  destruct (fetch t w) as [[data|e] w1]; [|done].
  by destruct (entry_texts data).
Qed.

(** Once a transcript is selected, the function returns its text. *)
Lemma selected_transcript_text video_id language_code w transcripts w1 t w2 l :
  list_transcripts X video_id w = (Ok transcripts, w1) →
  select_transcript transcripts language_code w1 = (Ok (Some t), w2, l) →
  get_video_transcript X video_id language_code w
  = (Ok (fetched_text t w2).1, (fetched_text t w2).2, l).
Proof.
  intros Hlist Hsel. unfold get_video_transcript, try_except.
  unfold mbind at 1, M_bind at 1, io at 1. rewrite Hlist. simpl.
  unfold mbind at 1, M_bind at 1. rewrite Hsel.
  rewrite fetched_text_run. unfold fetched_text.
  destruct (fetch t w2) as [[data|e] w3]; simpl; [|by rewrite !app_nil_r].
  destruct (entry_texts data); simpl; by rewrite !app_nil_r.
Qed.

(** The paths of [get_video_transcript], for every behaviour of the
    transcript library.  It never raises.  It returns [None] when the
    transcripts cannot be listed.  It looks for a transcript in the
    preferred language first; only on [NoTranscriptFound] does it search
    with an empty list of language codes and translate what that search
    returns, giving [None] if that search or the translation fails.  For
    the transcript so selected it returns the segment texts joined by
    single spaces, or [None] when fetching fails. *)
Lemma get_video_transcript_paths video_id language_code w :
  let result := get_video_transcript X video_id language_code w in
  (∃ r w', result = (Ok r, w', []))
  ∧ (∀ e w1, list_transcripts X video_id w = (Raise e, w1) → result = (Ok None, w1, []))
  ∧ (∀ transcripts w1,
       list_transcripts X video_id w = (Ok transcripts, w1) →
       (∀ t w2,
          find_transcript transcripts [language_code] w1 = (Ok t, w2) →
          result = (Ok (fetched_text t w2).1, (fetched_text t w2).2, []))
       ∧ (∀ e w2,
            find_transcript transcripts [language_code] w1 = (Raise e, w2) →
            e ≠ NoTranscriptFound →
            result = (Ok None, w2, []))
       ∧ (∀ w2,
            find_transcript transcripts [language_code] w1 = (Raise NoTranscriptFound, w2) →
            (∀ e w3,
               find_transcript transcripts [] w2 = (Raise e, w3) →
               result = (Ok None, w3, []))
            ∧ (∀ t0 w3,
                 find_transcript transcripts [] w2 = (Ok t0, w3) →
                 (∀ e w4,
                    translate t0 language_code w3 = (Raise e, w4) →
                    result = (Ok None, w4, []))
                 ∧ (∀ t w4,
                      translate t0 language_code w3 = (Ok t, w4) →
                      result = (Ok (fetched_text t w4).1, (fetched_text t w4).2, []))))).
Proof.
  intros result. split; [|split].
  - pose proof (get_video_transcript_safe X video_id language_code w) as Hsafe.
    unfold wp in Hsafe. fold result in Hsafe.
    destruct result as [[o w'] l]. destruct Hsafe as [[r ->] Hl].
    apply silent_nil in Hl as ->. eauto.
  - intros e w1 Hlist. unfold result, get_video_transcript, try_except.
    unfold mbind at 1, M_bind at 1, io at 1. by rewrite Hlist.
  - intros transcripts w1 Hlist. split; [|split].
    + intros t w2 Hfind. apply (selected_transcript_text _ _ _ _ _ _ _ _ Hlist).
      unfold select_transcript, try_except, mbind, M_bind, io. by rewrite Hfind.
    + intros e w2 Hfind He. unfold result, get_video_transcript, try_except.
      unfold mbind at 1, M_bind at 1, io at 1. rewrite Hlist. simpl.
      unfold mbind at 1, M_bind at 1, select_transcript, try_except.
      unfold mbind at 1, M_bind at 1, io at 1. rewrite Hfind.
      by destruct e.
    + intros w2 Hfind. split.
      * intros e w3 Hany. unfold result, get_video_transcript, try_except.
        unfold mbind at 1, M_bind at 1, io at 1. rewrite Hlist. simpl.
        unfold mbind at 1, M_bind at 1, select_transcript, try_except.
        unfold mbind at 1, M_bind at 1, io at 1. rewrite Hfind.
        unfold mbind at 1, M_bind at 1, io at 1. by rewrite Hany.
      * intros t0 w3 Hany. split.
        -- intros e w4 Htr. unfold result, get_video_transcript, try_except.
           unfold mbind at 1, M_bind at 1, io at 1. rewrite Hlist. simpl.
           unfold mbind at 1, M_bind at 1, select_transcript, try_except.
           unfold mbind at 1, M_bind at 1, io at 1. rewrite Hfind.
           unfold mbind at 1, M_bind at 1, io at 1. rewrite Hany. simpl.
           unfold mbind at 1, M_bind at 1, io at 1. by rewrite Htr.
        -- intros t w4 Htr. apply (selected_transcript_text _ _ _ _ _ _ _ _ Hlist).
           unfold select_transcript, try_except.
           unfold mbind at 1, M_bind at 1, io at 1. rewrite Hfind.
           unfold mbind at 1, M_bind at 1, io at 1. rewrite Hany. simpl.
           unfold mbind at 1, M_bind at 1, io at 1. by rewrite Htr.
Qed.

(** C7 (defect): the fallback for a video without a transcript in the
    preferred language searches with an empty list of language codes.
    Where that search raises [NoTranscriptFound], which is what
    youtube_transcript_api answers to an empty list, the function returns
    [None] whatever transcripts are listed: none is selected and
    [translate] is never called (the world is the one the search left). *)
Theorem translation_fallback_not_reached video_id language_code w transcripts w1 w2 w3 :
  list_transcripts X video_id w = (Ok transcripts, w1) →
  find_transcript transcripts [language_code] w1 = (Raise NoTranscriptFound, w2) →
  find_transcript transcripts [] w2 = (Raise NoTranscriptFound, w3) →
  get_video_transcript X video_id language_code w = (Ok None, w3, []).
Proof.
  intros Hlist Hpreferred Hany.
  destruct (get_video_transcript_paths video_id language_code w) as (_ & _ & Hlisted).
  destruct (Hlisted _ _ Hlist) as (_ & _ & Hmissing).
  destruct (Hmissing _ Hpreferred) as [Hnone _].
  exact (Hnone _ _ Hany).
Qed.

End Transcripts.

(** * Configuration *)

Section Configuration.

Import Config.

Lemma channels_have_fields_spec channels :
  channels_have_fields channels = true → Forall channel_has_fields channels.
Proof.
  induction channels as [|channel rest IH]; simpl; [by constructor|].
  destruct channel as [| | | | | |d]; try done.
  destruct (bool_decide (is_Some (d !! "channel_id"))) eqn:Hid; [|done].
  destruct (bool_decide (is_Some (d !! "name"))) eqn:Hname; [|done].
  simpl. intros Hrest. constructor; [|by apply IH].
  exists d. apply bool_decide_eq_true in Hid, Hname. done.
Qed.

Lemma has_global_settings_spec keys d b :
  has_global_settings keys (PDict d) = Ok b →
  keys ≠ [] →
  ∃ gs, d !! "global_settings" = Some gs
        ∧ (b = true → Forall (fun key => py_contains key gs = Ok true) keys).
Proof.
  induction keys as [|key rest IH]; [done|]. intros Hrun _.
  simpl in Hrun. destruct (d !! "global_settings") as [gs|] eqn:Hgs; [|done].
  simpl in Hrun. exists gs. split; [done|]. intros ->.
  destruct (py_contains key gs) as [[]|] eqn:Hkey; try done. simpl in Hrun.
  constructor; [done|].
  destruct rest as [|key' rest']; [by constructor|].
  destruct (IH Hrun ltac:(done)) as (gs' & [= <-] & Hall). by apply Hall.
Qed.

#[local] Arguments has_global_settings : simpl never.

(** What a successful validation establishes. *)
Lemma validate_config_shape config :
  validate_config config = Ok true → validated_shape config.
Proof.
  unfold validate_config.
  destruct config as [| | | | | |d]; simpl;
    try (repeat match goal with
                | |- context [if ?b then _ else _] => destruct b; simpl
                end; done).
  destruct (negb (bool_decide (d = ∅))); [|done]. simpl.
  destruct (bool_decide (is_Some (d !! "channels"))); [|done]. simpl.
  destruct (bool_decide (is_Some (d !! "global_settings"))); [|done]. simpl.
  destruct (d !! "channels") as [channels|] eqn:Hchannels; [|done]. simpl.
  destruct channels as [| | | | |l|]; try done.
  destruct l as [|channel rest]; [done|]. simpl negb at 1. cbv iota.
  destruct (channels_have_fields (channel :: rest)) eqn:Hfields; [|done].
  simpl negb. cbv iota. intros Hglobal.
  apply has_global_settings_spec in Hglobal as (gs & Hgs & Hall); [|done].
  exists d, (channel :: rest), gs. repeat split; try done.
  - by apply channels_have_fields_spec.
  - by apply Hall.
Qed.

Lemma py_contains_raises key c e : py_contains key c = Raise e → e = TypeError.
Proof. destruct c; simpl; congruence. Qed.

(** Validation raises nothing but [TypeError]. *)
Lemma validate_config_raises config e :
  validate_config config = Raise e → e = TypeError.
Proof.
  unfold validate_config. destruct (truthy config); [|done]. simpl.
  destruct config as [| | | | s|l|d]; simpl; try by intros [= <-].
  - destruct (is_substring "channels" s); simpl; [|done].
    destruct (is_substring "global_settings" s); simpl; [|done]. by intros [= <-].
  - destruct (existsb _ l); simpl; [|done].
    destruct (existsb _ l); simpl; [|done]. by intros [= <-].
  - destruct (bool_decide (is_Some (d !! "channels"))) eqn:Hc; simpl; [|done].
    destruct (bool_decide (is_Some (d !! "global_settings"))) eqn:Hg; simpl; [|done].
    apply bool_decide_eq_true in Hc as [channels Hc], Hg as [gs Hg].
    rewrite Hc. simpl. destruct channels as [| | | | |l|]; try done.
    destruct l as [|channel rest]; [done|]. simpl negb at 1. cbv iota.
    destruct (channels_have_fields _); [|done]. simpl negb. cbv iota.
    unfold required_global_settings, has_global_settings. simpl. rewrite Hg. simpl.
    destruct (py_contains "default_summary_style" gs) as [[]|e1] eqn:H1; simpl;
      [|done|intros [= <-]; by eapply py_contains_raises].
    destruct (py_contains "default_summary_length" gs) as [[]|e2] eqn:H2; simpl;
      [|done|intros [= <-]; by eapply py_contains_raises].
    destruct (py_contains "default_include_timestamps" gs) as [[]|e3] eqn:H3; simpl;
      [done|done|intros [= <-]; by eapply py_contains_raises].
Qed.

Lemma default_config_valid : validate_config default_config = Ok true.
Proof. by vm_compute. Qed.

(** The built-in configuration names exactly one channel. *)
Lemma default_config_one_channel :
  ∃ channel, py_getitem default_config "channels" = Ok (PList [channel])
             ∧ py_getitem channel "channel_id" = Ok (PStr "UC_x5XG1OV2P6uZZ5FSM9Ttw")
             ∧ py_getitem channel "name" = Ok (PStr "Example Channel").
Proof. eexists. split; [by vm_compute|]. split; by vm_compute. Qed.

(** C1 (amended): the remote object is returned when it loads as a
    non-empty value and [validate_config] returns [True] on it; when it
    loads as a non-empty value and [validate_config] returns [False], the
    built-in default is returned and the local file plays no part; the
    local file is consulted only when the remote load fails or gives an
    empty value, and is returned when it is non-empty and
    [validate_config] returns [True] on it; the built-in default is
    returned when the local file gives an empty value or
    [validate_config] returns [False] on it.  When [validate_config]
    raises on the candidate, the exception is [TypeError] and it escapes
    [load_config]: no default is returned then. *)
Theorem load_config_chain st src :
  let remote := load_config_from_s3 st src in
  let local := load_config_from_file src in
  (truthy remote = true →
     (validate_config remote = Ok true → load_config st src = Ok remote)
     ∧ (validate_config remote = Ok false → load_config st src = Ok default_config)
     ∧ (∀ e, validate_config remote = Raise e →
             e = TypeError ∧ load_config st src = Raise TypeError)
     ∧ (∀ src', s3_object src' = s3_object src →
                load_config st src' = load_config st src))
  ∧ (truthy remote = false →
       (truthy local = true → validate_config local = Ok true →
        load_config st src = Ok local)
       ∧ (truthy local = true → validate_config local = Ok false →
          load_config st src = Ok default_config)
       ∧ (truthy local = true →
          ∀ e, validate_config local = Raise e →
               e = TypeError ∧ load_config st src = Raise TypeError)
       ∧ (truthy local = false → load_config st src = Ok default_config)).
Proof.
  intros remote local. unfold load_config. fold remote local. split.
  - intros Hremote. rewrite Hremote. simpl. rewrite Hremote.
    split; [by intros ->|]. split; [by intros ->|]. split.
    + intros e Hraise. pose proof (validate_config_raises _ _ Hraise) as ->.
      by rewrite Hraise.
    + intros src' Hsame. unfold load_config.
      assert (load_config_from_s3 st src' = remote) as ->.
      { unfold remote, load_config_from_s3. by rewrite Hsame. }
      rewrite Hremote. simpl. by rewrite Hremote.
  - intros Hremote. rewrite Hremote. simpl.
    split; [|split; [|split]]; intros Hlocal; rewrite Hlocal;
      [by intros ->|by intros ->| |done].
    intros e Hraise. pose proof (validate_config_raises _ _ Hraise) as ->.
    by rewrite Hraise.
Qed.

(** C8 (amended): [load_config] either raises [TypeError] or returns a
    configuration with the validated shape: a dictionary with a non-empty
    list of channels, each a dictionary holding the keys [channel_id] and
    [name], and the three required names found in [global_settings].  What
    it returns is a loaded candidate that validated, or else the built-in
    default. *)
Theorem load_config_validated st src :
  load_config st src = Raise TypeError
  ∨ ∃ config,
      load_config st src = Ok config
      ∧ validated_shape config
      ∧ (config = default_config
         ∨ (validate_config config = Ok true
            ∧ (config = load_config_from_s3 st src
               ∨ config = load_config_from_file src))).
Proof.
  pose proof (validate_config_shape _ default_config_valid) as Hdefault.
  unfold load_config.
  set (config := if negb (truthy (load_config_from_s3 st src))
                 then load_config_from_file src
                 else load_config_from_s3 st src).
  assert (config = load_config_from_s3 st src ∨ config = load_config_from_file src)
    as Horigin by (unfold config; destruct (negb _); auto).
  destruct (truthy config); [|right; eauto].
  destruct (validate_config config) as [[]|e] eqn:Hvalid; simpl.
  - right. exists config. split; [done|]. split; [by apply validate_config_shape|].
    by right.
  - right; eauto.
  - left. by rewrite (validate_config_raises _ _ Hvalid).
Qed.

End Configuration.

(** * The theorems at work on concrete worlds *)

Section Instances.

Import Config Example.

(** C1, as stated, fails: a remote object that parses but lacks
    [global_settings] sends [load_config] to the built-in default although
    the local file holds a valid configuration. *)
Lemma remote_invalid_bypasses_local :
  load_config env (stores (Ok remote_incomplete) (Ok local_config))
  ≠ Ok (SpecReading.first_valid_candidate env
          (stores (Ok remote_incomplete) (Ok local_config))).
Proof.
  assert (load_config env (stores (Ok remote_incomplete) (Ok local_config))
          = Ok default_config) as -> by (by vm_compute).
  assert (SpecReading.first_valid_candidate env
            (stores (Ok remote_incomplete) (Ok local_config))
          = local_config) as -> by (by vm_compute).
  intros H.
  apply (f_equal (fun o => c ← o;
                           channels ← py_getitem c "channels";
                           match channels with
                           | PList [channel] => py_getitem channel "channel_id"
                           | _ => Raise KeyError
                           end)) in H.
  vm_compute in H. discriminate.
Qed.

Lemma load_config_chain_witness :
  (truthy (load_config_from_s3 env (stores (Ok remote_incomplete) (Ok local_config))) = true
   ∧ validate_config remote_incomplete = Ok false
   ∧ load_config env (stores (Ok remote_incomplete) (Ok local_config))
     = Ok default_config)
  ∧ (truthy (load_config_from_s3 env (stores (Raise JSONDecodeError) (Ok local_config)))
     = false
     ∧ validate_config local_config = Ok true
     ∧ load_config env (stores (Raise JSONDecodeError) (Ok local_config))
       = Ok local_config)
  ∧ (truthy (load_config_from_s3 env (stores (Ok remote_null_settings) (Ok local_config)))
     = true
     ∧ validate_config remote_null_settings = Raise TypeError
     ∧ load_config env (stores (Ok remote_null_settings) (Ok local_config))
       = Raise TypeError).
Proof.
  split; [|split].
  - split; [by vm_compute|]. split; [by vm_compute|].
    destruct (load_config_chain env (stores (Ok remote_incomplete) (Ok local_config)))
      as [Hremote _].
    destruct Hremote as (_ & Hdefault & _); [by vm_compute|].
    apply Hdefault. by vm_compute.
  - split; [by vm_compute|]. split; [by vm_compute|].
    destruct (load_config_chain env (stores (Raise JSONDecodeError) (Ok local_config)))
      as [_ Hlocal].
    destruct Hlocal as (Hvalid & _ & _); [by vm_compute|].
    apply Hvalid; by vm_compute.
  - split; [by vm_compute|]. split; [by vm_compute|].
    destruct (load_config_chain env (stores (Ok remote_null_settings) (Ok local_config)))
      as [Hremote _].
    destruct Hremote as (_ & _ & Hraise & _); [by vm_compute|].
    by destruct (Hraise TypeError ltac:(by vm_compute)).
Defined.

(** C8, as stated, fails: a channel whose id and name are empty strings
    passes validation and is returned. *)
Lemma blank_names_accepted :
  load_config env (stores (Ok config_blank_names) (Ok local_config))
  = Ok config_blank_names
  ∧ SpecReading.resolved_config_invariant config_blank_names = false.
Proof. split; by vm_compute. Qed.

(** C3, as stated, fails: a summary that is the empty string is not [None],
    yet the item is not recorded. *)
Lemma empty_summary_not_recorded :
  let run :=
    process_video (world (summarizing "   ")) env (config_of channel_posting)
      video1 channel_posting tt in
  GenerateSummary "Hello and welcome. Today we talk about proofs."
    (PStr "concise") (PInt 500) (PBool true) "Proofs for everyone" "Rocq Weekly"
    (Some "") ∈ run.2
  ∧ count is_mark run.2 = 0%nat.
Proof.
  split; [|by vm_compute].
  vm_compute. repeat constructor.
Qed.

(** The sink rejects the post; the item is recorded all the same. *)
Lemma summarized_item_recorded_once_witness :
  let run :=
    process_video (world sink_down) env (config_of channel_posting)
      video1 channel_posting tt in
  PostToTwitter "A short summary." "dQw4w9WgXcQ" "Proofs for everyone" "Rocq Weekly" false
    ∈ run.2
  ∧ ∃ before marked,
      run.2 = before ++ [MarkVideoAsProcessed "dQw4w9WgXcQ" "Rocq Weekly"
                           "A short summary." marked]
      ∧ count is_mark before = 0%nat.
Proof.
  split; [vm_compute; repeat constructor|].
  eapply (summarized_item_recorded_once (world sink_down) env (config_of channel_posting)
            video1 channel_posting tt _ _ _
            "Hello and welcome. Today we talk about proofs."
            (PStr "concise") (PInt 500) (PBool true)
            "Proofs for everyone" "Rocq Weekly" "A short summary.").
  - vm_compute. reflexivity.
  - vm_compute. repeat constructor.
  - discriminate.
Defined.

(** C9, as stated, fails: the transcript and the summary are both strings,
    the summary an empty one, and [process_video] returns [False]. *)
Lemma empty_summary_returns_false :
  let run :=
    process_video (world (summarizing "")) env (config_of channel_plain)
      video2 channel_plain tt in
  GetVideoTranscript "9bZkp7q19f0" (Some "Hello and welcome. Today we talk about proofs.")
    ∈ run.2
  ∧ GenerateSummary "Hello and welcome. Today we talk about proofs."
      (PStr "concise") (PInt 500) (PBool true) "Monads in ten minutes" "Rocq Weekly"
      (Some "") ∈ run.2
  ∧ run.1.1 = Ok false.
Proof.
  split; [vm_compute; repeat constructor|]. split; [vm_compute; repeat constructor|by vm_compute].
Qed.

(** The store rejects the write, so [mark_video_as_processed] returns
    [False]; [process_video] returns [True]. *)
Lemma process_video_true_whatever_store_witness :
  let run :=
    process_video (world store_down) env (config_of channel_plain)
      video1 channel_plain tt in
  MarkVideoAsProcessed "dQw4w9WgXcQ" "Rocq Weekly" "A short summary." false ∈ run.2
  ∧ run.1.1 = Ok true.
Proof.
  assert (MarkVideoAsProcessed "dQw4w9WgXcQ" "Rocq Weekly" "A short summary." false
            ∈ (process_video (world store_down) env (config_of channel_plain)
                 video1 channel_plain tt).2) as Hmark
    by (vm_compute; repeat constructor).
  split; [exact Hmark|].
  eapply (process_video_true_whatever_store (world store_down) env
            (config_of channel_plain) video1 channel_plain tt _ _ _
            "Hello and welcome. Today we talk about proofs."
            (PStr "concise") (PInt 500) (PBool true)
            "Proofs for everyone" "Rocq Weekly" "A short summary." false).
  - vm_compute. reflexivity.
  - vm_compute. repeat constructor.
  - discriminate.
  - vm_compute. repeat constructor.
  - discriminate.
  - exact Hmark.
Defined.

(** Two videos are discovered and both are in the store: the run reads
    and stops there. *)
Lemma known_items_are_skipped_witness :
  let run := main (world all_known) env (stores (Raise JSONDecodeError) (Ok local_config)) tt in
  GetChannelVideos (PStr "UC123") (PInt 3) "2024-04-30T06:00:00Z" (Some [video1; video2])
    ∈ run.2
  ∧ (∀ e, e ∈ run.2 → is_read e = true)
  ∧ count is_summarize run.2 = 0%nat
  ∧ count is_mark run.2 = 0%nat
  ∧ count is_put run.2 = 0%nat.
Proof.
  set (src := stores (Raise JSONDecodeError) (Ok local_config)).
  assert (main (world all_known) env src tt
          = (Ok tt, tt,
             [GetProcessedVideos (list_to_set ["9bZkp7q19f0"; "dQw4w9WgXcQ"]);
              GetChannelVideos (PStr "UC123") (PInt 3) "2024-04-30T06:00:00Z"
                (Some [video1; video2])])) as Hrun
    by (vm_compute; reflexivity).
  cbv zeta. rewrite Hrun. cbn [snd]. split; [repeat constructor|].
  apply (known_items_are_skipped (world all_known) env src tt _ _ _ Hrun).
  intros processed Hread c m p videos v Hdisc Hv.
  apply elem_of_cons in Hread as [[= ->]|Hread];
    [|by apply list_elem_of_singleton in Hread].
  apply elem_of_cons in Hdisc as [?|Hdisc]; [done|].
  apply list_elem_of_singleton in Hdisc as [= -> -> -> ->].
  apply elem_of_cons in Hv as [->|Hv];
    [|apply list_elem_of_singleton in Hv as ->];
    apply (bool_decide_unpack _); by vm_compute.
Defined.

(** A channel entry without sink flags: its video is summarized and
    recorded, and nothing goes to the microblog or the blog. *)
Lemma absent_flag_disables_sink_witness :
  let run :=
    process_channel (world (summarizing "A short summary.")) env (config_of channel_plain)
      ∅ "2024-04-30T06:00:00Z" channel_plain tt in
  MarkVideoAsProcessed "dQw4w9WgXcQ" "Rocq Weekly" "A short summary." true ∈ run.2
  ∧ (∀ e, e ∈ run.2 → is_twitter e = false)
  ∧ (∀ e, e ∈ run.2 → is_blog e = false).
Proof.
  split; [vm_compute; repeat constructor|].
  destruct (process_channel (world (summarizing "A short summary.")) env
              (config_of channel_plain) ∅ "2024-04-30T06:00:00Z" channel_plain tt)
    as [[o w'] l] eqn:Hrun.
  destruct (absent_flag_disables_sink _ _ _ _ _ _ _ _ _ _ Hrun) as [Htwitter Hblog].
  split; [apply Htwitter|apply Hblog]; by vm_compute.
Defined.

(** The generative service answers with 300 characters; the payload is cut
    to fit. *)
Lemma tweet_within_budget_witness :
  ∃ payload,
    (generate_tweet (world (verbose 300)) env "A short summary." "Proofs for everyone"
       "dQw4w9WgXcQ" "Rocq Weekly" 280 tt).1.1 = Ok (Some payload)
    ∧ len payload <= 280.
Proof.
  destruct (generate_tweet (world (verbose 300)) env "A short summary."
              "Proofs for everyone" "dQw4w9WgXcQ" "Rocq Weekly" 280 tt)
    as [[o w'] l] eqn:Hrun.
  assert (∃ payload, o = Ok (Some payload)) as [payload ->].
  { vm_compute in Hrun. injection Hrun as <- _ _. eauto. }
  exists payload. split; [done|].
  by destruct (tweet_within_budget _ _ _ _ _ _ _ _ _ _ Hrun).
Defined.

(** A channel name of 200 characters leaves 46 characters: no tweet, no
    request. *)
Lemma tweet_budget_floor_witness :
  280 - len ("https://youtu.be/" +:+ "dQw4w9WgXcQ") - len (" - " +:+ letters 200) - 3 = 46
  ∧ generate_tweet (world (verbose 300)) env "A short summary." "Proofs for everyone"
      "dQw4w9WgXcQ" (letters 200) 280 tt
    = (Ok None, tt, []).
Proof.
  split; [by vm_compute|].
  apply tweet_budget_floor. by vm_compute.
Defined.

(** A transcript of 17000 characters: the request that is dispatched, and
    answered, carries 16000 characters of the prompt and the 40 characters
    of the marker. *)
Lemma prompt_truncated_to_budget_witness :
  ∃ req,
    generate_summary (world (summarizing "A short summary.")) env (letters 17000)
      (PStr "concise") (PInt 500) (PBool true) (Some "Proofs for everyone")
      (Some "Rocq Weekly") "gpt-4-turbo" tt
    = (Ok (Some "A short summary."), tt, [IO_ChatCompletion req])
    ∧ chat_completions_create (world (summarizing "A short summary.")) req tt
      = (Ok "A short summary.", tt)
    ∧ len (user_content req) = 16040.
Proof.
  destruct (prompt_truncated_to_budget (world (summarizing "A short summary.")) env
              (letters 17000) (PStr "concise") (PInt 500) (PBool true)
              (Some "Proofs for everyone") (Some "Rocq Weekly") "gpt-4-turbo" tt)
    as (_ & Hcut & Hrun).
  eexists. split; [|split].
  - rewrite Hrun. reflexivity.
  - reflexivity.
  - assert ((len (summary_prompt (world (summarizing "A short summary.")) (letters 17000)
                    (PStr "concise") (PInt 500) (PBool true) (Some "Proofs for everyone")
                    (Some "Rocq Weekly")) >? 16000) = true) as -> by (by vm_compute).
    cbn [user_content summary_request]. rewrite len_append, Hcut; by vm_compute.
Defined.

(** A German transcript is listed and translates into English, yet the
    function returns [None]: the search with no language code finds
    nothing. *)
Lemma translation_fallback_not_reached_witness :
  german_only ["de"] = Ok translatable
  ∧ translate translatable "en" tt = (Ok (fetched segments), tt)
  ∧ get_video_transcript (world needs_translation) "dQw4w9WgXcQ" "en" tt
    = (Ok None, tt, []).
Proof.
  split; [done|]. split; [done|].
  eapply (translation_fallback_not_reached (world needs_translation) "dQw4w9WgXcQ" "en" tt);
    reflexivity.
Defined.

End Instances.

(** * More on configuration *)

Section ConfigurationMore.

Import Config.

#[local] Arguments has_global_settings : simpl never.

Lemma channels_have_fields_complete channels :
  Forall channel_has_fields channels → channels_have_fields channels = true.
Proof.
  induction 1 as [|channel rest (d & -> & Hid & Hname) _ IH]; [done|].
  simpl. by rewrite !bool_decide_eq_true_2.
Qed.

Lemma has_global_settings_complete keys d gs :
  d !! "global_settings" = Some gs →
  Forall (fun key => py_contains key gs = Ok true) keys →
  has_global_settings keys (PDict d) = Ok true.
Proof.
  intros Hgs. induction 1 as [|key rest Hkey _ IH]; [done|].
  unfold has_global_settings. simpl. rewrite Hgs. simpl. rewrite Hkey. simpl. exact IH.
Qed.

(** X1: [validate_config] returns [True] exactly on the validated shape. *)
Theorem validate_config_iff config :
  validate_config config = Ok true ↔ validated_shape config.
Proof.
  split; [apply validate_config_shape|].
  intros (d & channels & gs & -> & Hchannels & Hne & Hall & Hgs & Hkeys).
  unfold validate_config.
  assert (truthy (PDict d) = true) as ->.
  { simpl. apply negb_true_iff, bool_decide_eq_false. intros ->.
    by rewrite lookup_empty in Hchannels. }
  simpl. rewrite Hchannels, Hgs. simpl.
  destruct channels as [|channel rest]; [done|]. simpl negb at 1. cbv iota.
  rewrite (channels_have_fields_complete _ Hall). simpl negb. cbv iota.
  by apply (has_global_settings_complete _ _ gs).
Qed.


(** X2: A candidate that is a number or [true] is not replaced by the default:
    [validate_config] raises [TypeError] on it and so does [load_config]. *)
Theorem load_config_raises_on_scalar st src :
  let candidate := if truthy (load_config_from_s3 st src)
                   then load_config_from_s3 st src
                   else load_config_from_file src in
  truthy candidate = true →
  (∃ b, candidate = PBool b) ∨ (∃ z, candidate = PInt z) ∨ (∃ f, candidate = PFloat f) →
  validate_config candidate = Raise TypeError
  ∧ load_config st src = Raise TypeError.
Proof.
  intros candidate Htruthy Hscalar.
  assert (validate_config candidate = Raise TypeError) as Hvalid.
  { unfold validate_config. rewrite Htruthy.
    by destruct Hscalar as [[b ->]|[[z ->]|[f ->]]]. }
  split; [done|]. unfold load_config.
  unfold candidate in *.
  destruct (truthy (load_config_from_s3 st src)); simpl; by rewrite Htruthy, Hvalid.
Qed.

(** X3: On a JSON object whose [global_settings], if any, is an object, an array
    or a string, [validate_config] answers [True] or [False]: it raises
    nothing. *)
Theorem validate_config_total_on_objects d :
  (∀ gs, d !! "global_settings" = Some gs →
         (∃ g, gs = PDict g) ∨ (∃ l, gs = PList l) ∨ (∃ s, gs = PStr s)) →
  ∃ b, validate_config (PDict d) = Ok b.
Proof.
  intros Hgs. destruct (validate_config (PDict d)) as [b|e] eqn:Hvalid; [eauto|].
  exfalso. revert Hvalid. unfold validate_config.
  destruct (truthy (PDict d)); [|done]. simpl.
  destruct (d !! "channels") as [channels|]; simpl; [|done].
  destruct (d !! "global_settings") as [gs|] eqn:Hlookup; simpl; [|done].
  destruct channels as [| | | | |l|]; try done.
  destruct (negb (truthy (PList l))); [done|].
  destruct (negb (channels_have_fields l)); [done|].
  unfold has_global_settings, required_global_settings. simpl. rewrite Hlookup. simpl.
  destruct (Hgs gs eq_refl) as [[g ->]|[[l' ->]|[s ->]]]; simpl;
    repeat match goal with
           | |- context [if ?b then _ else _] => destruct b; simpl
           end; done.
Qed.

(** X4: Without a bucket name the remote store is not consulted: the result
    depends on the local file alone. *)
Theorem load_config_without_bucket st src src' :
  opt_truthy (S3_CONFIG_BUCKET st) = false →
  file_exists src' = file_exists src →
  file_json src' = file_json src →
  load_config st src' = load_config st src.
Proof.
  intros Hbucket Hexists Hjson. unfold load_config, load_config_from_s3, load_config_from_file.
  by rewrite Hbucket, Hexists, Hjson.
Qed.

End ConfigurationMore.

(** * The processed-video store *)

Section Store.

Context {W : Type} (X : externals W) (Y : more_externals W) (env : env_vars).

Lemma scan_all_complete pages ids video_ids :
  scanned_ids pages = Some ids →
  scan_all pages video_ids = Ok (video_ids ∪ list_to_set ids).
Proof.
  revert ids video_ids.
  induction pages as [e|page|page next IH]; intros ids video_ids; simpl.
  - done.
  - by intros [= ->].
  - destruct (scanned_ids next) as [rest|]; [|done]. simpl. intros [= <-].
    rewrite (IH rest) by done. f_equal. rewrite list_to_set_app_L.
    by rewrite (assoc_L (∪)).
Qed.

Lemma scan_all_failed pages video_ids :
  scanned_ids pages = None → ∃ e, scan_all pages video_ids = Raise e.
Proof.
  revert video_ids. induction pages as [e|page|page next IH]; intros video_ids; simpl.
  - eauto.
  - done.
  - destruct (scanned_ids next); [done|]. intros _. by apply IH.
Qed.

(** X5: [ensure_table_exists] creates the table only when [list_tables] does not
    name it; it returns [False] when the resource, the listing or the
    creation fails. *)
Theorem ensure_table_exists_paths w :
  let run := ensure_table_exists X env w in
  (∀ e w1, dynamodb_resource X w = (Raise e, w1) → run = (Ok false, w1, []))
  ∧ (∀ w1, dynamodb_resource X w = (Ok tt, w1) →
       (∀ e w2, dynamodb_list_tables X w1 = (Raise e, w2) → run = (Ok false, w2, []))
       ∧ (∀ tables w2,
            dynamodb_list_tables X w1 = (Ok tables, w2) →
            (DYNAMODB_TABLE env ∈ tables → run = (Ok true, w2, []))
            ∧ (DYNAMODB_TABLE env ∉ tables →
               ∀ r w3, dynamodb_create_table X (DYNAMODB_TABLE env) w2 = (r, w3) →
                       run = (Ok (if r is Ok _ then true else false), w3, [])))).
Proof.
  intros run. unfold run, ensure_table_exists, get_dynamodb_client.
  unfold try_except, mbind, M_bind, io.
  split.
  - intros e w1 Hres. by rewrite Hres.
  - intros w1 Hres. rewrite Hres. simpl. split.
    + intros e w2 Hlist. by rewrite Hlist.
    + intros tables w2 Hlist. rewrite Hlist. simpl. split.
      * intros Hin. by rewrite bool_decide_eq_true_2.
      * intros Hnotin r w3 Hcreate.
        rewrite bool_decide_eq_false_2 by done. simpl. rewrite Hcreate.
        by destruct r as [[]|].
Qed.

(** X6: [get_processed_videos] is all or nothing: the ids of every page when the
    whole scan succeeds, the empty set when the table cannot be ensured,
    when the resource cannot be built, or when any page request fails,
    whatever the pages before it held. *)
Theorem processed_videos_all_or_nothing w :
  let run := get_processed_videos X env w in
  (∀ w1, ensure_table_exists X env w = (Ok false, w1, []) → run = (Ok ∅, w1, []))
  ∧ (∀ w1,
       ensure_table_exists X env w = (Ok true, w1, []) →
       (∀ e w2, dynamodb_resource X w1 = (Raise e, w2) → run = (Ok ∅, w2, []))
       ∧ (∀ w2 pages w3,
            dynamodb_resource X w1 = (Ok tt, w2) →
            dynamodb_scan X (DYNAMODB_TABLE env) w2 = (pages, w3) →
            run = (Ok (match scanned_ids pages with
                       | Some ids => list_to_set ids
                       | None => ∅
                       end), w3, []))).
Proof.
  intros run. split; [|intros w1 Hensure; split].
  - intros w1 Hensure. unfold run, get_processed_videos.
    unfold mbind at 1, M_bind at 1. by rewrite Hensure.
  - intros e w2 Hres. unfold run, get_processed_videos.
    unfold mbind at 1, M_bind at 1. rewrite Hensure. simpl.
    unfold get_dynamodb_client, try_except, mbind, M_bind, io, lift. by rewrite Hres.
  - intros w2 pages w3 Hres Hscan. unfold run, get_processed_videos.
    unfold mbind at 1, M_bind at 1. rewrite Hensure. simpl.
    unfold get_dynamodb_client, try_except, mbind, M_bind, io, lift.
    rewrite Hres. simpl. rewrite Hscan. simpl.
    destruct (scanned_ids pages) as [ids|] eqn:Hids.
    + rewrite (scan_all_complete _ _ _ Hids). by rewrite (left_id_L ∅ (∪)).
    + by destruct (scan_all_failed pages ∅ Hids) as [e ->].
Qed.

(** The only thing [mark_video_as_processed] leaves in the trace is the
    write of the record it was given, into the configured table. *)
Lemma mark_video_as_processed_writes video_id channel_name summary :
  safe (is_put_of (DYNAMODB_TABLE env) video_id channel_name summary)
       (mark_video_as_processed X env video_id channel_name summary).
Proof.
  unfold mark_video_as_processed. apply safe_bind.
  { eapply safe_weaken; [|apply ensure_table_exists_safe]. done. }
  intros []; simpl; [|apply safe_ret].
  apply safe_try; [|intros ?; apply safe_ret].
  apply emits_bind.
  { eapply emits_weaken; [|apply safe_emits, get_dynamodb_client_safe]. done. }
  intros ?. apply emits_bind; [apply emits_lift|]. intros _.
  apply emits_bind; [apply emits_io|]. intros timestamp.
  apply emits_bind; [|intros _; repeat emits_step].
  apply emits_emit. simpl. by rewrite !String.eqb_refl.
Qed.

End Store.

(** * The service boundary *)

Section Boundary.

Context {W : Type} (X : externals W) (Y : more_externals W) (env : env_vars).

Lemma get_video_details_safe video_id : safe no_event (get_video_details X Y env video_id).
Proof.
  unfold get_video_details. apply safe_bind; [apply get_youtube_client_safe|].
  intros ?. repeat safe_step.
Qed.

Lemma get_video_summary_safe video_id : safe no_event (get_video_summary X Y env video_id).
Proof.
  unfold get_video_summary. apply safe_bind; [apply ensure_table_exists_safe|].
  intros []; simpl; [|apply safe_ret].
  apply safe_try; [|intros ?; apply safe_ret].
  apply emits_bind; [apply safe_emits, get_dynamodb_client_safe|]. intros ?.
  repeat emits_step.
Qed.

(** X7: No exception raised by an external library escapes a service function:
    each returns its value or its sentinel.  The functions of
    [youtube_service.py] and the readers of [db.py] leave nothing in the
    trace, those of [openai_service.py] only completion requests,
    [post_to_twitter] only completion requests and posts, and
    [mark_video_as_processed] only the write of its own record. *)
Theorem services_never_raise :
  (∀ channel_id max_results published_after,
     safe no_event (get_channel_videos X env channel_id max_results published_after))
  ∧ (∀ video_id language_code,
       safe no_event (get_video_transcript X video_id language_code))
  ∧ (∀ video_id, safe no_event (get_video_details X Y env video_id))
  ∧ (∀ transcript style max_length include_timestamps video_title channel_name model,
       safe is_chat
         (generate_summary X env transcript style max_length include_timestamps
            video_title channel_name model))
  ∧ (∀ summary video_title video_id channel_name max_length,
       safe is_chat
         (generate_tweet X env summary video_title video_id channel_name max_length))
  ∧ (∀ summary video_id video_title channel_name,
       safe is_sink_io (post_to_twitter X env summary video_id video_title channel_name))
  ∧ safe no_event (ensure_table_exists X env)
  ∧ safe no_event (get_processed_videos X env)
  ∧ (∀ video_id channel_name summary,
       safe (is_put_of (DYNAMODB_TABLE env) video_id channel_name summary)
         (mark_video_as_processed X env video_id channel_name summary))
  ∧ (∀ video_id, safe no_event (get_video_summary X Y env video_id)).
Proof.
  repeat split; intros.
  - apply get_channel_videos_safe.
  - apply get_video_transcript_safe.
  - apply get_video_details_safe.
  - apply generate_summary_safe.
  - apply generate_tweet_safe.
  - apply post_to_twitter_safe.
  - apply ensure_table_exists_safe.
  - apply get_processed_videos_safe.
  - apply mark_video_as_processed_writes.
  - apply get_video_summary_safe.
Qed.

(** X8: A service whose credential is not set (or is empty) returns its sentinel
    at once: no library is called, the world is as before, the trace is
    empty.  In particular [post_to_twitter] spends no completion request
    when one of its four credentials is missing, and [generate_summary]
    none on an empty transcript. *)
Theorem missing_credentials_short_circuit w :
  (opt_truthy (YOUTUBE_API_KEY env) = false →
     (∀ channel_id max_results published_after,
        get_channel_videos X env channel_id max_results published_after w
        = (Ok None, w, []))
     ∧ (∀ video_id, get_video_details X Y env video_id w = (Ok None, w, [])))
  ∧ (opt_truthy (OPENAI_API_KEY env) = false →
       (∀ transcript style max_length include_timestamps video_title channel_name model,
          generate_summary X env transcript style max_length include_timestamps
            video_title channel_name model w = (Ok None, w, []))
       ∧ (∀ summary video_title video_id channel_name max_length,
            generate_tweet X env summary video_title video_id channel_name max_length w
            = (Ok None, w, [])))
  ∧ (opt_truthy (TWITTER_API_KEY env) && opt_truthy (TWITTER_API_SECRET env)
     && opt_truthy (TWITTER_ACCESS_TOKEN env)
     && opt_truthy (TWITTER_ACCESS_TOKEN_SECRET env) = false →
     ∀ summary video_id video_title channel_name,
       post_to_twitter X env summary video_id video_title channel_name w
       = (Ok false, w, []))
  ∧ (∀ style max_length include_timestamps video_title channel_name model,
       generate_summary X env "" style max_length include_timestamps
         video_title channel_name model w = (Ok None, w, [])).
Proof.
  split; [|split; [|split]].
  - intros Hkey. split; intros.
    + unfold get_channel_videos, get_youtube_client. by rewrite Hkey.
    + unfold get_video_details, get_youtube_client. by rewrite Hkey.
  - intros Hkey. split; intros.
    + unfold generate_summary. by rewrite Hkey.
    + unfold generate_tweet. by rewrite Hkey.
  - intros Hkeys. intros. unfold post_to_twitter, get_twitter_client. by rewrite Hkeys.
  - intros. unfold generate_summary. by destruct (negb _).
Qed.

End Boundary.

(** * Generated texts *)

Section Stripping.

Lemma rstrip_idempotent s : rstrip (rstrip s) = rstrip s.
Proof.
  induction s as [|a rest IH]; [done|]. simpl.
  destruct (rstrip rest) as [|b r] eqn:Hrest.
  - destruct (is_space a) eqn:Ha; [done|]. simpl. by rewrite Ha.
  - simpl in *. by rewrite IH.
Qed.

Lemma lstrip_head s :
  lstrip s = "" ∨ ∃ a rest, lstrip s = String a rest ∧ is_space a = false.
Proof.
  induction s as [|a rest IH]; [by left|]. simpl.
  destruct (is_space a) eqn:Ha; [done|]. right. eauto.
Qed.

Lemma lstrip_fixed a rest : is_space a = false → lstrip (String a rest) = String a rest.
Proof. intros Ha. simpl. by rewrite Ha. Qed.

(** [strip] has nothing left to remove from its own result. *)
Lemma strip_idempotent s : strip (strip s) = strip s.
Proof.
  unfold strip.
  assert (lstrip (rstrip (lstrip s)) = rstrip (lstrip s)) as ->;
    [|apply rstrip_idempotent].
  destruct (lstrip_head s) as [->|(a & rest & -> & Ha)]; [done|].
  simpl. destruct (rstrip rest); [rewrite Ha|]; by apply lstrip_fixed.
Qed.

End Stripping.

Section Generation.

Context {W : Type} (X : externals W) (env : env_vars).

(** X9: A summary returned by [generate_summary] is the answer of the
    generative service with the surrounding white space removed: it needed
    a key, a non-empty transcript and one successful request, and stripping
    it again changes nothing. *)
Theorem summary_is_stripped transcript style max_length include_timestamps
    video_title channel_name model w w' l s :
  generate_summary X env transcript style max_length include_timestamps
    video_title channel_name model w = (Ok (Some s), w', l) →
  opt_truthy (OPENAI_API_KEY env) = true
  ∧ transcript ≠ ""
  ∧ strip s = s
  ∧ ∃ req content,
      l = [IO_ChatCompletion req]
      ∧ chat_completions_create X req w = (Ok content, w')
      ∧ s = strip content.
Proof.
  unfold generate_summary.
  destruct (opt_truthy (OPENAI_API_KEY env)); simpl; [|done].
  destruct (str_truthy transcript) eqn:Ht; simpl; [|done].
  unfold try_except, mbind, M_bind, emit, io. simpl.
  destruct (chat_completions_create X _ w) as [[content|e] w1] eqn:Hcall; simpl; [|done].
  intros [= <- <- <-]. split; [done|]. split; [by apply str_truthy_nonempty|].
  split; [apply strip_idempotent|]. eauto.
Qed.

Lemma len_generated_tweet summary video_title video_id channel_name max_length
    w w' l payload :
  generate_tweet X env summary video_title video_id channel_name max_length w
    = (Ok (Some payload), w', l) →
  len payload <= max_length - 2 ∧ 73 < max_length ∧ payload ≠ "".
Proof.
  intros Hrun.
  apply generate_tweet_some in Hrun as (Havail & _ & content & _ & ->).
  pose proof (len_fit_tweet (available_length video_id channel_name max_length)
                (strip content) ltac:(lia)) as Hfit.
  assert (∀ s, 0 < len s → s ≠ "") as Hne by (by intros s Hs ->).
  split; [|split; [|apply Hne]]; rewrite ?len_append; change (len " ") with 1;
    unfold available_length, video_url, attribution in *;
    rewrite ?len_append in *;
    change (len "https://youtu.be/") with 17 in *; change (len " - ") with 3 in *;
    unfold len in *; lia.
Qed.

(** X10: For every budget, a payload that [generate_tweet] returns leaves two
    characters of the budget unused at least, and none is returned for a
    budget of 73 characters or less. *)
Theorem tweet_within_any_budget summary video_title video_id channel_name max_length
    w w' l payload :
  generate_tweet X env summary video_title video_id channel_name max_length w
    = (Ok (Some payload), w', l) →
  len payload <= max_length - 2 ∧ 73 < max_length.
Proof.
  intros Hrun.
  by destruct (len_generated_tweet _ _ _ _ _ _ _ _ _ Hrun) as (? & ? & _).
Qed.

(** The trace of [generate_tweet]: nothing, or its one request. *)
Lemma generate_tweet_trace summary video_title video_id channel_name max_length w :
  let l := (generate_tweet X env summary video_title video_id channel_name max_length w).2 in
  l = [] ∨ ∃ req, l = [IO_ChatCompletion req].
Proof.
  unfold generate_tweet. destruct (negb _); [by left|].
  unfold try_except. destruct (_ <=? 50); [by left|].
  unfold mbind, M_bind, emit, io. simpl.
  destruct (chat_completions_create X _ w) as [[content|e] w1]; simpl; eauto.
Qed.

Lemma post_to_twitter_run summary video_id video_title channel_name w o w' l :
  post_to_twitter X env summary video_id video_title channel_name w = (o, w', l) →
  ∃ posted,
    o = Ok posted
    ∧ (l = [] ∨ (∃ req, l = [IO_ChatCompletion req])
       ∨ ∃ req text, l = [IO_ChatCompletion req; IO_CreateTweet text]
                     ∧ len text <= 278 ∧ text ≠ "")
    ∧ (posted = true →
       ∃ req text w1, l = [IO_ChatCompletion req; IO_CreateTweet text]
                      ∧ create_tweet X text w1 = (Ok true, w')).
Proof.
  unfold post_to_twitter. unfold mbind at 1, M_bind at 1.
  pose proof (get_twitter_client_safe X env w) as Hclient. unfold wp in Hclient.
  destruct (get_twitter_client X env w) as [[oc w1] lc].
  destruct Hclient as [[client ->] ->%silent_nil].
  destruct client as [[]|]; simpl;
    [|intros [= <- <- <-]; exists false; split; [done|]; split; [by left|done]].
  unfold try_except. unfold mbind at 1, M_bind at 1.
  pose proof (generate_tweet_safe X env summary video_title video_id channel_name 280 w1)
    as Hsafe.
  pose proof (generate_tweet_trace summary video_title video_id channel_name 280 w1)
    as Htrace.
  unfold wp in Hsafe.
  destruct (generate_tweet X env summary video_title video_id channel_name 280 w1)
    as [[og w2] lg] eqn:Hgen.
  destruct Hsafe as [[tweet ->] _]. simpl in Htrace.
  destruct tweet as [text|]; simpl.
  2:{ intros [= <- <- <-]. exists false. rewrite app_nil_r.
      split; [done|]. split; [|done]. destruct Htrace as [->|[req ->]]; eauto. }
  destruct (len_generated_tweet _ _ _ _ _ _ _ _ _ Hgen) as (Hlen & _ & Hne).
  apply generate_tweet_some in Hgen as (_ & -> & _).
  rewrite (proj2 (str_truthy_nonempty _) Hne). simpl.
  unfold mbind, M_bind, emit, io. simpl.
  destruct (create_tweet X _ w2) as [[[]|e] w3] eqn:Hcreate; simpl;
    intros [= <- <- <-]; eexists; (split; [done|]);
    (split; [right; right; eexists _, _; split; [done|]; split; [lia|done]|]);
    try done.
  intros _. eauto.
Qed.

(** X11: [post_to_twitter] answers [True] or [False].  It sends at most one post,
    of at most 278 characters, after exactly one completion request, and
    answers [True] only when that post was sent and the response carried
    an id. *)
Theorem post_to_twitter_outcomes summary video_id video_title channel_name w o w' l :
  post_to_twitter X env summary video_id video_title channel_name w = (o, w', l) →
  ∃ posted,
    o = Ok posted
    ∧ (l = [] ∨ (∃ req, l = [IO_ChatCompletion req])
       ∨ ∃ req text, l = [IO_ChatCompletion req; IO_CreateTweet text]
                     ∧ len text <= 278 ∧ text ≠ "")
    ∧ (posted = true →
       ∃ req text w1, l = [IO_ChatCompletion req; IO_CreateTweet text]
                      ∧ create_tweet X text w1 = (Ok true, w')).
Proof. apply post_to_twitter_run. Qed.

Lemma post_to_twitter_tweets summary video_id video_title channel_name :
  emits (tweet_within 278) (post_to_twitter X env summary video_id video_title channel_name).
Proof.
  intros w. unfold wp.
  destruct (post_to_twitter X env summary video_id video_title channel_name w)
    as [[o w'] l] eqn:Hrun.
  apply post_to_twitter_run in Hrun
    as (posted & _ & [->|[[req ->]|(req & text & -> & Hlen & Hne)]] & _); try done.
  simpl. rewrite (proj2 (Z.leb_le _ _) Hlen).
  by rewrite (proj2 (str_truthy_nonempty _) Hne).
Qed.

End Generation.

(** * Items that are skipped, items that are recorded *)

Section Skips.

Context {W : Type} (X : externals W) (env : env_vars).

(** X12: A missing or empty transcript ends [process_video] at once: it returns
    [False] and has done nothing but ask for the transcript. *)
Theorem no_transcript_no_work config v channel_config w o w' l video_id r :
  process_video X env config v channel_config w = (o, w', l) →
  GetVideoTranscript video_id r ∈ l →
  opt_truthy r = false →
  o = Ok false ∧ l = [GetVideoTranscript (videoId v) r].
Proof.
  intros Hrun Hin Hr.
  pose proof (wp_run _ _ _ _ _ _ Hrun (process_video_shape X env config v channel_config w))
    as Hshape. simpl in Hshape.
  destruct Hshape as [r' Hr'|t e Ht He|t st ln sp traffic r' Ht Hset Htraffic Hr'
                     |t st ln sp traffic s posts blog writes marked
                        Ht Hset Htraffic Hs Hposts Hblog Hwrites].
  - by apply list_elem_of_singleton in Hin as [= -> ->].
  - apply list_elem_of_singleton in Hin as [= -> ->]. simpl in Hr. congruence.
  - exfalso. apply elem_of_cons in Hin as [[= -> ->]|Hin]; [simpl in Hr; congruence|].
    apply elem_of_app in Hin as [Hin|Hin];
      [by apply (forallb_elem _ _ _ Htraffic) in Hin|].
    by apply list_elem_of_singleton in Hin.
  - exfalso. apply twitter_events_kinds in Hposts. apply blog_events_kinds in Hblog.
    apply elem_of_cons in Hin as [[= -> ->]|Hin]; [simpl in Hr; congruence|].
    apply elem_of_app in Hin as [Hin|Hin];
      [by apply (forallb_elem _ _ _ Htraffic) in Hin|].
    apply elem_of_cons in Hin as [Hin|Hin]; [done|].
    apply elem_of_app in Hin as [Hin|Hin];
      [by apply (forallb_elem _ _ _ Hposts) in Hin|].
    apply elem_of_app in Hin as [Hin|Hin];
      [by apply (forallb_elem _ _ _ Hblog) in Hin|].
    apply elem_of_app in Hin as [Hin|Hin];
      [by apply (forallb_elem _ _ _ Hwrites) in Hin|].
    by apply list_elem_of_singleton in Hin.
Qed.

(** X13: A summary call that returned [None] or an empty text ends
    [process_video]: it returns [False], and nothing was published, written
    or recorded. *)
Theorem failed_summary_not_recorded config v channel_config w o w' l
    t style length stamps video_title channel_name r :
  process_video X env config v channel_config w = (o, w', l) →
  GenerateSummary t style length stamps video_title channel_name r ∈ l →
  opt_truthy r = false →
  o = Ok false
  ∧ ∀ e, e ∈ l → is_mark e = false ∧ is_put e = false
                 ∧ is_twitter e = false ∧ is_blog e = false.
Proof.
  intros Hrun Hin Hr.
  pose proof (wp_run _ _ _ _ _ _ Hrun (process_video_shape X env config v channel_config w))
    as Hshape. simpl in Hshape.
  destruct Hshape as [r' Hr'|t' e Ht He|t' st ln sp traffic r' Ht Hset Htraffic Hr'
                     |t' st ln sp traffic s posts blog writes marked
                        Ht Hset Htraffic Hs Hposts Hblog Hwrites].
  - by apply list_elem_of_singleton in Hin.
  - by apply list_elem_of_singleton in Hin.
  - split; [done|]. intros e He.
    apply elem_of_cons in He as [->|He]; [done|].
    apply elem_of_app in He as [He|He].
    + apply (forallb_elem _ _ _ Htraffic) in He. by destruct e.
    + by apply list_elem_of_singleton in He as ->.
  - exfalso. apply twitter_events_kinds in Hposts. apply blog_events_kinds in Hblog.
    apply elem_of_cons in Hin as [Hin|Hin]; [done|].
    apply elem_of_app in Hin as [Hin|Hin];
      [by apply (forallb_elem _ _ _ Htraffic) in Hin|].
    apply elem_of_cons in Hin as [[= -> -> -> -> -> -> ->]|Hin];
      [simpl in Hr; congruence|].
    apply elem_of_app in Hin as [Hin|Hin];
      [by apply (forallb_elem _ _ _ Hposts) in Hin|].
    apply elem_of_app in Hin as [Hin|Hin];
      [by apply (forallb_elem _ _ _ Hblog) in Hin|].
    apply elem_of_app in Hin as [Hin|Hin];
      [by apply (forallb_elem _ _ _ Hwrites) in Hin|].
    by apply list_elem_of_singleton in Hin.
Qed.

(** X14: A record is only written for the video at hand, with a non-empty summary
    that this very call generated from the transcript it fetched; the call
    then returns [True]. *)
Theorem recorded_summary_was_generated config v channel_config w o w' l
    video_id channel_name s marked :
  process_video X env config v channel_config w = (o, w', l) →
  MarkVideoAsProcessed video_id channel_name s marked ∈ l →
  video_id = videoId v ∧ channel_name = channelTitle v ∧ s ≠ "" ∧ o = Ok true
  ∧ ∃ t style length stamps,
      t ≠ ""
      ∧ GetVideoTranscript (videoId v) (Some t) ∈ l
      ∧ GenerateSummary t style length stamps (title v) (channelTitle v) (Some s) ∈ l.
Proof.
  intros Hrun Hin.
  pose proof (wp_run _ _ _ _ _ _ Hrun (process_video_shape X env config v channel_config w))
    as Hshape. simpl in Hshape.
  destruct Hshape as [r' Hr'|t' e Ht He|t' st ln sp traffic r' Ht Hset Htraffic Hr'
                     |t' st ln sp traffic s' posts blog writes marked'
                        Ht Hset Htraffic Hs Hposts Hblog Hwrites].
  - by apply list_elem_of_singleton in Hin.
  - by apply list_elem_of_singleton in Hin.
  - exfalso. apply elem_of_cons in Hin as [Hin|Hin]; [done|].
    apply elem_of_app in Hin as [Hin|Hin];
      [by apply (forallb_elem _ _ _ Htraffic) in Hin|].
    by apply list_elem_of_singleton in Hin.
  - apply twitter_events_kinds in Hposts. apply blog_events_kinds in Hblog.
    assert (video_id = videoId v ∧ channel_name = channelTitle v ∧ s = s')
      as (-> & -> & ->).
    { apply elem_of_cons in Hin as [Hin|Hin]; [done|].
      apply elem_of_app in Hin as [Hin|Hin];
        [by apply (forallb_elem _ _ _ Htraffic) in Hin|].
      apply elem_of_cons in Hin as [Hin|Hin]; [done|].
      apply elem_of_app in Hin as [Hin|Hin];
        [by apply (forallb_elem _ _ _ Hposts) in Hin|].
      apply elem_of_app in Hin as [Hin|Hin];
        [by apply (forallb_elem _ _ _ Hblog) in Hin|].
      apply elem_of_app in Hin as [Hin|Hin];
        [by apply (forallb_elem _ _ _ Hwrites) in Hin|].
      by apply list_elem_of_singleton in Hin as [= -> -> -> _]. }
    repeat split; try done; [by apply str_truthy_nonempty|].
    exists t', st, ln, sp. split; [by apply str_truthy_nonempty|].
    split; [by left|]. right. apply elem_of_app. right. by left.
Qed.

End Skips.

(** * Whole runs *)

Section WholeRuns.

Context {W : Type} (X : externals W) (env : env_vars).

(** A property of events holds throughout [process_video] when it holds of
    the events [process_video] emits itself and of what the sink and the
    store leave. *)
Lemma process_video_emits (P : event -> bool) config v channel_config :
  (∀ r, P (GetVideoTranscript (videoId v) r) = true) →
  (∀ req, P (IO_ChatCompletion req) = true) →
  (∀ t st ln sp r, P (GenerateSummary t st ln sp (title v) (channelTitle v) r) = true) →
  (∀ s, emits P (post_to_twitter X env s (videoId v) (title v) (channelTitle v))) →
  (∀ s b, P (PostToTwitter s (videoId v) (title v) (channelTitle v) b) = true) →
  P (WouldPostToBlog (videoId v)) = true →
  (∀ s, emits P (mark_video_as_processed X env (videoId v) (channelTitle v) s)) →
  (∀ s b, P (MarkVideoAsProcessed (videoId v) (channelTitle v) s b) = true) →
  emits P (process_video X env config v channel_config).
Proof.
  intros Hfetch Hchat Hsum Hpost Hposted Hblog Hmark Hmarked.
  unfold process_video. apply emits_bind.
  { eapply emits_weaken; [|apply safe_emits, get_video_transcript_safe]. done. }
  intros transcript. apply emits_bind; [by apply emits_emit|]. intros _.
  destruct transcript as [t|]; [|apply emits_ret].
  destruct (negb (str_truthy t)); [apply emits_ret|].
  apply emits_bind; [apply emits_lift|]. intros style.
  apply emits_bind; [apply emits_lift|]. intros length.
  apply emits_bind; [apply emits_lift|]. intros stamps.
  apply emits_bind.
  { eapply emits_weaken; [|apply safe_emits, generate_summary_safe].
    by intros []. }
  intros summary. apply emits_bind; [by apply emits_emit|]. intros _.
  destruct summary as [s|]; [|apply emits_ret].
  destruct (negb (str_truthy s)); [apply emits_ret|].
  apply emits_bind; [apply emits_lift|]. intros to_twitter.
  apply emits_bind.
  { destruct (truthy to_twitter); [|apply emits_ret].
    apply emits_bind; [apply Hpost|]. intros posted. by apply emits_emit. }
  intros _. apply emits_bind; [apply emits_lift|]. intros to_blog.
  apply emits_bind.
  { destruct (truthy to_blog); [by apply emits_emit|apply emits_ret]. }
  intros _. apply emits_bind; [apply Hmark|]. intros marked.
  apply emits_bind; [by apply emits_emit|]. intros _. apply emits_ret.
Qed.

(** Everything [process_video] leaves in the trace is about its video. *)
Lemma process_video_about config v channel_config :
  emits (about (videoId v)) (process_video X env config v channel_config).
Proof.
  apply process_video_emits; try done; intros; unfold about; simpl;
    rewrite ?String.eqb_refl; try done.
  - eapply emits_weaken; [|apply safe_emits, post_to_twitter_safe]. by intros [].
  - eapply emits_weaken; [|apply safe_emits, mark_video_as_processed_writes].
    intros [] He; try done. simpl in *.
    apply andb_prop in He as [[[_ He]%andb_prop _]%andb_prop _]. done.
Qed.

(** The posts [process_video] sends have at most 278 characters. *)
Lemma process_video_tweets config v channel_config :
  emits (tweet_within 278) (process_video X env config v channel_config).
Proof.
  apply process_video_emits; try done; intros.
  - apply post_to_twitter_tweets.
  - eapply emits_weaken; [|apply safe_emits, mark_video_as_processed_safe]. by intros [].
Qed.

(** A property of events that holds of discovery calls and throughout
    [process_video] on every video that is not yet processed holds
    throughout the loop over the channels. *)
Lemma channels_loop_emits (P : event -> bool) config processed published_after channels :
  (∀ c m p r, P (GetChannelVideos c m p r) = true) →
  (∀ channel v, videoId v ∉ processed → emits P (process_video X env config v channel)) →
  emits P (for_each channels (process_channel X env config processed published_after)).
Proof.
  intros Hdisc Hvideo w.
  apply (wp_for_each (fun l => forallb P l = true)); [done| |].
  { intros l1 l2 H1 H2. rewrite forallb_app. by rewrite H1, H2. }
  intros channel w0 _. revert w0. change (emits P (process_channel X env config processed
                                                     published_after channel)).
  unfold process_channel.
  apply emits_bind; [apply emits_lift|]. intros channel_id.
  apply emits_bind; [apply emits_lift|]. intros channel_name.
  apply emits_bind; [apply emits_lift|]. intros max_results.
  apply emits_bind.
  { eapply emits_weaken; [|apply safe_emits, get_channel_videos_safe]. done. }
  intros videos. apply emits_bind; [by apply emits_emit|]. intros _.
  assert (∀ vs : list video,
            emits P (for_each vs (process_if_new X env config processed channel)))
    as Hloop.
  { intros vs w1.
    apply (wp_for_each (fun l => forallb P l = true)); [done| |].
    - intros l1 l2 H1 H2. rewrite forallb_app. by rewrite H1, H2.
    - intros v w2 _. unfold process_if_new. case_bool_decide; [by apply wp_ret|].
      apply wp_bind. eapply wp_mono; [by apply Hvideo|].
      intros [b|e] w3 l3 Hl3; simpl; [|done]. apply wp_ret. by rewrite app_nil_r. }
  destruct videos as [[|v vs]|]; [apply emits_ret|apply Hloop|apply emits_ret].
Qed.

(** The trace of [main] is empty, or starts with the read of the processed
    ids and goes on with events satisfying any property as above; [Φ] is
    what is known of the ids [get_processed_videos] returns from [w]. *)
Lemma main_emits_from (P : gset string -> event -> bool) (Φ : gset string -> Prop) src w :
  wp (get_processed_videos X env) w (fun o _ _ => ∀ processed, o = Ok processed → Φ processed) →
  (∀ processed c m p r, P processed (GetChannelVideos c m p r) = true) →
  (∀ processed config channel v,
     videoId v ∉ processed → emits (P processed) (process_video X env config v channel)) →
  wp (main X env src) w
     (fun _ _ l => l = [] ∨ ∃ processed rest,
                     Φ processed
                     ∧ l = GetProcessedVideos processed :: rest
                     ∧ forallb (P processed) rest = true).
Proof.
  intros Hread Hdisc Hvideo. unfold main. apply wp_bind, wp_lift.
  destruct (Config.load_config env src) as [config|]; [|by left].
  apply wp_bind. unfold wp in Hread.
  pose proof (get_processed_videos_safe X env w) as Hsafe. unfold wp in *.
  destruct (get_processed_videos X env w) as [[o1 w1] l1].
  destruct Hsafe as [[processed ->] Hl1]. apply silent_nil in Hl1 as ->.
  specialize (Hread processed eq_refl).
  change (wp (emit (GetProcessedVideos processed);;
              days_to_look_back ← lift (global_setting config "days_to_look_back" (PInt 1));
              published_after ← io (published_after_of X days_to_look_back);
              channels ← lift (channels ← py_getitem config "channels"; py_iter channels);
              for_each channels (process_channel X env config processed published_after))
             w1
             (fun _ _ l2 => [] ++ l2 = [] ∨ ∃ processed0 rest,
                              Φ processed0
                              ∧ [] ++ l2 = GetProcessedVideos processed0 :: rest
                              ∧ forallb (P processed0) rest = true)).
  apply wp_bind, wp_emit. simpl.
  apply wp_bind, wp_lift.
  destruct (global_setting config "days_to_look_back" (PInt 1)) as [days|];
    [|right; by eexists _, []].
  apply wp_bind, wp_io. intros [published_after|] w2 _; [|right; by eexists _, []].
  apply wp_bind, wp_lift.
  destruct (_ ≫= _) as [channels|]; [|right; by eexists _, []].
  eapply wp_mono.
  { apply (channels_loop_emits (P processed) config processed published_after channels);
      [apply Hdisc|intros; by apply Hvideo]. }
  intros o3 w3 l3 Hl3. simpl. right. eauto.
Qed.

Lemma main_emits (P : gset string -> event -> bool) src w :
  (∀ processed c m p r, P processed (GetChannelVideos c m p r) = true) →
  (∀ processed config channel v,
     videoId v ∉ processed → emits (P processed) (process_video X env config v channel)) →
  wp (main X env src) w
     (fun _ _ l => l = [] ∨ ∃ processed rest,
                     l = GetProcessedVideos processed :: rest
                     ∧ forallb (P processed) rest = true).
Proof.
  intros Hdisc Hvideo.
  eapply wp_mono; [apply (main_emits_from P (fun _ => True)); [|done|done]|].
  - eapply wp_mono; [apply get_processed_videos_safe|]. done.
  - intros o w1 l [->|(processed & rest & _ & -> & Hrest)]; eauto.
Qed.

(** X15: No video whose id is in the processed set read at the start of a run is
    touched in that run: no transcript is asked for it, nothing is
    published, written or recorded for it. *)
Theorem processed_ids_are_never_touched src w o w' l :
  main X env src w = (o, w', l) →
  l = [] ∨ ∃ processed rest,
             l = GetProcessedVideos processed :: rest
             ∧ ∀ e, e ∈ rest → only_new processed e = true.
Proof.
  intros Hrun.
  assert (∀ processed config channel v,
            videoId v ∉ processed →
            emits (only_new processed) (process_video X env config v channel)) as Hvideo.
  { intros processed config channel v Hnew.
    eapply emits_weaken; [|apply process_video_about].
    intros e. unfold about, only_new. destruct (event_video e) as [id|]; [|done].
    intros ->%String.eqb_eq. by rewrite bool_decide_eq_false_2. }
  pose proof (wp_run _ _ _ _ _ _ Hrun
                (main_emits only_new src w ltac:(done) Hvideo)) as Hl.
  simpl in Hl. destruct Hl as [->|(processed & rest & -> & Hrest)]; [by left|].
  right. exists processed, rest. split; [done|].
  intros e He. by apply (forallb_elem _ _ _ Hrest).
Qed.

(** X16: Every post a run sends to the microblog is non-empty and has at most 278
    characters. *)
Theorem posted_tweets_fit src w o w' l text :
  main X env src w = (o, w', l) →
  IO_CreateTweet text ∈ l →
  0 < len text <= 278.
Proof.
  intros Hrun Hin.
  pose proof (wp_run _ _ _ _ _ _ Hrun
                (main_emits (fun _ => tweet_within 278) src w ltac:(done)
                   ltac:(intros; apply process_video_tweets))) as Hl.
  simpl in Hl. destruct Hl as [->|(processed & rest & -> & Hrest)];
    [by apply elem_of_nil in Hin|].
  apply elem_of_cons in Hin as [Hin|Hin]; [done|].
  apply (forallb_elem _ _ _ Hrest) in Hin. simpl in Hin.
  apply andb_prop in Hin as [Hlen%Z.leb_le Hne%str_truthy_nonempty].
  split; [|done]. unfold len in *. destruct text; [done|]. simpl. lia.
Qed.

End WholeRuns.

(** * When a run returns, and in which order it works *)

Section Returning.

Context {W : Type} (X : externals W) (Y : more_externals W) (env : env_vars).






(** X18: A configuration passes validation when its [global_settings] is an array
    or a string in which the three names are found; [main] then stops with
    [AttributeError] right after reading the processed ids, before any
    discovery. *)
Theorem main_raises_without_settings_dict src config gs w :
  Config.load_config env src = Ok config →
  py_getitem config "global_settings" = Ok gs →
  (∀ d, gs ≠ PDict d) →
  ∃ processed w', main X env src w = (Raise AttributeError, w', [GetProcessedVideos processed]).
Proof.
  intros Hload Hgs Hnodict. unfold main.
  unfold mbind at 1, M_bind at 1, lift at 1. rewrite Hload.
  unfold mbind at 1, M_bind at 1.
  pose proof (get_processed_videos_safe X env w) as Hsafe. unfold wp in Hsafe.
  destruct (get_processed_videos X env w) as [[o1 w1] l1].
  destruct Hsafe as [[processed ->] ->%silent_nil].
  exists processed, w1.
  unfold mbind at 1, M_bind at 1, emit at 1.
  unfold mbind at 1, M_bind at 1, lift at 1, global_setting at 1.
  rewrite Hgs. simpl.
  destruct gs; try done. by destruct (Hnodict d).
Qed.

(** X19: [lambda_handler] never raises: it answers 200 when [main] returned and
    500, with the text of the exception, when [main] raised, after the same
    effects as [main]. *)
Theorem lambda_handler_reports src w o w' l :
  main X env src w = (o, w', l) →
  lambda_handler X Y env src w
  = (Ok (match o with
         | Ok _ => response Y 200 "Processing completed successfully"
         | Raise e => response Y 500 ("Error: " +:+ exn_str Y e)
         end), w', l).
Proof.
  intros Hrun. unfold lambda_handler, try_except, mbind, M_bind. rewrite Hrun.
  destruct o; simpl; by rewrite app_nil_r.
Qed.

End Returning.

Section Ordering.

Context {W : Type} (X : externals W) (env : env_vars).

Lemma fetched_ids_app l1 l2 : fetched_ids (l1 ++ l2) = fetched_ids l1 ++ fetched_ids l2.
Proof.
  induction l1 as [|e l1 IH]; [done|]. destruct e; simpl; by rewrite ?IH.
Qed.

Lemma fetched_ids_none (q : event -> bool) l :
  (∀ e, q e = true → fetched_ids [e] = []) → forallb q l = true → fetched_ids l = [].
Proof.
  intros Hq. induction l as [|e l IH]; [done|]. intros [He Hl]%andb_prop.
  change (e :: l) with ([e] ++ l). rewrite fetched_ids_app, (Hq e He). by apply IH.
Qed.

(** One call of [process_video] asks for one transcript: that of its video. *)
Lemma fetched_ids_run config v channel_config o l :
  process_video_run config v channel_config o l → fetched_ids l = [videoId v].
Proof.
  intros [r Hr|t e Ht He|t st ln sp traffic r Ht Hset Htraffic Hr
         |t st ln sp traffic s posts blog writes marked
            Ht Hset Htraffic Hs Hposts Hblog Hwrites]; try done.
  - simpl. rewrite fetched_ids_app. simpl.
    by rewrite (fetched_ids_none is_chat traffic ltac:(by intros []) Htraffic).
  - apply twitter_events_kinds in Hposts. apply blog_events_kinds in Hblog.
    simpl. rewrite fetched_ids_app. simpl. rewrite !fetched_ids_app. simpl.
    rewrite (fetched_ids_none is_chat traffic ltac:(by intros []) Htraffic).
    rewrite (fetched_ids_none (fun e => is_chat e || is_twitter e) posts
               ltac:(by intros []) Hposts).
    rewrite (fetched_ids_none is_blog blog ltac:(by intros []) Hblog).
    by rewrite (fetched_ids_none is_put writes ltac:(by intros []) Hwrites).
Qed.

Lemma videos_loop_order config processed channel (videos : list video) w :
  wp (for_each videos (process_if_new X env config processed channel)) w
     (fun o _ l => fetched_ids l `prefix_of` new_videos processed videos
                   ∧ (o = Ok tt → fetched_ids l = new_videos processed videos)).
Proof.
  revert w. induction videos as [|v vs IH]; intros w; simpl; [by apply wp_ret|].
  unfold new_videos. simpl. fold (new_videos processed vs).
  apply wp_bind. unfold process_if_new at 1. case_bool_decide as Hknown; simpl.
  - apply wp_ret. eapply wp_mono; [apply IH|]. by intros o w1 l1 [Hprefix Heq].
  - apply wp_bind. eapply wp_mono; [apply process_video_shape|].
    intros o w1 l1 Hshape%fetched_ids_run.
    destruct o as [b|e]; simpl.
    + apply wp_ret. rewrite app_nil_r. eapply wp_mono; [apply IH|].
      intros o2 w2 l2 [Hprefix Heq]. simpl. rewrite fetched_ids_app, Hshape. simpl.
      split; [by apply prefix_cons|]. intros Hok. by rewrite Heq.
    + rewrite Hshape. split; [|done]. by apply prefix_cons, prefix_nil.
Qed.

(** X20: Within a channel, transcripts are asked for in discovery order, once for
    each discovered video that is not yet processed and for no other; an
    exception cuts the sequence short, it does not reorder it. *)
Theorem discovery_order_is_kept config processed published_after channel w o w' l :
  process_channel X env config processed published_after channel w = (o, w', l) →
  l = []
  ∨ ∃ channel_id max_results ret rest,
      l = GetChannelVideos channel_id max_results published_after ret :: rest
      ∧ fetched_ids rest `prefix_of` new_videos processed (videos_of ret)
      ∧ (o = Ok tt → fetched_ids rest = new_videos processed (videos_of ret)).
Proof.
  intros Hrun.
  apply (wp_run _ _ _ _ _
           (fun o _ l =>
              l = []
              ∨ ∃ channel_id max_results ret rest,
                  l = GetChannelVideos channel_id max_results published_after ret :: rest
                  ∧ fetched_ids rest `prefix_of` new_videos processed (videos_of ret)
                  ∧ (o = Ok tt → fetched_ids rest = new_videos processed (videos_of ret)))
           Hrun).
  unfold process_channel.
  apply wp_bind, wp_lift. destruct (py_getitem channel "channel_id") as [cid|]; [|by left].
  apply wp_bind, wp_lift. destruct (py_getitem channel "name") as [name|]; [|by left].
  apply wp_bind, wp_lift.
  destruct (global_setting config "max_videos_per_channel" (PInt 3)) as [mr|]; [|by left].
  apply wp_bind. eapply wp_mono; [apply get_channel_videos_safe|].
  intros o1 w1 l1 [[videos ->] Hl1]. apply silent_nil in Hl1 as ->.
  apply wp_bind, wp_emit. simpl.
  destruct videos as [[|v vs]|];
    [apply wp_ret; right; by eexists _, _, _, []
    | |apply wp_ret; right; by eexists _, _, _, []].
  eapply wp_mono; [apply videos_loop_order|].
  intros o2 w2 l2 [Hprefix Heq]. right. by eexists _, _, _, l2.
Qed.

End Ordering.

(** * Runs on a store that works *)

Section StoreRuns.

Context {W0 : Type} (name : string).

Lemma steady_ret {A} (a : A) : steady name (mret a : M (W0 * tables) A).
Proof. intros ws. by apply wp_ret. Qed.

Lemma steady_lift {A} (o : outcome A) : steady name (lift o : M (W0 * tables) A).
Proof. intros ws. by apply wp_lift. Qed.

Lemma steady_emit e : not_mark e = true → steady name (emit e : M (W0 * tables) unit).
Proof. intros He ws. apply wp_emit. simpl. by rewrite He. Qed.

Lemma steady_io {A} (call : W0 * tables -> outcome A * (W0 * tables)) :
  (∀ ws, recorded name ws.2 ⊆ recorded name (call ws).2.2) → steady name (io call).
Proof.
  intros Hcall ws. apply wp_io. intros o ws1 Hrun. split; [|done].
  specialize (Hcall ws). by rewrite Hrun in Hcall.
Qed.

Lemma steady_on_world {A} (call : W0 -> outcome A * W0) : steady name (io (on_world call)).
Proof. apply steady_io. intros [w store]. unfold on_world. simpl. by destruct (call w). Qed.

Lemma steady_bind {A B} (m : M (W0 * tables) A) (f : A -> M (W0 * tables) B) :
  steady name m → (∀ a, steady name (f a)) → steady name (m ≫= f).
Proof.
  intros Hm Hf ws. apply wp_bind. eapply wp_mono; [apply Hm|].
  intros [a|e] ws1 l1 [Hsub Hl1]; simpl; [|done].
  eapply wp_mono; [apply Hf|]. intros o2 ws2 l2 [Hsub2 Hl2]. simpl in *.
  split; [by etrans|]. rewrite forallb_app. by rewrite Hl1, Hl2.
Qed.

Lemma steady_try {A} (body : M (W0 * tables) A) handler :
  steady name body → (∀ e, steady name (handler e)) → steady name (try_except body handler).
Proof.
  intros Hm Hh ws. apply wp_try. eapply wp_mono; [apply Hm|].
  intros [a|e] ws1 l1 [Hsub Hl1]; simpl; [done|].
  eapply wp_mono; [apply Hh|]. intros o2 ws2 l2 [Hsub2 Hl2]. simpl in *.
  split; [by etrans|]. rewrite forallb_app. by rewrite Hl1, Hl2.
Qed.

Lemma steady_grows {A} (m : M (W0 * tables) A) : steady name m → grows name m.
Proof.
  intros Hm ws. eapply wp_mono; [apply Hm|]. intros o ws1 l [Hsub Hl].
  split; [done|]. intros video_id channel_name summary Hin.
  by apply (forallb_elem _ _ _ Hl) in Hin.
Qed.

Lemma grows_bind {A B} (m : M (W0 * tables) A) (f : A -> M (W0 * tables) B) :
  grows name m → (∀ a, grows name (f a)) → grows name (m ≫= f).
Proof.
  intros Hm Hf ws. apply wp_bind. eapply wp_mono; [apply Hm|].
  intros [a|e] ws1 l1 [Hsub Hl1]; simpl; [|done].
  eapply wp_mono; [apply Hf|]. intros o2 ws2 l2 [Hsub2 Hl2]. simpl in *.
  split; [by etrans|]. intros video_id channel_name summary [Hin|Hin]%elem_of_app.
  - apply Hsub2. by eapply Hl1.
  - by eapply Hl2.
Qed.

Lemma grows_for_each {A} (xs : list A) (body : A -> M (W0 * tables) unit) :
  (∀ x, grows name (body x)) → grows name (for_each xs body).
Proof.
  intros Hbody. induction xs as [|x xs IH]; [by apply steady_grows, steady_ret|].
  simpl. apply grows_bind; [apply Hbody|]. by intros _.
Qed.

End StoreRuns.

Ltac steady_step :=
  first
    [ apply steady_ret
    | apply steady_lift
    | apply steady_on_world
    | apply steady_emit; reflexivity
    | apply steady_bind; [|intros ?]
    | apply steady_try; [|intros ?]
    | match goal with
      | |- steady _ (if ?b then _ else _) => destruct b
      | |- steady _ (match ?x with _ => _ end) => destruct x
      end ].

Section WorkingStore.

Context {W0 : Type} (X0 : externals W0) (Y0 : more_externals W0) (env : env_vars).

Notation name := (DYNAMODB_TABLE env).
Notation XS := (with_store X0).
Notation YS := (with_store_more Y0).

Lemma table_of_ensured store : table_of name (ensured name store) = table_of name store.
Proof.
  unfold table_of, ensured. destruct (store !! name) eqn:Hlookup; [by rewrite Hlookup|].
  by rewrite lookup_insert_eq.
Qed.

Lemma ensured_lookup store : ensured name store !! name = Some (table_of name store).
Proof.
  unfold table_of, ensured. destruct (store !! name) eqn:Hlookup; [by rewrite Hlookup|].
  by rewrite lookup_insert_eq.
Qed.

Lemma ensure_table_exists_store ws :
  ensure_table_exists XS env ws = (Ok true, (ws.1, ensured name ws.2), []).
Proof.
  destruct ws as [w store]. unfold ensure_table_exists, get_dynamodb_client.
  unfold mbind, M_bind, try_except, io, mret, M_ret. simpl.
  unfold ensured.
  case_bool_decide as Hin.
  - apply elem_of_elements, elem_of_dom in Hin as [table Htable]. by rewrite Htable.
  - rewrite elem_of_elements, elem_of_dom, <- eq_None_not_Some in Hin. cbn [fst snd]. by rewrite Hin.
Qed.

Lemma get_processed_videos_store ws :
  get_processed_videos XS env ws
  = (Ok (recorded name ws.2), (ws.1, ensured name ws.2), []).
Proof.
  unfold get_processed_videos, mbind, M_bind. rewrite ensure_table_exists_store.
  unfold get_dynamodb_client, try_except, mbind, M_bind, io, lift, mret, M_ret.
  cbn. rewrite ensured_lookup. cbn.
  unfold recorded. by rewrite (left_id_L ∅ (∪)), list_to_set_elements_L.
Qed.

Lemma mark_video_as_processed_store ws video_id channel_name summary :
  let item := {| item_video_id := video_id;
                 item_channel_name := channel_name;
                 item_summary := summary;
                 item_processed_at := (utcnow_isoformat X0 ws.1).1 |} in
  mark_video_as_processed XS env video_id channel_name summary ws
  = (Ok true,
     ((utcnow_isoformat X0 ws.1).2,
      <[name := <[video_id := item]> (table_of name ws.2)]> (ensured name ws.2)),
     [IO_PutItem name item]).
Proof.
  unfold mark_video_as_processed, mbind, M_bind. rewrite ensure_table_exists_store.
  unfold get_dynamodb_client, try_except, mbind, M_bind, io, lift, emit, mret, M_ret.
  cbn. destruct (utcnow_isoformat X0 ws.1) as [now w1]. cbn.
  rewrite ensured_lookup. done.
Qed.

Lemma get_video_summary_store ws video_id :
  get_video_summary XS YS env video_id ws
  = (Ok (table_of name ws.2 !! video_id), (ws.1, ensured name ws.2), []).
Proof.
  unfold get_video_summary, mbind, M_bind. rewrite ensure_table_exists_store.
  unfold get_dynamodb_client, try_except, mbind, M_bind, io, lift, mret, M_ret.
  cbn. rewrite ensured_lookup. cbn. by destruct (table_of name ws.2 !! video_id).
Qed.


(** X21: On a store that works, a recorded video is read back: after
    [mark_video_as_processed], [get_video_summary] returns the item that
    was written, [get_processed_videos] returns the ids it returned before
    and the new one, and the items of the other videos are as they were. *)
Theorem recorded_video_is_read_back ws video_id channel_name summary :
  ∃ ws1 item ids,
    mark_video_as_processed XS env video_id channel_name summary ws
    = (Ok true, ws1, [IO_PutItem name item])
    ∧ item_video_id item = video_id
    ∧ item_channel_name item = channel_name
    ∧ item_summary item = summary
    ∧ (get_video_summary XS YS env video_id ws1).1.1 = Ok (Some item)
    ∧ (get_processed_videos XS env ws).1.1 = Ok ids
    ∧ (get_processed_videos XS env ws1).1.1 = Ok (ids ∪ {[video_id]})
    ∧ ∀ other, other ≠ video_id →
        (get_video_summary XS YS env other ws1).1.1
        = (get_video_summary XS YS env other ws).1.1.
Proof.
  pose proof (mark_video_as_processed_store ws video_id channel_name summary) as Hmark.
  cbv zeta in Hmark. eexists _, _, _. split; [exact Hmark|].
  assert (∀ table : gmap string processed_item,
            table_of name (<[name := table]> (ensured name ws.2)) = table) as Htable.
  { intros table. unfold table_of. by rewrite lookup_insert_eq. }
  do 3 (split; [done|]).
  rewrite !get_video_summary_store, !get_processed_videos_store. cbn [fst snd].
  unfold recorded. rewrite !Htable.
  split; [by rewrite lookup_insert_eq|]. split; [done|].
  split; [by rewrite dom_insert_L, (comm_L (∪))|].
  intros other Hother. rewrite !get_video_summary_store. cbn [fst snd].
  by rewrite Htable, lookup_insert_ne.
Qed.


Lemma get_channel_videos_steady channel_id max_results published_after :
  steady name (get_channel_videos XS env channel_id max_results published_after).
Proof. unfold get_channel_videos, get_youtube_client. repeat steady_step. Qed.

Lemma fetch_lifted_steady (t : transcript W0) :
  steady name (io (fetch (lift_transcript t))).
Proof. destruct t as [tr f]. simpl. apply steady_on_world. Qed.

Lemma translate_lifted_steady (t : transcript W0) language_code ws :
  wp (io (translate (lift_transcript t) language_code)) ws
     (fun o ws1 l =>
        (recorded name ws.2 ⊆ recorded name ws1.2 ∧ forallb not_mark l = true)
        ∧ ∀ t1, o = Ok t1 → steady name (io (fetch t1))).
Proof.
  destruct t as [tr f], ws as [w store]. apply wp_io. simpl. intros o ws1.
  destruct (tr language_code w) as [[t1|e] w1]; intros [= <- <-]; simpl.
  - split; [done|]. intros ? [= <-]. apply fetch_lifted_steady.
  - done.
Qed.

Lemma find_lifted_steady (transcripts : transcript_list W0) language_codes ws :
  wp (io (find_transcript (lift_transcripts transcripts) language_codes)) ws
     (fun o ws1 l =>
        (recorded name ws.2 ⊆ recorded name ws1.2 ∧ forallb not_mark l = true)
        ∧ ∀ t1, o = Ok t1 → ∃ t, t1 = lift_transcript t).
Proof.
  destruct ws as [w store]. apply wp_io. simpl. intros o ws1.
  destruct (find_transcript transcripts language_codes w) as [[t1|e] w1];
    intros [= <- <-]; simpl.
  - split; [done|]. intros ? [= <-]. eauto.
  - done.
Qed.

Lemma select_transcript_steady (transcripts : transcript_list W0) language_code ws :
  wp (select_transcript (lift_transcripts transcripts) language_code) ws
     (fun o ws1 l =>
        (recorded name ws.2 ⊆ recorded name ws1.2 ∧ forallb not_mark l = true)
        ∧ ∀ t1, o = Ok (Some t1) → steady name (io (fetch t1))).
Proof.
  unfold select_transcript. apply wp_try, wp_bind.
  eapply wp_mono; [apply find_lifted_steady|].
  intros [t1|e] ws1 l1 [[Hsub1 Hl1] Hlifted]; simpl.
  - apply wp_ret. rewrite app_nil_r. split; [done|].
    intros ? [= <-]. destruct (Hlifted t1 eq_refl) as [t ->]. apply fetch_lifted_steady.
  - destruct e; try (apply wp_lift; by rewrite app_nil_r).
    apply wp_try, wp_bind. eapply wp_mono; [apply find_lifted_steady|].
    intros [t2|e2] ws2 l2 [[Hsub2 Hl2] Hlifted2]; simpl.
    + destruct (Hlifted2 t2 eq_refl) as [t ->].
      apply wp_bind. eapply wp_mono; [apply translate_lifted_steady|].
      intros [t3|e3] ws3 l3 [[Hsub3 Hl3] Hfetch]; simpl.
      * apply wp_ret. rewrite !app_nil_r, !forallb_app, Hl1, Hl2, Hl3.
        split; [split; [by do 2 etrans|done]|]. intros ? [= <-]. by apply Hfetch.
      * apply wp_ret. rewrite !app_nil_r, !forallb_app, Hl1, Hl2, Hl3.
        split; [split; [by do 2 etrans|done]|]. done.
    + apply wp_ret. rewrite !app_nil_r, !forallb_app, Hl1, Hl2.
      split; [split; [by etrans|done]|]. done.
Qed.

Lemma get_video_transcript_steady video_id language_code :
  steady name (get_video_transcript XS video_id language_code).
Proof.
  assert (∀ ws, wp (io (list_transcripts XS video_id)) ws
                   (fun o ws1 l =>
                      (recorded name ws.2 ⊆ recorded name ws1.2
                       ∧ forallb not_mark l = true)
                      ∧ ∀ tl, o = Ok tl → ∃ transcripts, tl = lift_transcripts transcripts))
    as Hlist.
  { intros [w store]. apply wp_io. simpl. intros o ws1.
    destruct (list_transcripts X0 video_id w) as [[tl|e] w1]; intros [= <- <-]; simpl.
    - split; [done|]. intros ? [= <-]. eauto.
    - done. }
  unfold get_video_transcript. apply steady_try; [|intros ?; apply steady_ret].
  intros ws. apply wp_bind. eapply wp_mono; [apply Hlist|].
  intros [tl|e] ws1 l1 [[Hsub1 Hl1] Hlifted]; simpl; [|done].
  destruct (Hlifted tl eq_refl) as [transcripts ->].
  apply wp_bind. eapply wp_mono; [apply select_transcript_steady|].
  intros [[t|]|e] ws2 l2 [[Hsub2 Hl2] Hfetch]; simpl.
  - assert (steady name (transcript_data ← io (fetch t);
                         texts ← lift (entry_texts transcript_data);
                         (mret (Some (join " " texts)) : M (W0 * tables) _))) as Hrest.
    { apply steady_bind; [by apply Hfetch|]. intros ?. repeat steady_step. }
    eapply wp_mono; [apply Hrest|]. intros o3 ws3 l3 [Hsub3 Hl3]. simpl.
    rewrite !forallb_app, Hl1, Hl2, Hl3. split; [by do 2 etrans|done].
  - apply wp_ret. rewrite !app_nil_r, !forallb_app, Hl1, Hl2. split; [by etrans|done].
  - rewrite !forallb_app, Hl1, Hl2. split; [by etrans|done].
Qed.

Lemma generate_summary_steady transcript style max_length include_timestamps
    video_title channel_name model :
  steady name
    (generate_summary XS env transcript style max_length include_timestamps
       video_title channel_name model).
Proof. unfold generate_summary. repeat steady_step. Qed.

Lemma post_to_twitter_steady summary video_id video_title channel_name :
  steady name (post_to_twitter XS env summary video_id video_title channel_name).
Proof.
  unfold post_to_twitter, get_twitter_client, generate_tweet. repeat steady_step.
Qed.

Lemma recorded_ensured store : recorded name (ensured name store) = recorded name store.
Proof. unfold recorded. by rewrite table_of_ensured. Qed.

Lemma get_processed_videos_steady : steady name (get_processed_videos XS env).
Proof.
  intros ws. unfold wp. rewrite get_processed_videos_store. cbn [snd].
  by rewrite recorded_ensured.
Qed.

(** On the working store a record call succeeds, and the id is recorded
    afterwards. *)
Lemma mark_video_as_processed_records video_id channel_name summary ws :
  wp (mark_video_as_processed XS env video_id channel_name summary) ws
     (fun o ws1 l =>
        o = Ok true
        ∧ recorded name ws.2 ⊆ recorded name ws1.2
        ∧ video_id ∈ recorded name ws1.2
        ∧ forallb not_mark l = true).
Proof.
  unfold wp. rewrite mark_video_as_processed_store. cbn [snd].
  assert (recorded name
            (<[name := <[video_id := {| item_video_id := video_id;
                                         item_channel_name := channel_name;
                                         item_summary := summary;
                                         item_processed_at := (utcnow_isoformat X0 ws.1).1 |}]>
                         (table_of name ws.2)]> (ensured name ws.2))
          = {[video_id]} ∪ recorded name ws.2) as ->.
  { unfold recorded, table_of. rewrite lookup_insert_eq. simpl.
    by rewrite dom_insert_L. }
  split; [done|]. split; [apply union_subseteq_r|].
  split; [apply elem_of_union_l, elem_of_singleton; done|done].
Qed.

Lemma process_video_grows config v channel_config :
  grows name (process_video XS env config v channel_config).
Proof.
  unfold process_video. apply grows_bind.
  { apply steady_grows, get_video_transcript_steady. }
  intros transcript. apply grows_bind; [by apply steady_grows, steady_emit|]. intros _.
  destruct transcript as [t|]; [|apply steady_grows, steady_ret].
  destruct (negb (str_truthy t)); [apply steady_grows, steady_ret|].
  apply grows_bind; [apply steady_grows, steady_lift|]. intros style.
  apply grows_bind; [apply steady_grows, steady_lift|]. intros length.
  apply grows_bind; [apply steady_grows, steady_lift|]. intros stamps.
  apply grows_bind; [apply steady_grows, generate_summary_steady|].
  intros summary. apply grows_bind; [by apply steady_grows, steady_emit|]. intros _.
  destruct summary as [s|]; [|apply steady_grows, steady_ret].
  destruct (negb (str_truthy s)); [apply steady_grows, steady_ret|].
  apply grows_bind; [apply steady_grows, steady_lift|]. intros to_twitter.
  apply grows_bind.
  { apply steady_grows. destruct (truthy to_twitter); [|apply steady_ret].
    apply steady_bind; [apply post_to_twitter_steady|]. intros posted.
    by apply steady_emit. }
  intros _. apply grows_bind; [apply steady_grows, steady_lift|]. intros to_blog.
  apply grows_bind.
  { apply steady_grows. destruct (truthy to_blog); [by apply steady_emit|apply steady_ret]. }
  intros _ ws. apply wp_bind.
  eapply wp_mono; [apply mark_video_as_processed_records|].
  intros o ws1 l1 (-> & Hsub & Hin & Hl1). apply wp_bind, wp_emit. simpl.
  apply wp_ret. split; [done|].
  intros video_id channel_name summary [Hmark|Hmark]%elem_of_app.
  - by apply (forallb_elem _ _ _ Hl1) in Hmark.
  - simpl in Hmark. apply list_elem_of_singleton in Hmark. by injection Hmark as ->.
Qed.

Lemma main_grows src : grows name (main XS env src).
Proof.
  unfold main. apply grows_bind; [apply steady_grows, steady_lift|]. intros config.
  apply grows_bind; [apply steady_grows, get_processed_videos_steady|]. intros processed.
  apply grows_bind; [by apply steady_grows, steady_emit|]. intros _.
  apply grows_bind; [apply steady_grows, steady_lift|]. intros days.
  apply grows_bind; [apply steady_grows, steady_on_world|]. intros published_after.
  apply grows_bind; [apply steady_grows, steady_lift|]. intros channels.
  apply grows_for_each. intros channel. unfold process_channel.
  apply grows_bind; [apply steady_grows, steady_lift|]. intros channel_id.
  apply grows_bind; [apply steady_grows, steady_lift|]. intros channel_name.
  apply grows_bind; [apply steady_grows, steady_lift|]. intros max_results.
  apply grows_bind; [apply steady_grows, get_channel_videos_steady|]. intros videos.
  apply grows_bind; [by apply steady_grows, steady_emit|]. intros _.
  assert (∀ vs : list video,
            grows name (for_each vs (process_if_new XS env config processed channel)))
    as Hloop.
  { intros vs. apply grows_for_each. intros v. unfold process_if_new.
    case_bool_decide; [apply steady_grows, steady_ret|].
    apply grows_bind; [apply process_video_grows|]. intros _.
    apply steady_grows, steady_ret. }
  destruct videos as [[|v vs]|]; [apply steady_grows, steady_ret|apply Hloop|
                                   apply steady_grows, steady_ret].
Qed.

(** X22: On a store that works, what one run records the next run skips: a
    video for which a run reports a successful record call is not touched
    by any later run that starts from the world the first one left: no
    transcript is asked for it, nothing is posted, written or recorded
    for it. *)
Theorem recorded_videos_skipped_next_run src src' ws o ws1 l o' ws2 l'
    video_id channel_name summary :
  main XS env src ws = (o, ws1, l) →
  MarkVideoAsProcessed video_id channel_name summary true ∈ l →
  main XS env src' ws1 = (o', ws2, l') →
  ∀ e, e ∈ l' → event_video e ≠ Some video_id.
Proof.
  intros Hrun Hmark Hnext e He.
  pose proof (wp_run _ _ _ _ _ _ Hrun (main_grows src ws)) as [_ Hrecorded].
  apply Hrecorded in Hmark.
  assert (∀ processed config channel v,
            videoId v ∉ processed →
            emits (only_new processed) (process_video XS env config v channel)) as Hvideo.
  { intros processed config channel v Hnew.
    eapply emits_weaken; [|apply process_video_about].
    intros e0. unfold about, only_new. destruct (event_video e0) as [id|]; [|done].
    intros ->%String.eqb_eq. by rewrite bool_decide_eq_false_2. }
  pose proof (wp_run _ _ _ _ _ _ Hnext
                (main_emits_from XS env only_new (fun p => p = recorded name ws1.2)
                   src' ws1
                   ltac:(unfold wp; rewrite get_processed_videos_store; by intros ? [= <-])
                   ltac:(done) Hvideo)) as Hl.
  simpl in Hl. destruct Hl as [->|(processed & rest & -> & -> & Hrest)];
    [by apply elem_of_nil in He|].
  apply elem_of_cons in He as [->|He]; [done|].
  apply (forallb_elem _ _ _ Hrest) in He. unfold only_new in He.
  destruct (event_video e) as [id|]; [|done].
  intros [= ->]. by rewrite bool_decide_eq_true_2 in He.
Qed.

End WorkingStore.

(** * More concrete runs *)

Section MoreInstances.

Import Config Example Cases.

Lemma run_eta {A B C} (run : A * B * C) : run = (run.1.1, run.1.2, run.2).
Proof. by destruct run as [[? ?] ?]. Qed.

(** The remote object is the number 42. *)
Lemma load_config_raises_on_scalar_witness :
  validate_config (PInt 42) = Raise TypeError
  ∧ load_config env (stores (Ok (PInt 42)) (Ok local_config)) = Raise TypeError.
Proof.
  apply (load_config_raises_on_scalar env (stores (Ok (PInt 42)) (Ok local_config))).
  - by vm_compute.
  - right. left. by exists 42.
Defined.

(** The local configuration of the examples validates without raising. *)
Lemma validate_config_total_on_objects_witness :
  ∃ b, validate_config local_config = Ok b.
Proof.
  apply (validate_config_total_on_objects
           (list_to_map [("channels", PList [channel_plain]);
                         ("global_settings", global_settings)])).
  intros gs Hgs. left. vm_compute in Hgs. injection Hgs as <-. by eexists.
Defined.

(** No bucket is named: an incomplete remote object and an unreachable
    one give the same result. *)
Lemma load_config_without_bucket_witness :
  load_config env_local (stores (Ok remote_incomplete) (Ok local_config))
  = load_config env_local (stores (Raise OSError) (Ok local_config)).
Proof. by apply load_config_without_bucket. Defined.

(** The store has no table yet: [ensure_table_exists] creates it. *)
Lemma ensure_table_exists_paths_witness :
  ensure_table_exists (with_store (world all_known)) env empty_store
  = (Ok true, (tt, {["daily-youtube-digest-videos" := ∅]}), []).
Proof.
  destruct (ensure_table_exists_paths (with_store (world all_known)) env empty_store)
    as [_ Hresource].
  destruct (Hresource empty_store eq_refl) as [_ Hlist].
  destruct (Hlist [] empty_store ltac:(by vm_compute)) as [_ Hcreate].
  apply (Hcreate ltac:(apply not_elem_of_nil) (Ok tt)). by vm_compute.
Defined.

(** The second page of the scan fails: the two ids of the first page are
    lost, the result is the empty set. *)
Lemma processed_videos_all_or_nothing_witness :
  get_processed_videos second_page_fails env tt = (Ok ∅, tt, []).
Proof.
  destruct (processed_videos_all_or_nothing second_page_fails env tt) as [_ Hensured].
  destruct (Hensured tt ltac:(by vm_compute)) as [_ Hscan].
  apply (Hscan tt (MorePages ["9bZkp7q19f0"; "dQw4w9WgXcQ"]
                     (ScanFails (ClientError "ProvisionedThroughputExceededException")))
           tt eq_refl eq_refl).
Defined.

(** No credential is set: nothing is asked of any service. *)
Lemma missing_credentials_short_circuit_witness :
  get_channel_videos (world all_known) env_bare (PStr "UC123") (PInt 3) None tt
  = (Ok None, tt, [])
  ∧ generate_summary (world all_known) env_bare "Hello and welcome." (PStr "concise")
      (PInt 500) (PBool true) None None "gpt-4-turbo" tt
    = (Ok None, tt, [])
  ∧ post_to_twitter (world all_known) env_bare "A short summary." "dQw4w9WgXcQ"
      "Proofs for everyone" "Rocq Weekly" tt
    = (Ok false, tt, []).
Proof.
  destruct (missing_credentials_short_circuit (world all_known) more env_bare tt)
    as (Hyoutube & Hopenai & Htwitter & _).
  split; [by apply Hyoutube|]. split; [by apply Hopenai|by apply Htwitter].
Defined.

(** The generative service pads its answer with blanks. *)
Lemma summary_is_stripped_witness :
  ∃ s,
    (generate_summary (world (summarizing "  A short summary.  ")) env
       "Hello and welcome." (PStr "concise") (PInt 500) (PBool true)
       (Some "Proofs for everyone") (Some "Rocq Weekly") "gpt-4-turbo" tt).1.1
    = Ok (Some s)
    ∧ s = "A short summary."
    ∧ strip s = s.
Proof.
  destruct (generate_summary (world (summarizing "  A short summary.  ")) env
              "Hello and welcome." (PStr "concise") (PInt 500) (PBool true)
              (Some "Proofs for everyone") (Some "Rocq Weekly") "gpt-4-turbo" tt)
    as [[o w'] l] eqn:Hrun.
  assert (o = Ok (Some "A short summary.")) as ->.
  { vm_compute in Hrun. by injection Hrun as <- _ _. }
  exists "A short summary.". split; [done|]. split; [done|].
  by destruct (summary_is_stripped _ _ _ _ _ _ _ _ _ _ _ _ _ Hrun) as (_ & _ & Hstrip & _).
Defined.

(** A budget of 140 characters and an answer of 300: the payload has at
    most 138. *)
Lemma tweet_within_any_budget_witness :
  ∃ payload,
    (generate_tweet (world (verbose 300)) env "A short summary." "Proofs for everyone"
       "dQw4w9WgXcQ" "Rocq Weekly" 140 tt).1.1 = Ok (Some payload)
    ∧ len payload <= 138.
Proof.
  destruct (generate_tweet (world (verbose 300)) env "A short summary."
              "Proofs for everyone" "dQw4w9WgXcQ" "Rocq Weekly" 140 tt)
    as [[o w'] l] eqn:Hrun.
  assert (∃ payload, o = Ok (Some payload)) as [payload ->].
  { vm_compute in Hrun. injection Hrun as <- _ _. eauto. }
  exists payload. split; [done|].
  by destruct (tweet_within_any_budget _ _ _ _ _ _ _ _ _ _ _ Hrun).
Defined.

(** The sink rejects the post: [post_to_twitter] answers [False] after one
    completion request and one post. *)
Lemma post_to_twitter_outcomes_witness :
  let run :=
    post_to_twitter (world sink_down) env "A short summary." "dQw4w9WgXcQ"
      "Proofs for everyone" "Rocq Weekly" tt in
  run.1.1 = Ok false
  ∧ (run.2 = [] ∨ (∃ req, run.2 = [IO_ChatCompletion req])
     ∨ ∃ req text, run.2 = [IO_ChatCompletion req; IO_CreateTweet text]
                   ∧ len text <= 278 ∧ text ≠ "").
Proof.
  cbv zeta.
  destruct (post_to_twitter (world sink_down) env "A short summary." "dQw4w9WgXcQ"
              "Proofs for everyone" "Rocq Weekly" tt) as [[o w'] l] eqn:Hrun.
  destruct (post_to_twitter_outcomes _ _ _ _ _ _ _ _ _ _ Hrun) as (posted & -> & Hl & _).
  split; [|exact Hl]. vm_compute in Hrun. by injection Hrun as <- _ _.
Defined.

(** Captions are switched off: [process_video] asks for the transcript and
    stops. *)
Lemma no_transcript_no_work_witness :
  let run :=
    process_video (world no_captions) env (config_of channel_posting)
      video1 channel_posting tt in
  run.1.1 = Ok false ∧ run.2 = [GetVideoTranscript "dQw4w9WgXcQ" None].
Proof.
  eapply (no_transcript_no_work (world no_captions) env (config_of channel_posting)
            video1 channel_posting tt _ _ _ "dQw4w9WgXcQ" None).
  - vm_compute. reflexivity.
  - vm_compute. repeat constructor.
  - reflexivity.
Defined.

(** The generative service answers with blanks only: nothing is posted or
    recorded, although the channel posts to the microblog. *)
Lemma failed_summary_not_recorded_witness :
  let run :=
    process_video (world (summarizing "   ")) env (config_of channel_posting)
      video1 channel_posting tt in
  run.1.1 = Ok false
  ∧ ∀ e, e ∈ run.2 → is_mark e = false ∧ is_put e = false
                     ∧ is_twitter e = false ∧ is_blog e = false.
Proof.
  eapply (failed_summary_not_recorded (world (summarizing "   ")) env
            (config_of channel_posting) video1 channel_posting tt _ _ _
            "Hello and welcome. Today we talk about proofs."
            (PStr "concise") (PInt 500) (PBool true)
            "Proofs for everyone" "Rocq Weekly" (Some "")).
  - vm_compute. reflexivity.
  - vm_compute. repeat constructor.
  - reflexivity.
Defined.

(** The record of the first video was written for the summary generated in
    the same call. *)
Lemma recorded_summary_was_generated_witness :
  let run :=
    process_video (world (summarizing "A short summary.")) env (config_of channel_plain)
      video1 channel_plain tt in
  run.1.1 = Ok true
  ∧ ∃ t style length stamps,
      t ≠ ""
      ∧ GetVideoTranscript "dQw4w9WgXcQ" (Some t) ∈ run.2
      ∧ GenerateSummary t style length stamps
          "Proofs for everyone" "Rocq Weekly" (Some "A short summary.") ∈ run.2.
Proof.
  cbv zeta.
  destruct (process_video (world (summarizing "A short summary.")) env
              (config_of channel_plain) video1 channel_plain tt) as [[o w'] l] eqn:Hrun.
  assert (MarkVideoAsProcessed "dQw4w9WgXcQ" "Rocq Weekly" "A short summary." true ∈ l)
    as Hmark.
  { vm_compute in Hrun. injection Hrun as _ _ <-. repeat constructor. }
  by destruct (recorded_summary_was_generated _ _ _ _ _ _ _ _ _ _ _ _ _ Hrun Hmark)
    as (_ & _ & _ & -> & Hgenerated).
Defined.

(** Two videos are discovered and the second is in the store: only the
    first is worked on. *)
Lemma processed_ids_are_never_touched_witness :
  let run := main (world one_known) env (local_only (config_of channel_posting)) tt in
  GetVideoTranscript "dQw4w9WgXcQ" (Some "Hello and welcome. Today we talk about proofs.")
    ∈ run.2
  ∧ (run.2 = []
     ∨ ∃ processed rest,
         run.2 = GetProcessedVideos processed :: rest
         ∧ ∀ e, e ∈ rest → only_new processed e = true).
Proof.
  split; [vm_compute; repeat constructor|].
  apply (processed_ids_are_never_touched (world one_known) env
           (local_only (config_of channel_posting)) tt
           (main (world one_known) env (local_only (config_of channel_posting)) tt).1.1
           (main (world one_known) env (local_only (config_of channel_posting)) tt).1.2).
  by destruct (main _ _ _ _) as [[? ?] ?].
Defined.

(** The generative service answers with 300 characters: the post that goes
    out has at most 278. *)
Lemma posted_tweets_fit_witness :
  let run := main (world (verbose 300)) env (local_only (config_of channel_posting)) tt in
  ∃ text, IO_CreateTweet text ∈ run.2 ∧ 0 < len text <= 278.
Proof.
  cbv zeta.
  destruct (main (world (verbose 300)) env (local_only (config_of channel_posting)) tt)
    as [[o w'] l] eqn:Hrun.
  assert (∃ text, IO_CreateTweet text ∈ l) as [text Hin].
  { vm_compute in Hrun. injection Hrun as _ _ <-. eexists. repeat constructor. }
  exists text. split; [done|].
  apply (posted_tweets_fit _ _ _ _ _ _ _ _ Hrun Hin).
Defined.


(** [global_settings] is an array of the three names: the configuration is
    loaded, and the run stops after the read of the processed ids. *)
Lemma main_raises_without_settings_dict_witness :
  ∃ processed w',
    main (world all_known) env (local_only settings_as_list) tt
    = (Raise AttributeError, w', [GetProcessedVideos processed]).
Proof.
  eapply (main_raises_without_settings_dict (world all_known) env
            (local_only settings_as_list) settings_as_list).
  - vm_compute. reflexivity.
  - vm_compute. reflexivity.
  - intros d. discriminate.
Defined.

(** The same run under the handler: status 500 and the text of the
    exception. *)
Lemma lambda_handler_reports_witness :
  lambda_handler (world all_known) more env (local_only settings_as_list) tt
  = (Ok (response more 500 "Error: 'list' object has no attribute 'get'"), tt,
     [GetProcessedVideos (list_to_set ["9bZkp7q19f0"; "dQw4w9WgXcQ"])]).
Proof.
  apply (lambda_handler_reports (world all_known) more env (local_only settings_as_list) tt
           (Raise AttributeError)).
  vm_compute. reflexivity.
Defined.

(** Two videos are discovered and the second is in the store: one
    transcript is asked for, that of the first. *)
Lemma discovery_order_is_kept_witness :
  let run :=
    process_channel (world one_known) env (config_of channel_plain)
      {["9bZkp7q19f0"]} "2024-04-30T06:00:00Z" channel_plain tt in
  fetched_ids run.2 = ["dQw4w9WgXcQ"]
  ∧ (run.2 = []
     ∨ ∃ channel_id max_results ret rest,
         run.2 = GetChannelVideos channel_id max_results "2024-04-30T06:00:00Z" ret :: rest
         ∧ fetched_ids rest `prefix_of` new_videos {["9bZkp7q19f0"]} (videos_of ret)
         ∧ (run.1.1 = Ok tt →
            fetched_ids rest = new_videos {["9bZkp7q19f0"]} (videos_of ret))).
Proof.
  split; [by vm_compute|].
  apply (discovery_order_is_kept (world one_known) env (config_of channel_plain)
           {["9bZkp7q19f0"]} "2024-04-30T06:00:00Z" channel_plain tt _
           (process_channel (world one_known) env (config_of channel_plain)
              {["9bZkp7q19f0"]} "2024-04-30T06:00:00Z" channel_plain tt).1.2).
  by destruct (process_channel _ _ _ _ _ _ _) as [[? ?] ?].
Defined.

(** A first run on an empty store records the video it summarized; a second
    run from the world the first one left does not touch that video. *)
Lemma recorded_videos_skipped_next_run_witness :
  let run1 :=
    main (with_store (world (summarizing "A short summary."))) env
      (local_only (config_of channel_plain)) empty_store in
  let run2 :=
    main (with_store (world (summarizing "A short summary."))) env
      (local_only (config_of channel_plain)) run1.1.2 in
  MarkVideoAsProcessed "dQw4w9WgXcQ" "Rocq Weekly" "A short summary." true ∈ run1.2
  ∧ ∀ e, e ∈ run2.2 → event_video e ≠ Some "dQw4w9WgXcQ".
Proof.
  cbv zeta.
  assert (MarkVideoAsProcessed "dQw4w9WgXcQ" "Rocq Weekly" "A short summary." true
            ∈ (main (with_store (world (summarizing "A short summary."))) env
                 (local_only (config_of channel_plain)) empty_store).2) as Hmark
    by (vm_compute; repeat constructor).
  split; [exact Hmark|].
  set (run1 := main (with_store (world (summarizing "A short summary."))) env
                 (local_only (config_of channel_plain)) empty_store) in *.
  set (run2 := main (with_store (world (summarizing "A short summary."))) env
                 (local_only (config_of channel_plain)) run1.1.2).
  apply (recorded_videos_skipped_next_run (world (summarizing "A short summary.")) env
           (local_only (config_of channel_plain)) (local_only (config_of channel_plain))
           empty_store run1.1.1 run1.1.2 run1.2 run2.1.1 run2.1.2 run2.2
           "dQw4w9WgXcQ" "Rocq Weekly" "A short summary.").
  - apply run_eta.
  - exact Hmark.
  - apply run_eta.
Defined.

End MoreInstances.
